(** * Kraskov (KSG) mutual-information estimators: [bmi/estimators/ksg.py]

    A shallow embedding of the two estimator classes of [ksg.py] and of the
    neighbourhood validator they share.

    - Python [int] is [Z]; array lengths and indices produced by [range] are
      [nat].
    - A two-dimensional [numpy.ndarray] of reals is a list of rows of exact
      rationals ([Q]); rounding, infinities and NaN are outside the model.
    - Python objects that are shared by reference (arrays, dictionaries) live
      in a store addressed by locations; an estimator instance is a record of
      its attributes, whose [_mi_dict] attribute is a location.
    - Exceptions are values of [exn]; a raising call returns the store it
      has reached, nothing is rolled back.
    - scipy's [digamma], scikit-learn's pairwise distances and
      [StandardScaler] are not code of this repository: they are the fields
      of the class [Numerics]. *)

From Stdlib Require Import ZArith QArith Qabs Lia List Bool.
From stdpp Require Import base list.
Import ListNotations.

Local Open Scope Z_scope.

(** ** Exceptions *)

(** The four [raise ValueError(...)] sites of [ksg.py], by their message, and
    the failures of builtins and of numpy that also raise [ValueError]. *)
Inductive value_error : Type :=
  | Neighborhoods_list_must_be_non_empty
  | Each_neighborhood_must_be_at_least_1
  | Arrays_have_different_length (len_x len_y : nat)
  | Maximum_neighborhood_used (kmax : Z) (n_points : nat)
  | Arg_is_an_empty_sequence
  | Operands_could_not_be_broadcast
  | Array_dimensions_must_match.

Inductive exn : Type :=
  | ValueError (msg : value_error)
  | EstimatorNotFittedException
  | NotImplementedError
  | AssertionError
  | IndexError
  | KeyError
  | TypeError.

(** The error taxonomy of the specification (section 7). *)
Inductive spec_error : Type :=
  | InvalidConfiguration
  | MismatchedLengths
  | InsufficientSamples
  | NotFittedError
  | Unimplemented.

Definition spec_error_of (e : exn) : option spec_error :=
  match e with
  | ValueError Neighborhoods_list_must_be_non_empty => Some InvalidConfiguration
  | ValueError Each_neighborhood_must_be_at_least_1 => Some InvalidConfiguration
  | ValueError (Arrays_have_different_length _ _) => Some MismatchedLengths
  | ValueError (Maximum_neighborhood_used _ _) => Some InsufficientSamples
  | EstimatorNotFittedException => Some NotFittedError
  | NotImplementedError => Some Unimplemented
  | _ => None
  end.

Inductive result (A : Type) : Type :=
  | Ok (a : A)
  | Raise (e : exn).
Arguments Ok {A} a.
Arguments Raise {A} e.

Definition is_ok {A} (r : result A) : bool :=
  match r with Ok _ => true | Raise _ => false end.

Definition rbind {A B} (r : result A) (k : A -> result B) : result B :=
  match r with
  | Ok a => k a
  | Raise e => Raise e
  end.

#[global] Instance result_ret : MRet result := @Ok.
#[global] Instance result_bind : MBind result :=
  fun A B k r => rbind r k.

(** ** Python builtins on sequences of integers *)

(** [min(seq)] and [max(seq)]: [ValueError] on an empty sequence. *)
Definition py_min (l : list Z) : result Z :=
  match l with
  | [] => Raise (ValueError Arg_is_an_empty_sequence)
  | a :: r => Ok (fold_left Z.min r a)
  end.

Definition py_max (l : list Z) : result Z :=
  match l with
  | [] => Raise (ValueError Arg_is_an_empty_sequence)
  | a :: r => Ok (fold_left Z.max r a)
  end.

(** [seq[i]] with Python's wrap-around of negative indices. *)
Definition list_getitem {A} (l : list A) (i : Z) : result A :=
  let j := if i <? 0 then Z.of_nat (length l) + i else i in
  if j <? 0 then Raise IndexError
  else match l !! Z.to_nat j with
       | Some a => Ok a
       | None => Raise IndexError
       end.

(** [arr[i]] for an index produced by [range]. *)
Definition getitem {A} (l : list A) (i : nat) : result A :=
  match l !! i with
  | Some a => Ok a
  | None => Raise IndexError
  end.

(** ** The neighbourhood validator (ksg.py, lines 15-26) *)

Definition _cast_and_check_neighborhoods (neighborhoods : list Z)
  : result (list Z) :=
  if (length neighborhoods =? 0)%nat
  then Raise (ValueError Neighborhoods_list_must_be_non_empty)
  else m ← py_min neighborhoods;
       if m <? 1
       then Raise (ValueError Each_neighborhood_must_be_at_least_1)
       else Ok neighborhoods.


(** ** Reals, as exact rationals *)

Definition Qlt_bool (a b : Q) : bool := negb (Qle_bool b a).

(** The builtin [max(a, b)] on two numbers: [b] only when [b > a]. *)
Definition max2 (a b : Q) : Q := if Qlt_bool a b then b else a.

Definition Qsum (l : list Q) : Q := fold_left Qplus l 0%Q.

(** [np.mean] of a one-dimensional array (of an empty one numpy returns nan;
    the division by zero of [Q] gives 0). *)
Definition np_mean (l : list Q) : Q :=
  (Qsum l / inject_Z (Z.of_nat (length l)))%Q.

(** [np.maximum(a, b)] on two one-dimensional arrays. *)
Definition np_maximum (a b : list Q) : result (list Q) :=
  if (length a =? length b)%nat
  then Ok (zip_with max2 a b)
  else Raise (ValueError Operands_could_not_be_broadcast).

(** [(arr < bound).sum()] *)
Definition count_below (arr : list Q) (bound : Q) : Z :=
  Z.of_nat (length (filter (fun d => Qlt_bool d bound = true) arr)).

(** ** Loops in the error monad *)

Fixpoint mapM {A B} (f : A -> result B) (l : list A) : result (list B) :=
  match l with
  | [] => Ok []
  | a :: r => b ← f a; bs ← mapM f r; Ok (b :: bs)
  end.

(** [for a in l: acc = body(a, acc)] *)
Fixpoint for_acc {A B} (l : list A) (body : A -> B -> result B) (acc : B)
  : result B :=
  match l with
  | [] => Ok acc
  | a :: r => acc' ← body a acc; for_acc r body acc'
  end.

(** ** [sorted(seq, key=...)]

    The keys are computed first, one per element; the sort is stable, which
    fixes its result: elements with equal keys keep their order. *)
Fixpoint insert_by_key (p : Q * nat) (l : list (Q * nat)) : list (Q * nat) :=
  match l with
  | [] => [p]
  | q :: r => if Qle_bool (fst p) (fst q) then p :: q :: r
              else q :: insert_by_key p r
  end.

Definition stable_sort (l : list (Q * nat)) : list (Q * nat) :=
  fold_right insert_by_key [] l.

Definition sorted (l : list nat) (key : nat -> result Q) : result (list nat) :=
  keys ← mapM key l;
  Ok (map snd (stable_sort (combine keys l))).

(** ** Python dictionaries with integer keys

    Keys are unique and kept in insertion order; assigning to a present key
    keeps its position. *)
Definition pydict (V : Type) : Type := list (Z * V).

Fixpoint dict_get {V} (k : Z) (d : pydict V) : option V :=
  match d with
  | [] => None
  | (k', v) :: r => if k =? k' then Some v else dict_get k r
  end.

Fixpoint dict_set {V} (k : Z) (v : V) (d : pydict V) : pydict V :=
  match d with
  | [] => [(k, v)]
  | (k', v') :: r => if k =? k' then (k', v) :: r
                     else (k', v') :: dict_set k v r
  end.

Definition dict_getitem {V} (d : pydict V) (k : Z) : result V :=
  match dict_get k d with
  | Some v => Ok v
  | None => Raise KeyError
  end.

Definition dict_keys {V} (d : pydict V) : list Z := map fst d.
Definition dict_values {V} (d : pydict V) : list V := map snd d.
Definition dict_items {V} (d : pydict V) : list (Z * V) := d.

(** [{k: [] for k in keys}] *)
Definition dict_of_empty_lists {V} (keys : list Z) : pydict (list V) :=
  fold_left (fun d k => dict_set k [] d) keys [].

(** ** The store *)

Abbreviation row := (list Q).
Abbreviation matrix := (list (list Q)).

Inductive obj : Type :=
  | ONdarray (a : matrix)
  | ODict (d : pydict Q).

Abbreviation loc := nat.
Abbreviation heap := (list obj).

(** The state of a method call: the attributes of [self] and the store. *)
Record st (S : Type) : Type := St { me : S; mem : heap }.
Arguments St {S} me mem.
Arguments me {S} s.
Arguments mem {S} s.

Definition Py (S A : Type) : Type := st S -> result A * st S.

#[global] Instance Py_ret {S} : MRet (Py S) := fun A a s => (Ok a, s).
#[global] Instance Py_bind {S} : MBind (Py S) :=
  fun A B k c s =>
    match c s with
    | (Ok a, s') => k a s'
    | (Raise e, s') => (Raise e, s')
    end.

Definition raise {S A} (e : exn) : Py S A := fun s => (Raise e, s).

Definition lift {S A} (r : result A) : Py S A := fun s => (r, s).

(** [self.attribute] and [self.attribute = v] *)
Definition attr {S A} (f : S -> A) : Py S A := fun s => (Ok (f (me s)), s).
Definition setattr {S} (f : S -> S) : Py S unit :=
  fun s => (Ok tt, St (f (me s)) (mem s)).

Definition alloc {S} (o : obj) : Py S loc :=
  fun s => (Ok (length (mem s)), St (me s) (mem s ++ [o])).

Definition ndarray_read {S} (x : loc) : Py S matrix :=
  fun s => match mem s !! x with
           | Some (ONdarray a) => (Ok a, s)
           | _ => (Raise TypeError, s)
           end.

Definition ndarray_write {S} (x : loc) (a : matrix) : Py S unit :=
  fun s => match mem s !! x with
           | Some (ONdarray _) => (Ok tt, St (me s) (<[x := ONdarray a]> (mem s)))
           | _ => (Raise TypeError, s)
           end.

Definition dict_read {S} (d : loc) : Py S (pydict Q) :=
  fun s => match mem s !! d with
           | Some (ODict m) => (Ok m, s)
           | _ => (Raise TypeError, s)
           end.

(** [d[k] = v] *)
Definition dict_setitem {S} (d : loc) (k : Z) (v : Q) : Py S unit :=
  fun s => match mem s !! d with
           | Some (ODict m) =>
               (Ok tt, St (me s) (<[d := ODict (dict_set k v m)]> (mem s)))
           | _ => (Raise TypeError, s)
           end.

(** [d.copy()]: a new dictionary object with the same items. *)
Definition dict_copy {S} (d : loc) : Py S loc :=
  m ← dict_read d; alloc (ODict m).

(** [np.array(x)]: a new array object with the elements of [x]. *)
Definition np_array {S} (x : loc) : Py S loc :=
  a ← ndarray_read x; alloc (ONdarray a).

(** [len(x)] *)
Definition len {S} (x : loc) : Py S nat :=
  a ← ndarray_read x; mret (length a).

(** [for a in l: body(a)] *)
Fixpoint for_ {S A} (l : list A) (body : A -> Py S unit) : Py S unit :=
  match l with
  | [] => mret tt
  | a :: r => _ ← body a; for_ r body
  end.

(** [np.shape] of a two-dimensional array. *)
Definition shape (a : matrix) : nat * nat :=
  (length a, match a with [] => O | r :: _ => length r end).

(** [np.hstack([x, y])] of two-dimensional arrays. *)
Definition np_hstack (x y : matrix) : result matrix :=
  if (length x =? length y)%nat
  then Ok (zip_with (fun u v => u ++ v) x y)
  else Raise (ValueError Array_dimensions_must_match).

(** ** scipy and scikit-learn *)

Inductive _AllowedContinuousMetric : Type := euclidean | manhattan | chebyshev.

(** The numerical routines [ksg.py] imports: [scipy.special.digamma] at an
    integer, the distance between two points under a metric of
    [sklearn.metrics.pairwise_distances], and the matrix that
    [StandardScaler().fit_transform] computes. The laws are those the
    specification states for them (sections 4.2 and 4.3): standardization
    keeps the number of rows, and a point is at distance 0 from itself. *)
Class Numerics : Type := {
  _DIGAMMA : Z -> Q;
  metric_distance : _AllowedContinuousMetric -> row -> row -> Q;
  standard_scale : matrix -> matrix;
  standard_scale_rows : forall a, length (standard_scale a) = length a;
  metric_distance_self : forall m p, (metric_distance m p p == 0)%Q
}.

Section Estimators.
Context `{Numerics}.

(** [metrics.pairwise_distances(p[None, :], x, metric=m)[0, :]] *)
Definition pairwise_distances (p : row) (x : matrix)
  (m : _AllowedContinuousMetric) : list Q :=
  map (metric_distance m p) x.

(** [preprocessing.StandardScaler(copy=copy).fit_transform(x)]: with
    [copy=False] the array [x] itself is overwritten and returned. *)
Definition StandardScaler_fit_transform {S} (copy : bool) (x : loc) : Py S loc :=
  a ← ndarray_read x;
  if copy then alloc (ONdarray (standard_scale a))
  else _ ← ndarray_write x (standard_scale a); mret x.

(** [if self._standardize: x = ...; y = ...] (lines 80-82 and 152-154): the
    names [x] and [y] after the statement. *)
Definition standardize_in_place {S} (standardize : bool) (x y : loc)
  : Py S (loc * loc) :=
  if standardize
  then x' ← StandardScaler_fit_transform false x;
       y' ← StandardScaler_fit_transform false y;
       mret (x', y')
  else mret (x, y).

(** *** [class KSGEnsembleFirstEstimator] (ksg.py, lines 29-129) *)

Record KSGEnsembleFirstEstimator : Type := {
  _neighborhoods : list Z;
  _standardize : bool;
  _n_jobs : Z;
  _metric_x : _AllowedContinuousMetric;
  _metric_y : _AllowedContinuousMetric;
  _fitted : bool;
  _mi_dict : loc
}.

Definition set_fitted (b : bool) (self : KSGEnsembleFirstEstimator)
  : KSGEnsembleFirstEstimator :=
  {| _neighborhoods := _neighborhoods self;
     _standardize := _standardize self;
     _n_jobs := _n_jobs self;
     _metric_x := _metric_x self;
     _metric_y := _metric_y self;
     _fitted := b;
     _mi_dict := _mi_dict self |}.

(** [__init__]: the new instance, with its empty [_mi_dict] allocated in the
    store. *)
Definition __init__ (neighborhoods : list Z) (standardize : bool)
  (metric_x : _AllowedContinuousMetric)
  (metric_y : option _AllowedContinuousMetric) (n_jobs : Z) (h : heap)
  : result (st KSGEnsembleFirstEstimator) :=
  checked ← _cast_and_check_neighborhoods neighborhoods;
  Ok (St {| _neighborhoods := checked;
            _standardize := standardize;
            _n_jobs := n_jobs;
            _metric_x := metric_x;
            _metric_y := match metric_y with Some m => m | None => metric_x end;
            _fitted := false;
            _mi_dict := length h |}
         (h ++ [ODict []])).

(** The body of [for k in self._neighborhoods] (lines 101-113), for the
    point [index]. *)
Definition digammas_of_neighborhood (distances_x distances_y distances_z : list Q)
  (closest_points : list nat) (k : Z) (digammas_dict : pydict (list Q))
  : result (pydict (list Q)) :=
  kth_neighbour ← list_getitem closest_points k;
  distance ← getitem distances_z kth_neighbour;
  let n_x := count_below distances_x distance - 1 in
  let n_y := count_below distances_y distance - 1 in
  let digammas_per_point := (_DIGAMMA (n_x + 1) + _DIGAMMA (n_y + 1))%Q in
  digammas ← dict_getitem digammas_dict k;
  Ok (dict_set k (digammas ++ [digammas_per_point]) digammas_dict).

(** The body of [for index in range(n_points)] (lines 87-113). *)
Definition digammas_of_point (self : KSGEnsembleFirstEstimator) (x y : matrix)
  (index : nat) (digammas_dict : pydict (list Q)) : result (pydict (list Q)) :=
  x_index ← getitem x index;
  y_index ← getitem y index;
  let distances_x := pairwise_distances x_index x (_metric_x self) in
  let distances_y := pairwise_distances y_index y (_metric_y self) in
  distances_z ← np_maximum distances_x distances_y;
  closest_points ← sorted (seq 0 (length distances_z))
                          (fun i => getitem distances_z i);
  for_acc (_neighborhoods self)
    (digammas_of_neighborhood distances_x distances_y distances_z closest_points)
    digammas_dict.

(** Lines 84-113: the dictionary of accumulated digamma terms. *)
Definition accumulate_digammas (self : KSGEnsembleFirstEstimator) (x y : matrix)
  : result (pydict (list Q)) :=
  let digammas_dict := dict_of_empty_lists (_neighborhoods self) in
  let n_points := fst (shape x) in
  for_acc (seq 0 n_points) (digammas_of_point self x y) digammas_dict.

(** Line 116. *)
Definition mi_estimate (k : Z) (digammas : list Q) (n_points : nat) : Q :=
  (_DIGAMMA k - np_mean digammas + _DIGAMMA (Z.of_nat n_points))%Q.

Definition fit (x y : loc) : Py KSGEnsembleFirstEstimator unit :=
  x ← np_array x;
  y ← np_array y;
  len_x ← len x;
  len_y ← len y;
  if negb (len_x =? len_y)%nat
  then raise (ValueError (Arrays_have_different_length len_x len_y))
  else
  neighborhoods ← attr _neighborhoods;
  kmax ← lift (py_max neighborhoods);
  if (Z.of_nat len_x <=? kmax)
  then raise (ValueError (Maximum_neighborhood_used kmax len_x))
  else
  standardize ← attr _standardize;
  '(x, y) ← standardize_in_place standardize x y;
  self ← attr id;
  x_values ← ndarray_read x;
  y_values ← ndarray_read y;
  digammas_dict ← lift (accumulate_digammas self x_values y_values);
  let n_points := fst (shape x_values) in
  _ ← for_ (dict_items digammas_dict)
        (fun '(k, digammas) =>
           dict_setitem (_mi_dict self) k
             (max2 0 (mi_estimate k digammas n_points)));
  setattr (set_fitted true).

Definition get_predictions : Py KSGEnsembleFirstEstimator loc :=
  fitted ← attr _fitted;
  if negb fitted then raise EstimatorNotFittedException
  else
  mi_dict ← attr _mi_dict;
  dict_copy mi_dict.

Definition estimate (x y : loc) : Py KSGEnsembleFirstEstimator Q :=
  _ ← fit x y;
  predictions ← get_predictions;
  values ← dict_read predictions;
  mret (np_mean (dict_values values)).

(** *** [class KSGEnsembleChebyshevEstimator] (ksg.py, lines 132-175) *)

(** The [sklearn.neighbors.NearestNeighbors] object: its parameters and the
    data it was last fitted on. *)
Record NearestNeighbors : Type := {
  nn_metric : _AllowedContinuousMetric;
  nn_n_jobs : Z;
  nn_fit_X : option matrix
}.

Definition NearestNeighbors_fit (nn : NearestNeighbors) (z : matrix)
  : NearestNeighbors :=
  {| nn_metric := nn_metric nn; nn_n_jobs := nn_n_jobs nn; nn_fit_X := Some z |}.

Record KSGEnsembleChebyshevEstimator : Type := {
  cheb_neighborhoods : list Z;
  cheb_nearest_neighbors : NearestNeighbors;
  cheb_standardize : bool
}.

Definition set_nearest_neighbors (nn : NearestNeighbors)
  (self : KSGEnsembleChebyshevEstimator) : KSGEnsembleChebyshevEstimator :=
  {| cheb_neighborhoods := cheb_neighborhoods self;
     cheb_nearest_neighbors := nn;
     cheb_standardize := cheb_standardize self |}.

Definition cheb___init__ (neighborhoods : list Z) (standardize : bool)
  (n_jobs : Z) (h : heap) : result (st KSGEnsembleChebyshevEstimator) :=
  checked ← _cast_and_check_neighborhoods neighborhoods;
  Ok (St {| cheb_neighborhoods := checked;
            cheb_nearest_neighbors :=
              {| nn_metric := chebyshev; nn_n_jobs := n_jobs;
                 nn_fit_X := None |};
            cheb_standardize := standardize |}
         h).

Definition cheb_fit (x y : loc) : Py KSGEnsembleChebyshevEstimator unit :=
  x ← np_array x;
  y ← np_array y;
  len_x ← len x;
  len_y ← len y;
  if negb (len_x =? len_y)%nat
  then raise (ValueError (Arrays_have_different_length len_x len_y))
  else
  standardize ← attr cheb_standardize;
  '(x, y) ← standardize_in_place standardize x y;
  x_values ← ndarray_read x;
  y_values ← ndarray_read y;
  z ← lift (np_hstack x_values y_values);
  if negb (bool_decide
             (shape z = (fst (shape x_values),
                         (snd (shape x_values) + snd (shape y_values))%nat)))
  then raise AssertionError
  else
  nn ← attr cheb_nearest_neighbors;
  setattr (set_nearest_neighbors (NearestNeighbors_fit nn z)).

Definition cheb_predict (neighborhoods : option (list Z))
  : Py KSGEnsembleChebyshevEstimator loc :=
  neighborhoods ← match neighborhoods with
                  | None => attr cheb_neighborhoods
                  | Some given => lift (_cast_and_check_neighborhoods given)
                  end;
  raise NotImplementedError.

Definition cheb_estimate (x y : loc) : Py KSGEnsembleChebyshevEstimator Q :=
  _ ← cheb_fit x y;
  predictions ← cheb_predict None;
  values ← dict_read predictions;
  mret (np_mean (dict_values values)).

(** The attributes of an instance as [__init__] builds them and the methods
    keep them: validated neighbourhoods, and a [_mi_dict] that is empty
    until [fit] has returned and then has one entry per key of
    [{k: ... for k in self._neighborhoods}]. *)
Definition well_formed (s : st KSGEnsembleFirstEstimator) : Prop :=
  _cast_and_check_neighborhoods (_neighborhoods (me s))
    = Ok (_neighborhoods (me s)) /\
  exists m, mem s !! _mi_dict (me s) = Some (ODict m) /\
            if _fitted (me s)
            then dict_keys m
                 = dict_keys (@dict_of_empty_lists Q (_neighborhoods (me s)))
            else m = [].

(** *** A caller of a [KSGEnsembleFirstEstimator] instance

    The caller holds references to the objects it has created and to those
    the methods have returned to it, and can overwrite only these; the
    instance's [_mi_dict] is reachable by the caller only if a method hands
    it out. *)
Inductive call : Type :=
  | Call_fit (x y : loc)
  | Call_get_predictions
  | Call_estimate (x y : loc)
  | Caller_creates (o : obj)
  | Caller_overwrites (l : loc) (o : obj).

Record world : Type := World {
  instance : st KSGEnsembleFirstEstimator;
  held : list loc
}.

Definition step (c : call) (w : world) : world :=
  match c with
  | Call_fit x y => World (snd (fit x y (instance w))) (held w)
  | Call_get_predictions =>
      match get_predictions (instance w) with
      | (Ok d, s) => World s (d :: held w)
      | (Raise _, s) => World s (held w)
      end
  | Call_estimate x y => World (snd (estimate x y (instance w))) (held w)
  | Caller_creates o =>
      World (St (me (instance w)) (mem (instance w) ++ [o]))
            (length (mem (instance w)) :: held w)
  | Caller_overwrites l o =>
      if bool_decide (l ∈ held w)
      then World (St (me (instance w)) (<[l := o]> (mem (instance w)))) (held w)
      else w
  end.

Definition run (calls : list call) (w : world) : world :=
  fold_left (fun w c => step c w) calls w.

(** The caller constructs the instance in a store of its own objects. *)
Definition construct (neighborhoods : list Z) (standardize : bool)
  (metric_x : _AllowedContinuousMetric)
  (metric_y : option _AllowedContinuousMetric) (n_jobs : Z) (h : heap)
  : result world :=
  s ← __init__ neighborhoods standardize metric_x metric_y n_jobs h;
  Ok (World s (seq 0 (length h))).

(** Whether the call runs [fit] (directly, or as the first statement of
    [estimate]). *)
Definition runs_fit (c : call) : option (loc * loc) :=
  match c with
  | Call_fit x y | Call_estimate x y => Some (x, y)
  | _ => None
  end.

(** Whether one of the [calls], made in turn from [w], ran [fit] to its
    normal return. *)
Fixpoint fit_has_succeeded (calls : list call) (w : world) : bool :=
  match calls with
  | [] => false
  | c :: rest =>
      match runs_fit c with
      | Some (x, y) => is_ok (fst (fit x y (instance w)))
      | None => false
      end || fit_has_succeeded rest (step c w)
  end.

(** *** The estimate as the specification words it (section 4.4, steps 2-3)

    [n_x(i, k)]: the number of points other than [i] whose distance is
    strictly below the joint distance of the k-th neighbour. *)
Definition spec_ordering (distances_z : list Q) : list nat :=
  map snd (stable_sort (combine distances_z (seq 0 (length distances_z)))).

Definition spec_radius (distances_z : list Q) (k : Z) : Q :=
  nth (nth (Z.to_nat k) (spec_ordering distances_z) O) distances_z 0%Q.

Definition spec_count (distances : list Q) (i : nat) (bound : Q) : Z :=
  Z.of_nat (length (filter (fun j => j ≠ i ∧ Qlt_bool (nth j distances 0%Q) bound = true)
                           (seq 0 (length distances)))).

Definition spec_term (self : KSGEnsembleFirstEstimator) (x y : matrix)
  (i : nat) (k : Z) : Q :=
  let distances_x := map (metric_distance (_metric_x self) (nth i x [])) x in
  let distances_y := map (metric_distance (_metric_y self) (nth i y [])) y in
  let distances_z := zip_with max2 distances_x distances_y in
  let bound := spec_radius distances_z k in
  (_DIGAMMA (spec_count distances_x i bound + 1)
   + _DIGAMMA (spec_count distances_y i bound + 1))%Q.

Definition spec_estimate (self : KSGEnsembleFirstEstimator) (x y : matrix)
  (k : Z) : Q :=
  let n := length x in
  max2 0 (_DIGAMMA k
          - np_mean (map (fun i => spec_term self x y i k) (seq 0 n))
          + _DIGAMMA (Z.of_nat n))%Q.

End Estimators.

(** ** A sample of the numerical routines

    Exact on rationals where the true routine is: the digamma function up to
    its additive constant (the harmonic number [H (n-1)]; every estimate of
    line 116 is unchanged by the constant, which cancels), the Manhattan and
    Chebyshev distances, and the Euclidean distance and the standard
    deviation whenever the square root is rational (rounded down
    otherwise). At the poles [n <= 0] of digamma the sample takes 0. *)

Definition harmonic (n : nat) : Q :=
  Qsum (map (fun j => 1 # Pos.of_nat j) (seq 1 n)).

Definition sample_digamma (n : Z) : Q :=
  if n <=? 0 then 0%Q else harmonic (Z.to_nat (n - 1)).

Definition Qsqrt_floor (q : Q) : Q :=
  Qmake (Z.sqrt (Qnum q * Zpos (Qden q))) (Qden q).

Definition coordinate_gaps (p q : row) : list Q :=
  zip_with (fun a b => Qabs (a - b)) p q.

Definition sample_distance (m : _AllowedContinuousMetric) (p q : row) : Q :=
  match m with
  | manhattan => Qsum (coordinate_gaps p q)
  | chebyshev => fold_left max2 (coordinate_gaps p q) 0%Q
  | euclidean => Qsqrt_floor (Qsum (map (fun g => g * g)%Q (coordinate_gaps p q)))
  end.

Definition column (a : matrix) (j : nat) : list Q :=
  map (fun r => nth j r 0%Q) a.

Definition column_std (c : list Q) : Q :=
  let mu := np_mean c in
  Qsqrt_floor (np_mean (map (fun v => (v - mu) * (v - mu))%Q c)).

(** A column of zero variance is only centred, as scikit-learn does. *)
Definition sample_scale (a : matrix) : matrix :=
  map (fun r =>
         imap (fun j v =>
                 let c := column a j in
                 let sd := column_std c in
                 ((v - np_mean c) / (if Qeq_bool sd 0 then 1 else sd))%Q) r) a.

(** * Properties *)

(** ** Facts about the builtins *)

Lemma fold_min_lower (r : list Z) (a c : Z) :
  c <= a -> Forall (fun k => c <= k) r -> c <= fold_left Z.min r a.
Proof.
  revert a. induction r as [|b r IH]; intros a Ha Hr; simpl; [lia|].
  inversion Hr; subst. apply IH; [lia|assumption].
Qed.

Lemma fold_min_reaches (r : list Z) (a c : Z) :
  (a < c \/ Exists (fun k => k < c) r) -> fold_left Z.min r a < c.
Proof.
  revert a. induction r as [|b r IH]; intros a [Ha|Hr]; simpl.
  - lia.
  - inversion Hr.
  - apply IH. left. lia.
  - inversion Hr; subst; apply IH; [left; lia | right; assumption].
Qed.

Lemma fold_max_ge (r : list Z) (a : Z) : a <= fold_left Z.max r a.
Proof.
  revert a. induction r as [|b r IH]; intros a; simpl; [lia|].
  specialize (IH (Z.max a b)). lia.
Qed.

Lemma fold_max_bounds (r : list Z) (a : Z) :
  Forall (fun k => k <= fold_left Z.max r a) r.
Proof.
  revert a. induction r as [|b r IH]; intros a; simpl; constructor.
  - pose proof (fold_max_ge r (Z.max a b)). lia.
  - apply IH.
Qed.

Lemma py_max_spec (l : list Z) (m : Z) :
  py_max l = Ok m -> Forall (fun k => k <= m) l /\ In m l.
Proof.
  destruct l as [|a r]; simpl; [discriminate|].
  intros E. injection E as <-. split.
  - constructor; [apply fold_max_ge | apply fold_max_bounds].
  - clear. revert a. induction r as [|b r IH]; intros a; simpl; [now left|].
    destruct (IH (Z.max a b)) as [H|H]; [|now right; right].
    rewrite <- H.
    destruct (Z.max_spec a b) as [[_ E]|[_ E]]; rewrite E; auto.
Qed.


(** ** Sums and comparisons of rationals *)

Lemma Qsum_from (l : list Q) (a : Q) :
  (fold_left Qplus l a == a + Qsum l)%Q.
Proof.
  unfold Qsum. revert a. induction l as [|b l IH]; intros a; simpl.
  - ring.
  - rewrite (IH (a + b)%Q), (IH (0 + b)%Q). ring.
Qed.

Lemma Qsum_cons (b : Q) (l : list Q) : (Qsum (b :: l) == b + Qsum l)%Q.
Proof. unfold Qsum at 1. simpl. rewrite Qsum_from. ring. Qed.

Lemma Qsum_zeros (l : list Q) :
  Forall (fun g => g == 0)%Q l -> (Qsum l == 0)%Q.
Proof.
  induction 1 as [|g l Hg _ IH]; [reflexivity|].
  rewrite Qsum_cons, Hg, IH. ring.
Qed.

Lemma Qlt_bool_iff (a b : Q) : Qlt_bool a b = true <-> (a < b)%Q.
Proof.
  unfold Qlt_bool. rewrite negb_true_iff. split.
  - intros E. apply Qnot_le_lt. intros Hle.
    apply Qle_bool_iff in Hle. congruence.
  - intros Hlt. destruct (Qle_bool b a) eqn:E; [|reflexivity].
    apply Qle_bool_iff in E. exfalso. exact (Qlt_not_le _ _ Hlt E).
Qed.

Lemma Qlt_bool_false_iff (a b : Q) : Qlt_bool a b = false <-> (b <= a)%Q.
Proof.
  unfold Qlt_bool. rewrite negb_false_iff. apply Qle_bool_iff.
Qed.

(** ** The sample satisfies the laws of [Numerics] *)

Lemma Qsum_app (l1 l2 : list Q) : (Qsum (l1 ++ l2) == Qsum l1 + Qsum l2)%Q.
Proof.
  induction l1 as [|a l1 IH]; cbn [app].
  - unfold Qsum at 2. simpl. ring.
  - rewrite !Qsum_cons, IH. ring.
Qed.

Lemma Qsum_repeat (v : Q) (c : nat) :
  (Qsum (repeat v c) == inject_Z (Z.of_nat c) * v)%Q.
Proof.
  induction c as [|c IH].
  - unfold Qsum. simpl. ring.
  - cbn [repeat]. rewrite Qsum_cons, IH, Nat2Z.inj_succ.
    unfold Z.succ. rewrite inject_Z_plus. ring.
Qed.

Lemma Qsum_repeated {A} (g : A -> Q) (c : nat) (l : list A) :
  (Qsum (flat_map (fun i => repeat (g i) c) l)
   == inject_Z (Z.of_nat c) * Qsum (map g l))%Q.
Proof.
  induction l as [|i l IH]; cbn [flat_map map].
  - unfold Qsum. simpl. ring.
  - rewrite Qsum_app, Qsum_repeat, Qsum_cons, IH. ring.
Qed.

Lemma length_repeated {A} (g : A -> Q) (c : nat) (l : list A) :
  length (flat_map (fun i => repeat (g i) c) l) = (c * length l)%nat.
Proof.
  induction l as [|i l IH]; cbn [flat_map length]; [lia|].
  rewrite length_app, repeat_length, IH. lia.
Qed.

(** The mean of a list in which every term stands [c] times is the mean of
    the terms. *)
Lemma np_mean_repeated {A} (g : A -> Q) (c : nat) (l : list A) :
  (0 < c)%nat ->
  (np_mean (flat_map (fun i => repeat (g i) c) l) == np_mean (map g l))%Q.
Proof.
  intros Hc. destruct l as [|i l]; [reflexivity|].
  unfold np_mean. rewrite Qsum_repeated, length_repeated, length_map.
  rewrite Nat2Z.inj_mul, inject_Z_mult.
  assert (Hc' : ~ (inject_Z (Z.of_nat c) == 0)%Q).
  { unfold Qeq, inject_Z. simpl. lia. }
  assert (Hn : ~ (inject_Z (Z.of_nat (length (i :: l))) == 0)%Q).
  { unfold Qeq, inject_Z. cbn [length Qnum Qden]. lia. }
  field. split; assumption.
Qed.

Lemma max2_Qeq (a b : Q) : (a == b)%Q -> (max2 0 a == max2 0 b)%Q.
Proof.
  intros E. unfold max2.
  destruct (Qlt_bool 0 a) eqn:Ea, (Qlt_bool 0 b) eqn:Eb;
    try exact E; try reflexivity.
  - apply Qlt_bool_iff in Ea. apply Qlt_bool_false_iff in Eb.
    rewrite E in Ea. exfalso. exact (Qlt_not_le _ _ Ea Eb).
  - apply Qlt_bool_iff in Eb. apply Qlt_bool_false_iff in Ea.
    rewrite E in Ea. exfalso. exact (Qlt_not_le _ _ Eb Ea).
Qed.

Lemma coordinate_gaps_self (p : row) :
  Forall (fun g => g == 0)%Q (coordinate_gaps p p).
Proof.
  induction p as [|a p IH]; constructor; [|exact IH].
  assert (E : (a - a == 0)%Q) by ring. rewrite E. reflexivity.
Qed.

Lemma fold_max2_zeros (l : list Q) :
  Forall (fun g => g == 0)%Q l -> fold_left max2 l 0%Q = 0%Q.
Proof.
  induction 1 as [|g l Hg _ IH]; [reflexivity|].
  simpl. unfold max2 at 2.
  assert (E : Qlt_bool 0 g = false).
  { apply Qlt_bool_false_iff. rewrite Hg. apply Qle_refl. }
  rewrite E. exact IH.
Qed.

Lemma Qsqrt_floor_zero (q : Q) : (q == 0)%Q -> (Qsqrt_floor q == 0)%Q.
Proof.
  unfold Qeq, Qsqrt_floor. simpl. intros E.
  assert (E0 : Qnum q = 0) by lia. rewrite E0. reflexivity.
Qed.

Lemma sample_distance_self (m : _AllowedContinuousMetric) (p : row) :
  (sample_distance m p p == 0)%Q.
Proof.
  pose proof (coordinate_gaps_self p) as Hz.
  destruct m; simpl.
  - apply Qsqrt_floor_zero, Qsum_zeros.
    induction Hz as [|g l Hg _ IH]; constructor; [|exact IH].
    rewrite Hg. ring.
  - apply Qsum_zeros, Hz.
  - rewrite (fold_max2_zeros _ Hz). reflexivity.
Qed.

Lemma sample_scale_rows (a : matrix) : length (sample_scale a) = length a.
Proof. unfold sample_scale. apply length_map. Qed.

Definition sample_numerics : Numerics := {|
  _DIGAMMA := sample_digamma;
  metric_distance := sample_distance;
  standard_scale := sample_scale;
  standard_scale_rows := sample_scale_rows;
  metric_distance_self := sample_distance_self
|}.

(** ** Dictionaries *)

Section Dictionaries.
Context {V : Type}.
Implicit Types (d : pydict V) (k : Z) (v : V).

Lemma dict_get_keys d k : is_Some (dict_get k d) <-> In k (dict_keys d).
Proof.
  induction d as [|[k' v'] d IH]; simpl.
  - split; [intros [? ?]; discriminate | tauto].
  - destruct (Z.eqb_spec k k') as [->|Hne].
    + split; [now left | eauto].
    + rewrite IH. split; [now right | intros [?|?]; [congruence|assumption]].
Qed.

Lemma dict_get_set_eq d k v : dict_get k (dict_set k v d) = Some v.
Proof.
  induction d as [|[k' v'] d IH]; simpl.
  - rewrite Z.eqb_refl. reflexivity.
  - destruct (Z.eqb_spec k k') as [->|Hne]; simpl.
    + rewrite Z.eqb_refl. reflexivity.
    + destruct (Z.eqb_spec k k'); [congruence|exact IH].
Qed.

Lemma dict_get_set_ne d k k' v :
  k' <> k -> dict_get k' (dict_set k v d) = dict_get k' d.
Proof.
  intros Hne. induction d as [|[k0 v0] d IH]; simpl.
  - destruct (Z.eqb_spec k' k); [congruence|reflexivity].
  - destruct (Z.eqb_spec k k0) as [->|Hne0]; simpl.
    + destruct (Z.eqb_spec k' k0); [congruence|reflexivity].
    + destruct (Z.eqb_spec k' k0); [reflexivity|exact IH].
Qed.

Lemma dict_keys_set_present d k v :
  In k (dict_keys d) -> dict_keys (dict_set k v d) = dict_keys d.
Proof.
  induction d as [|[k' v'] d IH]; simpl; [tauto|].
  intros Hin. destruct (Z.eqb_spec k k') as [->|Hne]; simpl; [reflexivity|].
  f_equal. apply IH. destruct Hin; [congruence|assumption].
Qed.

Lemma dict_keys_set_absent d k v :
  ~ In k (dict_keys d) -> dict_keys (dict_set k v d) = dict_keys d ++ [k].
Proof.
  induction d as [|[k' v'] d IH]; simpl; [reflexivity|].
  intros Hin. destruct (Z.eqb_spec k k') as [->|Hne]; simpl; [tauto|].
  f_equal. apply IH. tauto.
Qed.

Lemma dict_keys_set_In d k k' v :
  In k' (dict_keys (dict_set k v d)) <-> k' = k \/ In k' (dict_keys d).
Proof.
  destruct (in_dec Z.eq_dec k (dict_keys d)) as [Hin|Hin].
  - rewrite dict_keys_set_present by assumption.
    split; [tauto | intros [->|?]; assumption].
  - rewrite dict_keys_set_absent by assumption. rewrite in_app_iff. simpl.
    split; [intros [?|[?|[]]]; auto | intros [->|?]; auto].
Qed.

Lemma dict_keys_set_NoDup d k v :
  List.NoDup (dict_keys d) -> List.NoDup (dict_keys (dict_set k v d)).
Proof.
  induction d as [|[k' v'] d IH]; simpl; intros Hnd.
  - repeat constructor. simpl. tauto.
  - inversion Hnd as [|? ? Hnot Hnd']; subst.
    destruct (Z.eqb_spec k k') as [->|Hne]; simpl; [exact Hnd|].
    constructor; [|exact (IH Hnd')].
    change (~ In k' (dict_keys (dict_set k v d))).
    rewrite dict_keys_set_In. intros [?|?]; [congruence|contradiction].
Qed.

(** A dictionary is determined by its sequence of keys and its values. *)
Lemma dict_ext (d1 d2 : pydict V) :
  dict_keys d1 = dict_keys d2 -> List.NoDup (dict_keys d1) ->
  (forall k, dict_get k d1 = dict_get k d2) -> d1 = d2.
Proof.
  revert d2. induction d1 as [|[k1 v1] d1 IH]; intros [|[k2 v2] d2]; simpl;
    try discriminate; [reflexivity|].
  intros Hk Hnd Hget. injection Hk as -> Hk. inversion Hnd as [|? ? Hnot Hnd']; subst.
  assert (v1 = v2) as ->.
  { specialize (Hget k2). rewrite Z.eqb_refl in Hget. congruence. }
  f_equal. apply IH; [exact Hk | exact Hnd' |].
  intros k. specialize (Hget k).
  destruct (Z.eqb_spec k k2) as [E|Hne]; [|exact Hget].
  rewrite E. clear Hget E k.
  destruct (dict_get k2 d1) eqn:E1.
  { exfalso. apply Hnot. apply dict_get_keys. eauto. }
  destruct (dict_get k2 d2) eqn:E2; [|reflexivity].
  exfalso. apply Hnot. rewrite Hk. apply dict_get_keys. eauto.
Qed.

End Dictionaries.

Lemma dict_of_empty_lists_from {V} (keys : list Z) (d : pydict (list V)) :
  let d' := fold_left (fun d k => dict_set k [] d) keys d in
  (forall k, In k (dict_keys d') <-> In k (dict_keys d) \/ In k keys) /\
  (List.NoDup (dict_keys d) -> List.NoDup (dict_keys d')) /\
  (forall k, In k keys -> dict_get k d' = Some []) /\
  (forall k, ~ In k keys -> dict_get k d' = dict_get k d).
Proof.
  revert d. induction keys as [|a keys IH]; intros d; simpl.
  - repeat split; try tauto.
  - destruct (IH (dict_set a [] d)) as (Hin & Hnd & Hget & Hother).
    split; [|split; [|split]].
    + intros k. rewrite Hin, dict_keys_set_In. intuition.
    + intros Hd. apply Hnd, dict_keys_set_NoDup, Hd.
    + intros k [->|Hk].
      * destruct (in_dec Z.eq_dec k keys) as [Hk|Hk]; [now apply Hget|].
        rewrite Hother by assumption. apply dict_get_set_eq.
      * now apply Hget.
    + intros k Hk. rewrite Hother by tauto. apply dict_get_set_ne.
      intros ->. apply Hk. now left.
Qed.

Lemma dict_of_empty_lists_keys {V} (keys : list Z) (k : Z) :
  In k (dict_keys (@dict_of_empty_lists V keys)) <-> In k keys.
Proof.
  unfold dict_of_empty_lists.
  destruct (dict_of_empty_lists_from (V := V) keys []) as (Hin & _).
  rewrite Hin. simpl. tauto.
Qed.

Lemma dict_of_empty_lists_NoDup {V} (keys : list Z) :
  List.NoDup (dict_keys (@dict_of_empty_lists V keys)).
Proof.
  unfold dict_of_empty_lists.
  destruct (dict_of_empty_lists_from (V := V) keys []) as (_ & Hnd & _).
  apply Hnd. constructor.
Qed.

Lemma dict_of_empty_lists_get {V} (keys : list Z) (k : Z) :
  In k keys -> dict_get k (@dict_of_empty_lists V keys) = Some [].
Proof.
  unfold dict_of_empty_lists.
  destruct (dict_of_empty_lists_from (V := V) keys []) as (_ & _ & Hget & _).
  apply Hget.
Qed.

(** ** Sorting and indexing *)

Lemma insert_by_key_perm (p : Q * nat) (l : list (Q * nat)) :
  insert_by_key p l ≡ₚ p :: l.
Proof.
  induction l as [|q l IH]; simpl; [reflexivity|].
  destruct (Qle_bool (fst p) (fst q)); [reflexivity|].
  rewrite IH. apply perm_swap.
Qed.

Lemma stable_sort_perm (l : list (Q * nat)) : stable_sort l ≡ₚ l.
Proof.
  induction l as [|p l IH]; simpl; [reflexivity|].
  rewrite insert_by_key_perm, IH. reflexivity.
Qed.

Lemma map_snd_combine {A B} (l : list A) (l' : list B) :
  length l = length l' -> map snd (combine l l') = l'.
Proof.
  revert l'. induction l as [|a l IH]; intros [|b l']; simpl;
    try discriminate; [reflexivity|].
  intros E. f_equal. apply IH. lia.
Qed.

Lemma spec_ordering_perm (distances_z : list Q) :
  spec_ordering distances_z ≡ₚ seq 0 (length distances_z).
Proof.
  unfold spec_ordering. rewrite stable_sort_perm.
  rewrite map_snd_combine by (rewrite length_seq; reflexivity). reflexivity.
Qed.

Lemma spec_ordering_length (distances_z : list Q) :
  length (spec_ordering distances_z) = length distances_z.
Proof.
  rewrite (Permutation_length (spec_ordering_perm distances_z)).
  apply length_seq.
Qed.

Lemma spec_ordering_bound (distances_z : list Q) (i j : nat) :
  spec_ordering distances_z !! i = Some j -> (j < length distances_z)%nat.
Proof.
  intros E. apply list_elem_of_lookup_2 in E.
  rewrite (spec_ordering_perm distances_z) in E.
  apply list_elem_of_In, in_seq in E. lia.
Qed.

Lemma mapM_getitem_seq {A} (pre l : list A) :
  mapM (fun i => getitem (pre ++ l) i) (seq (length pre) (length l)) = Ok l.
Proof.
  revert pre. induction l as [|a l IH]; intros pre; [reflexivity|].
  change (seq (length pre) (length (a :: l)))
    with (length pre :: seq (S (length pre)) (length l)).
  cbn [mapM].
  assert (E : getitem (pre ++ a :: l) (length pre) = Ok a).
  { unfold getitem. rewrite lookup_app_r by lia.
    replace (length pre - length pre)%nat with O by lia. reflexivity. }
  rewrite E. specialize (IH (pre ++ [a])).
  rewrite <- app_assoc, length_app in IH. simpl in IH.
  replace (length pre + 1)%nat with (S (length pre)) in IH by lia.
  unfold mbind, result_bind, rbind. rewrite IH. reflexivity.
Qed.

Lemma sorted_indices (distances_z : list Q) :
  sorted (seq 0 (length distances_z)) (fun i => getitem distances_z i)
  = Ok (spec_ordering distances_z).
Proof.
  unfold sorted. pose proof (mapM_getitem_seq [] distances_z) as E.
  simpl in E. rewrite E. reflexivity.
Qed.

Lemma list_getitem_in_range {A} (l : list A) (k : Z) (d : A) :
  0 <= k < Z.of_nat (length l) ->
  list_getitem l k = Ok (nth (Z.to_nat k) l d).
Proof.
  intros Hk. unfold list_getitem.
  destruct (Z.ltb_spec k 0) as [?|_]; [lia|].
  destruct (Z.ltb_spec k 0) as [?|_]; [lia|].
  destruct (nth_lookup_or_length l (Z.to_nat k) d) as [E|E]; [|lia].
  rewrite E. reflexivity.
Qed.

Lemma getitem_in_range {A} (l : list A) (i : nat) (d : A) :
  (i < length l)%nat -> getitem l i = Ok (nth i l d).
Proof.
  intros Hi. unfold getitem.
  destruct (nth_lookup_or_length l i d) as [E|E]; [|lia].
  rewrite E. reflexivity.
Qed.

(** ** Counting below a bound, with and without the point itself *)

Lemma count_by_index (pre l : list Q) (r : Q) :
  length (filter (fun d => Qlt_bool d r = true) l)
  = length (filter (fun j => Qlt_bool (nth j (pre ++ l) 0%Q) r = true)
                   (seq (length pre) (length l))).
Proof.
  revert pre. induction l as [|d l IH]; intros pre; [reflexivity|].
  cbn [length seq]. rewrite !filter_cons.
  assert (E : nth (length pre) (pre ++ d :: l) 0%Q = d).
  { rewrite app_nth2 by lia.
    replace (length pre - length pre)%nat with O by lia. reflexivity. }
  rewrite E. specialize (IH (pre ++ [d])).
  rewrite <- app_assoc, length_app in IH. cbn [app length] in IH.
  replace (length pre + 1)%nat with (S (length pre)) in IH by lia.
  destruct (decide (Qlt_bool d r = true)); cbn [length]; rewrite IH; reflexivity.
Qed.

Lemma count_index_once (i a n : nat) :
  (a <= i < a + n)%nat ->
  length (filter (fun j => j = i) (seq a n)) = 1%nat.
Proof.
  revert a. induction n as [|n IH]; intros a Hi; [lia|].
  cbn [seq]. rewrite filter_cons. destruct (decide (a = i)) as [->|Hne].
  - cbn [length]. f_equal.
    assert (Hnone : forall b m, (i < b)%nat ->
                      length (filter (fun j => j = i) (seq b m)) = O).
    { clear. intros b m. revert b. induction m as [|m IH]; intros b Hb;
        [reflexivity|].
      cbn [seq]. rewrite filter_cons. destruct (decide (b = i)); [lia|].
      apply IH. lia. }
    apply Hnone. lia.
  - apply IH. lia.
Qed.

Lemma count_exclude (p : nat -> bool) (i : nat) (L : list nat) :
  length (filter (fun j => p j = true) L)
  = (length (filter (fun j => j ≠ i ∧ p j = true) L)
     + (if p i then length (filter (fun j => j = i) L) else 0))%nat.
Proof.
  induction L as [|j L IH]; [destruct (p i); reflexivity|].
  rewrite !filter_cons.
  destruct (decide (j = i)) as [->|Hne].
  - destruct (p i) eqn:Ep.
    + destruct (decide (true = true)); [|congruence].
      destruct (decide (i ≠ i ∧ true = true)) as [[? _]|_]; [congruence|].
      cbn [length]. rewrite IH. lia.
    + destruct (decide (false = true)); [congruence|].
      destruct (decide (i ≠ i ∧ false = true)) as [[? _]|_]; [congruence|].
      exact IH.
  - destruct (decide (p j = true)) as [Ej|Ej].
    + destruct (decide (j ≠ i ∧ p j = true)) as [_|Hn]; [|tauto].
      cbn [length]. rewrite IH. destruct (p i); lia.
    + destruct (decide (j ≠ i ∧ p j = true)) as [[_ ?]|_]; [contradiction|].
      exact IH.
Qed.

(** When the point itself is below the bound, the count of line 109, less
    one, is the number of the other points below the bound. *)
Lemma count_below_others (distances : list Q) (i : nat) (bound : Q) :
  (i < length distances)%nat ->
  Qlt_bool (nth i distances 0%Q) bound = true ->
  count_below distances bound - 1 = spec_count distances i bound.
Proof.
  intros Hi Hself. unfold count_below, spec_count.
  rewrite (count_by_index [] distances bound). cbn [app length].
  rewrite (count_exclude (fun j => Qlt_bool (nth j distances 0%Q) bound) i).
  rewrite Hself, count_index_once by lia. lia.
Qed.

(** When it is not, the count of line 109 is already the number of the
    other points, and the code takes one less. *)
Lemma count_below_self_excluded (distances : list Q) (i : nat) (bound : Q) :
  Qlt_bool (nth i distances 0%Q) bound = false ->
  count_below distances bound = spec_count distances i bound.
Proof.
  intros Hself. unfold count_below, spec_count.
  rewrite (count_by_index [] distances bound). cbn [app length].
  rewrite (count_exclude (fun j => Qlt_bool (nth j distances 0%Q) bound) i).
  rewrite Hself. f_equal. lia.
Qed.

(** ** The store and the statements of a method *)

Section Properties.
Context `{Numerics}.

Lemma bind_ok {S A B} (c : Py S A) (k : A -> Py S B) (s s' : st S) (a : A) :
  c s = (Ok a, s') -> (c ≫= k) s = k a s'.
Proof. intros E. unfold mbind, Py_bind. rewrite E. reflexivity. Qed.

Lemma bind_raise {S A B} (c : Py S A) (k : A -> Py S B) (s s' : st S) (e : exn) :
  c s = (Raise e, s') -> (c ≫= k) s = (Raise e, s').
Proof. intros E. unfold mbind, Py_bind. rewrite E. reflexivity. Qed.

Lemma np_array_ok {S} (x : loc) (a : matrix) (s : st S) :
  mem s !! x = Some (ONdarray a) ->
  np_array x s = (Ok (length (mem s)), St (me s) (mem s ++ [ONdarray a])).
Proof.
  intros E. unfold np_array, mbind, Py_bind, ndarray_read. rewrite E.
  reflexivity.
Qed.

Lemma np_array_raise {S} (x : loc) (s : st S) :
  (forall a, mem s !! x ≠ Some (ONdarray a)) ->
  np_array x s = (Raise TypeError, s).
Proof.
  intros E. unfold np_array, mbind, Py_bind, ndarray_read.
  destruct (mem s !! x) as [[a|d]|] eqn:E'; try reflexivity.
  exfalso. exact (E a eq_refl).
Qed.

Lemma len_ok {S} (x : loc) (a : matrix) (s : st S) :
  mem s !! x = Some (ONdarray a) -> len x s = (Ok (length a), s).
Proof.
  intros E. unfold len, mbind, Py_bind, ndarray_read. rewrite E. reflexivity.
Qed.

Lemma ndarray_read_ok {S} (x : loc) (a : matrix) (s : st S) :
  mem s !! x = Some (ONdarray a) -> ndarray_read x s = (Ok a, s).
Proof. intros E. unfold ndarray_read. rewrite E. reflexivity. Qed.

(** The two working copies that [fit] makes sit at the end of the store. *)
Definition with_copies (h : heap) (a b : matrix) : heap :=
  (h ++ [ONdarray a]) ++ [ONdarray b].

Lemma with_copies_fst (h : heap) (a b : matrix) :
  with_copies h a b !! length h = Some (ONdarray a).
Proof.
  unfold with_copies. rewrite lookup_app_l by (rewrite length_app; simpl; lia).
  rewrite lookup_app_r by lia. replace (length h - length h)%nat with O by lia.
  reflexivity.
Qed.

Lemma with_copies_snd (h : heap) (a b : matrix) :
  with_copies h a b !! S (length h) = Some (ONdarray b).
Proof.
  unfold with_copies. rewrite lookup_app_r by (rewrite length_app; simpl; lia).
  rewrite length_app. simpl.
  replace (S (length h) - (length h + 1))%nat with O by lia. reflexivity.
Qed.

Lemma with_copies_old (h : heap) (a b : matrix) (l : loc) (o : obj) :
  h !! l = Some o -> with_copies h a b !! l = Some o.
Proof.
  intros E. pose proof (lookup_lt_Some _ _ _ E) as Hl. unfold with_copies.
  rewrite lookup_app_l by (rewrite length_app; simpl; lia).
  rewrite lookup_app_l by lia. exact E.
Qed.

Lemma with_copies_lookup_lt (h : heap) (a b : matrix) (l : loc) :
  (l < length h)%nat -> with_copies h a b !! l = h !! l.
Proof.
  intros Hl. unfold with_copies.
  rewrite lookup_app_l by (rewrite length_app; simpl; lia).
  rewrite lookup_app_l by lia. reflexivity.
Qed.

Lemma with_copies_length (h : heap) (a b : matrix) :
  length (with_copies h a b) = S (S (length h)).
Proof. unfold with_copies. rewrite !length_app. simpl. lia. Qed.

Lemma with_copies_write_fst (h : heap) (a a' b : matrix) :
  <[length h := ONdarray a']> (with_copies h a b) = with_copies h a' b.
Proof.
  unfold with_copies.
  rewrite insert_app_l by (rewrite length_app; simpl; lia).
  rewrite insert_app_r_alt by lia.
  replace (length h - length h)%nat with O by lia. reflexivity.
Qed.

Lemma with_copies_write_snd (h : heap) (a b b' : matrix) :
  <[S (length h) := ONdarray b']> (with_copies h a b) = with_copies h a b'.
Proof.
  unfold with_copies.
  rewrite insert_app_r_alt by (rewrite length_app; simpl; lia).
  rewrite length_app. simpl.
  replace (S (length h) - (length h + 1))%nat with O by lia. reflexivity.
Qed.

(** The matrix the algorithm runs on. *)
Definition prepared (standardize : bool) (a : matrix) : matrix :=
  if standardize then standard_scale a else a.

Lemma prepared_length (standardize : bool) (a : matrix) :
  length (prepared standardize a) = length a.
Proof. destruct standardize; [apply standard_scale_rows | reflexivity]. Qed.

Lemma standardize_in_place_copies {T} (flag : bool) (me0 : T) (h : heap)
  (a b : matrix) :
  standardize_in_place flag (length h) (S (length h))
    (St me0 (with_copies h a b))
  = (Ok (length h, S (length h)),
     St me0 (with_copies h (prepared flag a) (prepared flag b))).
Proof.
  destruct flag; [|reflexivity].
  unfold standardize_in_place, StandardScaler_fit_transform.
  unfold mbind, Py_bind, mret, Py_ret, ndarray_read, ndarray_write. simpl.
  rewrite with_copies_fst. simpl. rewrite with_copies_fst. simpl.
  rewrite with_copies_write_fst, with_copies_snd. simpl.
  rewrite with_copies_snd. simpl. rewrite with_copies_write_snd. reflexivity.
Qed.

(** Lines 115-119 of [fit]: the estimates are stored, then the flag is set. *)
Definition store_estimates (self : KSGEnsembleFirstEstimator)
  (digammas_dict : pydict (list Q)) (n_points : nat)
  : Py KSGEnsembleFirstEstimator unit :=
  _ ← for_ (dict_items digammas_dict)
        (fun '(k, digammas) =>
           dict_setitem (_mi_dict self) k
             (max2 0 (mi_estimate k digammas n_points)));
  setattr (set_fitted true).

(** [fit] on two arrays of the store, statement by statement. *)
Lemma fit_on_arrays (x y : loc) (a b : matrix)
  (s : st KSGEnsembleFirstEstimator) :
  mem s !! x = Some (ONdarray a) ->
  (mem s ++ [ONdarray a]) !! y = Some (ONdarray b) ->
  fit x y s =
    let s1 := St (me s) (with_copies (mem s) a b) in
    if negb (length a =? length b)%nat
    then (Raise (ValueError (Arrays_have_different_length (length a) (length b))), s1)
    else match py_max (_neighborhoods (me s)) with
         | Raise e => (Raise e, s1)
         | Ok kmax =>
             if Z.of_nat (length a) <=? kmax
             then (Raise (ValueError (Maximum_neighborhood_used kmax (length a))), s1)
             else
               let a' := prepared (_standardize (me s)) a in
               let b' := prepared (_standardize (me s)) b in
               let s2 := St (me s) (with_copies (mem s) a' b') in
               match accumulate_digammas (me s) a' b' with
               | Raise e => (Raise e, s2)
               | Ok digammas_dict =>
                   store_estimates (me s) digammas_dict (length a') s2
               end
         end.
Proof.
  intros Ex Ey'. unfold fit.
  rewrite (bind_ok _ _ _ _ _ (np_array_ok x a s Ex)).
  rewrite (bind_ok _ _ _ _ _
             (np_array_ok y b (St (me s) (mem s ++ [ONdarray a])) Ey')).
  cbn [me mem]. fold (with_copies (mem s) a b).
  replace (length (mem s ++ [ONdarray a])) with (S (length (mem s)))
    by (rewrite length_app; simpl; lia).
  rewrite (bind_ok _ _ _ _ _
             (len_ok (length (mem s)) a (St (me s) (with_copies (mem s) a b))
                (with_copies_fst (mem s) a b))).
  rewrite (bind_ok _ _ _ _ _
             (len_ok (S (length (mem s))) b (St (me s) (with_copies (mem s) a b))
                (with_copies_snd (mem s) a b))).
  cbv zeta. destruct (negb (length a =? length b)%nat); [reflexivity|].
  unfold mbind at 1, Py_bind at 1, attr at 1. cbn [me mem].
  unfold mbind at 1, Py_bind at 1, lift at 1.
  destruct (py_max (_neighborhoods (me s))) as [kmax|e]; [|reflexivity].
  destruct (Z.of_nat (length a) <=? kmax); [reflexivity|].
  unfold mbind at 1, Py_bind at 1, attr at 1. cbn [me mem].
  unfold mbind at 1, Py_bind at 1.
  rewrite standardize_in_place_copies.
  unfold mbind at 1, Py_bind at 1, attr at 1. cbn [me mem id].
  rewrite (bind_ok _ _ _ _ _
             (ndarray_read_ok (length (mem s)) _ (St (me s) (with_copies (mem s) _ _))
                (with_copies_fst (mem s) _ _))).
  rewrite (bind_ok _ _ _ _ _
             (ndarray_read_ok (S (length (mem s))) _ (St (me s) (with_copies (mem s) _ _))
                (with_copies_snd (mem s) _ _))).
  unfold mbind at 1, Py_bind at 1, lift at 1.
  destruct (accumulate_digammas _ _ _) as [dd|e]; [|reflexivity].
  reflexivity.
Qed.

(** *** The accumulation loops of [fit] (lines 84-113) *)

(** [d[k].append(v)] on a present key. *)
Definition dict_push (k : Z) (v : Q) (d : pydict (list Q)) : pydict (list Q) :=
  match dict_get k d with
  | Some l => dict_set k (l ++ [v]) d
  | None => d
  end.

Lemma dict_push_keys (k : Z) (v : Q) (d : pydict (list Q)) :
  dict_keys (dict_push k v d) = dict_keys d.
Proof.
  unfold dict_push. destruct (dict_get k d) eqn:E; [|reflexivity].
  apply dict_keys_set_present, dict_get_keys. eauto.
Qed.

(** The term appended for one point and one [k], from the three distance
    vectors of the point. *)
Definition digammas_per_point (distances_x distances_y distances_z : list Q)
  (k : Z) : Q :=
  let distance := spec_radius distances_z k in
  (_DIGAMMA (count_below distances_x distance - 1 + 1)
   + _DIGAMMA (count_below distances_y distance - 1 + 1))%Q.

Definition code_term (self : KSGEnsembleFirstEstimator) (x y : matrix)
  (index : nat) (k : Z) : Q :=
  let distances_x := pairwise_distances (nth index x []) x (_metric_x self) in
  let distances_y := pairwise_distances (nth index y []) y (_metric_y self) in
  digammas_per_point distances_x distances_y
    (zip_with max2 distances_x distances_y) k.

Lemma digammas_of_neighborhood_ok (dx dy dz : list Q) (k : Z)
  (d : pydict (list Q)) :
  0 <= k < Z.of_nat (length dz) -> In k (dict_keys d) ->
  digammas_of_neighborhood dx dy dz (spec_ordering dz) k d
  = Ok (dict_push k (digammas_per_point dx dy dz k) d).
Proof.
  intros Hk Hin. unfold digammas_of_neighborhood.
  rewrite (list_getitem_in_range _ k O)
    by (rewrite spec_ordering_length; exact Hk).
  unfold mbind at 1, result_bind at 1, rbind at 1.
  assert (Hj : (nth (Z.to_nat k) (spec_ordering dz) O < length dz)%nat).
  { destruct (nth_lookup_or_length (spec_ordering dz) (Z.to_nat k) O) as [E|E].
    - exact (spec_ordering_bound _ _ _ E).
    - rewrite spec_ordering_length in E. lia. }
  rewrite (getitem_in_range _ _ 0%Q Hj).
  unfold mbind at 1, result_bind at 1, rbind at 1.
  apply dict_get_keys in Hin. destruct Hin as [l El].
  unfold dict_getitem, dict_push. rewrite El. reflexivity.
Qed.

Lemma for_neighborhoods_ok (dx dy dz : list Q) (ks : list Z)
  (d : pydict (list Q)) :
  Forall (fun k => 0 <= k < Z.of_nat (length dz)) ks ->
  (forall k, In k ks -> In k (dict_keys d)) ->
  for_acc ks (digammas_of_neighborhood dx dy dz (spec_ordering dz)) d
  = Ok (fold_left (fun d k => dict_push k (digammas_per_point dx dy dz k) d)
                  ks d).
Proof.
  revert d. induction ks as [|k ks IH]; intros d Hks Hin; [reflexivity|].
  inversion Hks as [|? ? Hk Hks']; subst. cbn [for_acc fold_left].
  rewrite digammas_of_neighborhood_ok by (auto; apply Hin; now left).
  unfold mbind, result_bind, rbind. apply IH; [exact Hks'|].
  intros k' Hk'. rewrite dict_push_keys. apply Hin. now right.
Qed.

Lemma fold_dict_push_keys (f : Z -> Q) (ks : list Z) (d : pydict (list Q)) :
  dict_keys (fold_left (fun d k => dict_push k (f k) d) ks d) = dict_keys d.
Proof.
  revert d. induction ks as [|k ks IH]; intros d; [reflexivity|].
  simpl. rewrite IH. apply dict_push_keys.
Qed.

Lemma digammas_of_point_ok (self : KSGEnsembleFirstEstimator) (x y : matrix)
  (index : nat) (d : pydict (list Q)) :
  length x = length y -> (index < length x)%nat ->
  Forall (fun k => 0 <= k < Z.of_nat (length x)) (_neighborhoods self) ->
  (forall k, In k (_neighborhoods self) -> In k (dict_keys d)) ->
  digammas_of_point self x y index d
  = Ok (fold_left (fun d k => dict_push k (code_term self x y index k) d)
                  (_neighborhoods self) d).
Proof.
  intros Hlen Hi Hks Hin. unfold digammas_of_point.
  rewrite (getitem_in_range x index [] Hi).
  unfold mbind at 1, result_bind at 1, rbind at 1.
  rewrite (getitem_in_range y index []) by lia.
  unfold mbind at 1, result_bind at 1, rbind at 1.
  set (dx := pairwise_distances (nth index x []) x (_metric_x self)).
  set (dy := pairwise_distances (nth index y []) y (_metric_y self)).
  assert (Hdx : length dx = length x) by apply length_map.
  assert (Hdy : length dy = length x)
    by (unfold dy, pairwise_distances; rewrite length_map; lia).
  unfold np_maximum. rewrite Hdx, Hdy, Nat.eqb_refl.
  unfold mbind at 1, result_bind at 1, rbind at 1.
  rewrite sorted_indices.
  unfold mbind at 1, result_bind at 1, rbind at 1.
  assert (Hdz : length (zip_with max2 dx dy) = length x).
  { rewrite length_zip_with. lia. }
  apply for_neighborhoods_ok; [rewrite Hdz; exact Hks | exact Hin].
Qed.

(** The dictionary that lines 84-113 build. *)
Definition accumulated (self : KSGEnsembleFirstEstimator) (x y : matrix)
  : pydict (list Q) :=
  fold_left
    (fun d index =>
       fold_left (fun d k => dict_push k (code_term self x y index k) d)
                 (_neighborhoods self) d)
    (seq 0 (length x)) (dict_of_empty_lists (_neighborhoods self)).

Lemma for_points_ok (self : KSGEnsembleFirstEstimator) (x y : matrix)
  (indices : list nat) (d : pydict (list Q)) :
  length x = length y ->
  Forall (fun index => (index < length x)%nat) indices ->
  Forall (fun k => 0 <= k < Z.of_nat (length x)) (_neighborhoods self) ->
  (forall k, In k (_neighborhoods self) -> In k (dict_keys d)) ->
  for_acc indices (digammas_of_point self x y) d
  = Ok (fold_left
          (fun d index =>
             fold_left (fun d k => dict_push k (code_term self x y index k) d)
                       (_neighborhoods self) d)
          indices d).
Proof.
  intros Hlen Hidx Hks. revert d.
  induction Hidx as [|index indices Hi _ IH]; intros d Hin; [reflexivity|].
  cbn [for_acc fold_left]. rewrite digammas_of_point_ok by assumption.
  unfold mbind, result_bind, rbind. apply IH.
  intros k Hk. rewrite fold_dict_push_keys. apply Hin, Hk.
Qed.

Lemma accumulate_digammas_ok (self : KSGEnsembleFirstEstimator) (x y : matrix) :
  length x = length y ->
  Forall (fun k => 0 <= k < Z.of_nat (length x)) (_neighborhoods self) ->
  accumulate_digammas self x y = Ok (accumulated self x y).
Proof.
  intros Hlen Hks. unfold accumulate_digammas, accumulated. cbn [shape fst].
  apply for_points_ok; [exact Hlen | | exact Hks |].
  - apply Forall_forall. intros i Hi. apply list_elem_of_In, in_seq in Hi. lia.
  - intros k Hk. apply dict_of_empty_lists_keys, Hk.
Qed.

Lemma accumulated_keys (self : KSGEnsembleFirstEstimator) (x y : matrix) :
  dict_keys (accumulated self x y)
  = dict_keys (@dict_of_empty_lists Q (_neighborhoods self)).
Proof.
  unfold accumulated. generalize (@dict_of_empty_lists Q (_neighborhoods self)).
  induction (seq 0 (length x)) as [|i l IH]; intros d; [reflexivity|].
  simpl. rewrite IH. apply fold_dict_push_keys.
Qed.

(** *** Validated neighbourhoods *)

Lemma cast_and_check_ok (l l' : list Z) :
  _cast_and_check_neighborhoods l = Ok l' ->
  l' = l /\ l <> [] /\ Forall (fun k => 1 <= k) l.
Proof.
  unfold _cast_and_check_neighborhoods. destruct l as [|a r]; [discriminate|].
  simpl. destruct (Z.ltb_spec (fold_left Z.min r a) 1) as [|Hm]; [discriminate|].
  intros E. injection E as <-. repeat split; [discriminate|].
  assert (Hall : forall c r a, c <= fold_left Z.min r a ->
                               c <= a /\ Forall (fun k => c <= k) r).
  { clear. intros c r. induction r as [|b r IH]; intros a Hc; simpl in *.
    - split; [lia | constructor].
    - destruct (IH _ Hc) as [Hab Hr]. split; [lia|]. constructor; [lia|exact Hr]. }
  destruct (Hall _ _ _ Hm) as [Ha Hr]. constructor; assumption.
Qed.

Lemma cast_and_check_valid (l : list Z) :
  l <> [] -> Forall (fun k => 1 <= k) l ->
  _cast_and_check_neighborhoods l = Ok l.
Proof.
  intros Hne Hall. unfold _cast_and_check_neighborhoods.
  destruct l as [|a r]; [congruence|]. simpl. inversion Hall; subst.
  assert (Hm : 1 <= fold_left Z.min r a) by (apply fold_min_lower; assumption).
  apply Z.ltb_ge in Hm. rewrite Hm. reflexivity.
Qed.

Lemma cast_and_check_invalid (l : list Z) :
  l = [] \/ Exists (fun k => k < 1) l ->
  exists e, _cast_and_check_neighborhoods l = Raise e /\
            spec_error_of e = Some InvalidConfiguration.
Proof.
  unfold _cast_and_check_neighborhoods. intros [->|Hex].
  - simpl. eexists; split; reflexivity.
  - destruct l as [|a r]; [inversion Hex|]. simpl.
    assert (Hm : fold_left Z.min r a < 1).
    { apply fold_min_reaches. inversion Hex; subst; [now left | now right]. }
    apply Z.ltb_lt in Hm. rewrite Hm. eexists; split; reflexivity.
Qed.

Lemma validated_max (l : list Z) :
  _cast_and_check_neighborhoods l = Ok l ->
  exists kmax, py_max l = Ok kmax /\ In kmax l /\ 1 <= kmax /\
               Forall (fun k => 1 <= k <= kmax) l.
Proof.
  intros Hv. destruct (cast_and_check_ok _ _ Hv) as (_ & Hne & Hall).
  destruct l as [|a r]; [congruence|].
  destruct (py_max_spec (a :: r) _ eq_refl) as [Hle Hin].
  exists (fold_left Z.max r a). repeat split; [exact Hin | |].
  - rewrite Forall_forall in Hall. apply Hall, list_elem_of_In, Hin.
  - rewrite Forall_forall in *. intros k Hk. split; [apply Hall|apply Hle]; exact Hk.
Qed.

(** *** Storing the estimates (lines 115-119) *)

Definition estimate_of (n_points : nat) (entry : Z * list Q) : Z * Q :=
  (fst entry, max2 0 (mi_estimate (fst entry) (snd entry) n_points)).

(** [_mi_dict] after the loop of line 115, from its items [m] before. *)
Definition stored (digammas_dict : pydict (list Q)) (n_points : nat)
  (m : pydict Q) : pydict Q :=
  fold_left (fun m entry => dict_set (fst (estimate_of n_points entry))
                                     (snd (estimate_of n_points entry)) m)
            digammas_dict m.

Lemma for_dict_setitem (d : loc) (digammas_dict : pydict (list Q))
  (n_points : nat) (m : pydict Q) (s : st KSGEnsembleFirstEstimator) :
  mem s !! d = Some (ODict m) ->
  for_ (dict_items digammas_dict)
       (fun '(k, digammas) =>
          dict_setitem d k (max2 0 (mi_estimate k digammas n_points))) s
  = (Ok tt, St (me s) (<[d := ODict (stored digammas_dict n_points m)]> (mem s))).
Proof.
  unfold dict_items. revert m s.
  induction digammas_dict as [|[k digammas] dd IH]; intros m s E.
  - simpl. rewrite list_insert_id by exact E. destruct s; reflexivity.
  - cbn [for_]. unfold mbind at 1, Py_bind at 1, dict_setitem at 1.
    rewrite E. rewrite (IH (dict_set k (max2 0 (mi_estimate k digammas n_points)) m)).
    + cbn [me mem]. rewrite list_insert_insert_eq. reflexivity.
    + cbn [mem]. apply list_lookup_insert_eq. exact (lookup_lt_Some _ _ _ E).
Qed.

Lemma store_estimates_ok (self : KSGEnsembleFirstEstimator)
  (digammas_dict : pydict (list Q)) (n_points : nat) (m : pydict Q)
  (s : st KSGEnsembleFirstEstimator) :
  mem s !! _mi_dict self = Some (ODict m) ->
  store_estimates self digammas_dict n_points s
  = (Ok tt, St (set_fitted true (me s))
               (<[_mi_dict self := ODict (stored digammas_dict n_points m)]> (mem s))).
Proof.
  intros E. unfold store_estimates.
  rewrite (bind_ok _ _ _ _ _ (for_dict_setitem _ _ _ _ _ E)). reflexivity.
Qed.

Lemma stored_get (dd : pydict (list Q)) (n : nat) (m : pydict Q) (k : Z) :
  List.NoDup (dict_keys dd) ->
  dict_get k (stored dd n m)
  = match dict_get k dd with
    | Some digammas => Some (max2 0 (mi_estimate k digammas n))
    | None => dict_get k m
    end.
Proof.
  unfold stored. revert m. induction dd as [|[k' v'] dd IH]; intros m Hnd;
    [reflexivity|].
  simpl in Hnd. inversion Hnd as [|? ? Hnot Hnd']; subst.
  cbn [fold_left estimate_of fst snd dict_get].
  rewrite IH by exact Hnd'. destruct (Z.eqb_spec k k') as [->|Hne].
  - destruct (dict_get k' dd) eqn:E.
    + exfalso. apply Hnot, dict_get_keys. eauto.
    + apply dict_get_set_eq.
  - destruct (dict_get k dd); [reflexivity|]. apply dict_get_set_ne, Hne.
Qed.

Lemma stored_keys_present (dd : pydict (list Q)) (n : nat) (m : pydict Q) :
  (forall k, In k (dict_keys dd) -> In k (dict_keys m)) ->
  dict_keys (stored dd n m) = dict_keys m.
Proof.
  unfold stored. revert m. induction dd as [|[k v] dd IH]; intros m Hin;
    [reflexivity|].
  cbn [fold_left estimate_of fst snd]. rewrite IH.
  - apply dict_keys_set_present, Hin. now left.
  - intros k' Hk'. apply dict_keys_set_In. right. apply Hin. now right.
Qed.

Lemma stored_keys_absent (dd : pydict (list Q)) (n : nat) (m : pydict Q) :
  List.NoDup (dict_keys dd) ->
  (forall k, In k (dict_keys dd) -> ~ In k (dict_keys m)) ->
  dict_keys (stored dd n m) = dict_keys m ++ dict_keys dd.
Proof.
  unfold stored. revert m. induction dd as [|[k v] dd IH]; intros m Hnd Hin.
  - simpl. rewrite app_nil_r. reflexivity.
  - simpl in Hnd. inversion Hnd as [|? ? Hnot Hnd']; subst.
    cbn [fold_left estimate_of fst snd]. rewrite IH.
    + rewrite dict_keys_set_absent by (apply Hin; now left).
      rewrite <- app_assoc. reflexivity.
    + exact Hnd'.
    + intros k' Hk' Hk''. apply dict_keys_set_In in Hk''.
      destruct Hk'' as [->|Hk'']; [contradiction|].
      apply (Hin k'); [now right|exact Hk''].
Qed.

(** Whatever [_mi_dict] held before, empty or fitted, it holds the new
    estimates, one per key, in the order of the keys. *)
Lemma stored_fresh (dd : pydict (list Q)) (n : nat) (m : pydict Q) :
  List.NoDup (dict_keys dd) ->
  m = [] \/ dict_keys m = dict_keys dd ->
  stored dd n m = map (estimate_of n) dd.
Proof.
  intros Hnd Hm.
  assert (Hkeys : dict_keys (map (estimate_of n) dd) = dict_keys dd).
  { unfold dict_keys. rewrite map_map. reflexivity. }
  assert (Hget : forall k, dict_get k (map (estimate_of n) dd)
                   = match dict_get k dd with
                     | Some digammas => Some (max2 0 (mi_estimate k digammas n))
                     | None => None
                     end).
  { intros k. clear. induction dd as [|[k' v'] dd IH]; [reflexivity|].
    cbn [map estimate_of fst snd dict_get].
    destruct (Z.eqb_spec k k') as [->|_]; [reflexivity|exact IH]. }
  apply dict_ext.
  - rewrite Hkeys. destruct Hm as [->|Hm].
    + rewrite stored_keys_absent by (simpl; tauto). reflexivity.
    + rewrite stored_keys_present by (intros k; rewrite Hm; tauto). exact Hm.
  - destruct Hm as [->|Hm].
    + rewrite stored_keys_absent by (simpl; tauto). exact Hnd.
    + rewrite stored_keys_present by (intros k; rewrite Hm; tauto).
      rewrite Hm. exact Hnd.
  - intros k. rewrite stored_get by exact Hnd. rewrite Hget.
    destruct (dict_get k dd) eqn:E; [reflexivity|].
    destruct (dict_get k m) eqn:E'; [|reflexivity]. exfalso.
    assert (Hin : In k (dict_keys m)) by (apply dict_get_keys; eauto).
    destruct Hm as [->|Hm]; [exact Hin|].
    rewrite Hm in Hin. apply dict_get_keys in Hin. destruct Hin as [? Hin].
    congruence.
Qed.

Lemma np_array_raise_fit (x y : loc) (s : st KSGEnsembleFirstEstimator) :
  (forall a, mem s !! x ≠ Some (ONdarray a)) ->
  fit x y s = (Raise TypeError, s).
Proof. intros E. unfold fit. apply bind_raise, np_array_raise, E. Qed.

(** *** The three outcomes of [fit] *)

(** The items of [_mi_dict] after a [fit] that returns. *)
Definition fitted_mapping (self : KSGEnsembleFirstEstimator) (a b : matrix)
  : pydict Q :=
  let a' := prepared (_standardize self) a in
  let b' := prepared (_standardize self) b in
  map (estimate_of (length a')) (accumulated self a' b').

Lemma fitted_mapping_keys (self : KSGEnsembleFirstEstimator) (a b : matrix) :
  dict_keys (fitted_mapping self a b)
  = dict_keys (@dict_of_empty_lists Q (_neighborhoods self)).
Proof.
  unfold fitted_mapping, dict_keys. rewrite map_map. cbn [estimate_of fst].
  apply accumulated_keys.
Qed.

Lemma fit_raises_mismatch (x y : loc) (a b : matrix)
  (s : st KSGEnsembleFirstEstimator) :
  mem s !! x = Some (ONdarray a) ->
  (mem s ++ [ONdarray a]) !! y = Some (ONdarray b) ->
  length a <> length b ->
  fit x y s
  = (Raise (ValueError (Arrays_have_different_length (length a) (length b))),
     St (me s) (with_copies (mem s) a b)).
Proof.
  intros Ex Ey Hne. rewrite (fit_on_arrays x y a b s Ex Ey). cbv zeta.
  destruct (Nat.eqb_spec (length a) (length b)); [contradiction|reflexivity].
Qed.

Lemma fit_raises_insufficient (x y : loc) (a b : matrix) (kmax : Z)
  (s : st KSGEnsembleFirstEstimator) :
  mem s !! x = Some (ONdarray a) ->
  (mem s ++ [ONdarray a]) !! y = Some (ONdarray b) ->
  length a = length b ->
  py_max (_neighborhoods (me s)) = Ok kmax ->
  Z.of_nat (length a) <= kmax ->
  fit x y s
  = (Raise (ValueError (Maximum_neighborhood_used kmax (length a))),
     St (me s) (with_copies (mem s) a b)).
Proof.
  intros Ex Ey Hlen Hmax Hk. rewrite (fit_on_arrays x y a b s Ex Ey). cbv zeta.
  destruct (Nat.eqb_spec (length a) (length b)); [|contradiction]. simpl.
  rewrite Hmax. destruct (Z.leb_spec (Z.of_nat (length a)) kmax); [reflexivity|lia].
Qed.

Lemma fit_returns (x y : loc) (a b : matrix) (kmax : Z)
  (s : st KSGEnsembleFirstEstimator) :
  well_formed s ->
  mem s !! x = Some (ONdarray a) ->
  (mem s ++ [ONdarray a]) !! y = Some (ONdarray b) ->
  length a = length b ->
  py_max (_neighborhoods (me s)) = Ok kmax ->
  kmax < Z.of_nat (length a) ->
  fit x y s
  = (Ok tt,
     St (set_fitted true (me s))
        (<[_mi_dict (me s) := ODict (fitted_mapping (me s) a b)]>
           (with_copies (mem s) (prepared (_standardize (me s)) a)
                                (prepared (_standardize (me s)) b)))).
Proof.
  intros (Hv & m & Em & Hm) Ex Ey Hlen Hmax Hk.
  rewrite (fit_on_arrays x y a b s Ex Ey). cbv zeta.
  destruct (Nat.eqb_spec (length a) (length b)); [|contradiction]. simpl.
  rewrite Hmax. destruct (Z.leb_spec (Z.of_nat (length a)) kmax); [lia|].
  destruct (validated_max _ Hv) as (kmax' & Hmax' & _ & _ & Hall).
  assert (kmax' = kmax) as -> by congruence.
  rewrite accumulate_digammas_ok.
  - erewrite store_estimates_ok by (cbn [mem]; apply with_copies_old, Em).
    cbn [me mem]. do 4 f_equal. apply stored_fresh.
    + rewrite accumulated_keys. apply dict_of_empty_lists_NoDup.
    + rewrite accumulated_keys. destruct (_fitted (me s)); auto.
  - rewrite !prepared_length. exact Hlen.
  - rewrite prepared_length. rewrite Forall_forall in *.
    intros k Hin. specialize (Hall k Hin). lia.
Qed.

(** Whatever the arguments, a [fit] that raises has only added objects to
    the store, and a [fit] that returns has run on two arrays of equal
    length, longer than the largest neighbourhood. *)
Lemma fit_outcomes (x y : loc) (s : st KSGEnsembleFirstEstimator) :
  well_formed s ->
  (exists e more, fit x y s = (Raise e, St (me s) (mem s ++ more))) \/
  (exists a b kmax,
     mem s !! x = Some (ONdarray a) /\
     (mem s ++ [ONdarray a]) !! y = Some (ONdarray b) /\
     length a = length b /\
     py_max (_neighborhoods (me s)) = Ok kmax /\
     kmax < Z.of_nat (length a) /\
     fit x y s
     = (Ok tt,
        St (set_fitted true (me s))
           (<[_mi_dict (me s) := ODict (fitted_mapping (me s) a b)]>
              (with_copies (mem s) (prepared (_standardize (me s)) a)
                                   (prepared (_standardize (me s)) b))))).
Proof.
  intros Hwf. destruct (mem s !! x) as [[a|dx]|] eqn:Ex.
  2,3: left; exists TypeError, []; rewrite app_nil_r;
       rewrite np_array_raise_fit by (intros a'; congruence);
       destruct s; reflexivity.
  destruct ((mem s ++ [ONdarray a]) !! y) as [[b|dy]|] eqn:Ey.
  2,3: left; exists TypeError, [ONdarray a]; unfold fit;
       rewrite (bind_ok _ _ _ _ _ (np_array_ok x a s Ex));
       apply bind_raise, np_array_raise; cbn [mem]; intros b'; congruence.
  destruct (Nat.eq_dec (length a) (length b)) as [Hlen|Hlen].
  2: left; eexists _, [_; _]; rewrite (fit_raises_mismatch x y a b s Ex Ey Hlen);
     unfold with_copies; rewrite <- app_assoc; reflexivity.
  destruct Hwf as (Hv & Hm).
  destruct (validated_max _ Hv) as (kmax & Hmax & _).
  destruct (Z.le_gt_cases (Z.of_nat (length a)) kmax) as [Hk|Hk].
  - left. eexists _, [_; _].
    rewrite (fit_raises_insufficient x y a b kmax s Ex Ey Hlen Hmax Hk).
    unfold with_copies. rewrite <- app_assoc. reflexivity.
  - right. exists a, b, kmax. repeat split; try assumption.
    apply (fit_returns x y a b kmax); try assumption. split; assumption.
Qed.

Lemma max2_nonneg (e : Q) : (0 <= max2 0 e)%Q.
Proof.
  unfold max2. destruct (Qlt_bool 0 e) eqn:E; [|apply Qle_refl].
  unfold Qlt_bool in E. apply negb_true_iff in E.
  destruct (Qlt_le_dec 0 e) as [Hlt|Hle]; [apply Qlt_le_weak, Hlt|].
  apply Qle_bool_iff in Hle. congruence.
Qed.

Lemma estimates_get (dd : pydict (list Q)) (n : nat) (k : Z) :
  dict_get k (map (estimate_of n) dd)
  = match dict_get k dd with
    | Some digammas => Some (max2 0 (mi_estimate k digammas n))
    | None => None
    end.
Proof.
  induction dd as [|[k' v'] dd IH]; [reflexivity|].
  cbn [map estimate_of fst snd dict_get].
  destruct (Z.eqb_spec k k') as [->|_]; [reflexivity|exact IH].
Qed.

Lemma fitted_mapping_get (self : KSGEnsembleFirstEstimator) (a b : matrix)
  (k : Z) :
  In k (_neighborhoods self) ->
  exists digammas,
    dict_get k (accumulated self (prepared (_standardize self) a)
                                 (prepared (_standardize self) b))
      = Some digammas /\
    dict_get k (fitted_mapping self a b)
      = Some (max2 0 (mi_estimate k digammas
                        (length (prepared (_standardize self) a)))).
Proof.
  intros Hin. unfold fitted_mapping. cbv zeta. rewrite estimates_get.
  destruct (dict_get k (accumulated self _ _)) as [digammas|] eqn:E; [eauto|].
  exfalso. assert (Hk : In k (dict_keys (accumulated self
                      (prepared (_standardize self) a)
                      (prepared (_standardize self) b)))).
  { rewrite accumulated_keys. apply dict_of_empty_lists_keys, Hin. }
  apply dict_get_keys in Hk. destruct Hk as [? Hk]. congruence.
Qed.

(** The loop of line 115 writes to [_mi_dict] only. *)
Lemma store_estimates_frame (self : KSGEnsembleFirstEstimator)
  (dd : pydict (list Q)) (n : nat) (s : st KSGEnsembleFirstEstimator)
  (l : loc) (c : matrix) :
  mem s !! l = Some (ONdarray c) ->
  mem (snd (store_estimates self dd n s)) !! l = Some (ONdarray c).
Proof.
  intros El. destruct (mem s !! _mi_dict self) as [[a|m]|] eqn:E.
  2: { rewrite (store_estimates_ok self dd n m s E). cbn [snd mem].
       rewrite list_lookup_insert_ne by congruence. exact El. }
  all: unfold store_estimates, dict_items; destruct dd as [|[k v] dd];
       [exact El|]; cbn [for_];
       unfold mbind, Py_bind, dict_setitem; rewrite E; exact El.
Qed.

(** *** [KSGEnsembleChebyshevEstimator.fit], statement by statement *)

Lemma cheb_fit_on_arrays (x y : loc) (a b : matrix)
  (s : st KSGEnsembleChebyshevEstimator) :
  mem s !! x = Some (ONdarray a) ->
  (mem s ++ [ONdarray a]) !! y = Some (ONdarray b) ->
  cheb_fit x y s =
    let s1 := St (me s) (with_copies (mem s) a b) in
    if negb (length a =? length b)%nat
    then (Raise (ValueError (Arrays_have_different_length (length a) (length b))), s1)
    else
      let a' := prepared (cheb_standardize (me s)) a in
      let b' := prepared (cheb_standardize (me s)) b in
      let s2 := St (me s) (with_copies (mem s) a' b') in
      match np_hstack a' b' with
      | Raise e => (Raise e, s2)
      | Ok z =>
          if negb (bool_decide
                     (shape z = (fst (shape a'),
                                 (snd (shape a') + snd (shape b'))%nat)))
          then (Raise AssertionError, s2)
          else (Ok tt,
                St (set_nearest_neighbors
                      (NearestNeighbors_fit (cheb_nearest_neighbors (me s)) z)
                      (me s))
                   (with_copies (mem s) a' b'))
      end.
Proof.
  intros Ex Ey'. unfold cheb_fit.
  rewrite (bind_ok _ _ _ _ _ (np_array_ok x a s Ex)).
  rewrite (bind_ok _ _ _ _ _
             (np_array_ok y b (St (me s) (mem s ++ [ONdarray a])) Ey')).
  cbn [me mem]. fold (with_copies (mem s) a b).
  replace (length (mem s ++ [ONdarray a])) with (S (length (mem s)))
    by (rewrite length_app; simpl; lia).
  rewrite (bind_ok _ _ _ _ _
             (len_ok (length (mem s)) a (St (me s) (with_copies (mem s) a b))
                (with_copies_fst (mem s) a b))).
  rewrite (bind_ok _ _ _ _ _
             (len_ok (S (length (mem s))) b (St (me s) (with_copies (mem s) a b))
                (with_copies_snd (mem s) a b))).
  cbv zeta. destruct (negb (length a =? length b)%nat); [reflexivity|].
  unfold mbind at 1, Py_bind at 1, attr at 1. cbn [me mem].
  unfold mbind at 1, Py_bind at 1.
  rewrite standardize_in_place_copies.
  rewrite (bind_ok _ _ _ _ _
             (ndarray_read_ok (length (mem s)) _ (St (me s) (with_copies (mem s) _ _))
                (with_copies_fst (mem s) _ _))).
  rewrite (bind_ok _ _ _ _ _
             (ndarray_read_ok (S (length (mem s))) _ (St (me s) (with_copies (mem s) _ _))
                (with_copies_snd (mem s) _ _))).
  unfold mbind at 1, Py_bind at 1, lift at 1.
  destruct (np_hstack _ _) as [z|e]; [|reflexivity].
  destruct (negb (bool_decide _)); reflexivity.
Qed.

(** [cheb_fit] leaves the store as [fit] does before line 84: the two
    working copies are added, nothing else is touched. *)
Lemma cheb_fit_store (x y : loc) (a b : matrix)
  (s : st KSGEnsembleChebyshevEstimator) :
  mem s !! x = Some (ONdarray a) ->
  (mem s ++ [ONdarray a]) !! y = Some (ONdarray b) ->
  exists a' b', mem (snd (cheb_fit x y s)) = with_copies (mem s) a' b'.
Proof.
  intros Ex Ey. rewrite (cheb_fit_on_arrays x y a b s Ex Ey). cbv zeta.
  destruct (negb (length a =? length b)%nat); [eauto|].
  destruct (np_hstack _ _) as [z|e]; [|eauto].
  destruct (negb (bool_decide _)); eauto.
Qed.

(** *** [get_predictions] and [estimate] *)

Lemma get_predictions_unfitted (s : st KSGEnsembleFirstEstimator) :
  _fitted (me s) = false ->
  get_predictions s = (Raise EstimatorNotFittedException, s).
Proof.
  intros E. unfold get_predictions, mbind, Py_bind, attr, raise.
  rewrite E. reflexivity.
Qed.

Lemma get_predictions_fitted (s : st KSGEnsembleFirstEstimator) (m : pydict Q) :
  _fitted (me s) = true ->
  mem s !! _mi_dict (me s) = Some (ODict m) ->
  get_predictions s
  = (Ok (length (mem s)), St (me s) (mem s ++ [ODict m])).
Proof.
  intros E Em.
  unfold get_predictions, dict_copy, dict_read, alloc, mbind, Py_bind, attr.
  rewrite E. cbn [negb me mem]. rewrite Em. reflexivity.
Qed.

Lemma get_predictions_raises_only_unfitted (s : st KSGEnsembleFirstEstimator) :
  fst (get_predictions s) = Raise EstimatorNotFittedException
  <-> _fitted (me s) = false.
Proof.
  split; [|intros E; rewrite get_predictions_unfitted by exact E; reflexivity].
  destruct (_fitted (me s)) eqn:E; [|reflexivity].
  unfold get_predictions, dict_copy, dict_read, alloc, mbind, Py_bind, attr.
  rewrite E. cbn [negb me mem].
  destruct (mem s !! _mi_dict (me s)) as [[a|m]|]; simpl; discriminate.
Qed.

Lemma estimate_raises (x y : loc) (s s1 : st KSGEnsembleFirstEstimator)
  (e : exn) :
  fit x y s = (Raise e, s1) -> estimate x y s = (Raise e, s1).
Proof. intros E. unfold estimate. apply bind_raise, E. Qed.

Lemma estimate_returns (x y : loc) (s s1 : st KSGEnsembleFirstEstimator)
  (m : pydict Q) :
  fit x y s = (Ok tt, s1) ->
  _fitted (me s1) = true ->
  mem s1 !! _mi_dict (me s1) = Some (ODict m) ->
  estimate x y s
  = (Ok (np_mean (dict_values m)), St (me s1) (mem s1 ++ [ODict m])).
Proof.
  intros E Ef Em. unfold estimate. rewrite (bind_ok _ _ _ _ _ E).
  rewrite (bind_ok _ _ _ _ _ (get_predictions_fitted s1 m Ef Em)).
  unfold mbind, Py_bind, dict_read. cbn [mem].
  rewrite lookup_app_r by lia.
  replace (length (mem s1) - length (mem s1))%nat with O by lia. reflexivity.
Qed.

(** A [fit] that returns leaves a fitted, well-formed instance holding the
    new mapping. *)
Lemma fit_returns_fitted (x y : loc) (s s1 : st KSGEnsembleFirstEstimator) :
  well_formed s -> fit x y s = (Ok tt, s1) ->
  exists a b,
    mem s !! x = Some (ONdarray a) /\
    (mem s ++ [ONdarray a]) !! y = Some (ONdarray b) /\
    me s1 = set_fitted true (me s) /\
    mem s1 !! _mi_dict (me s) = Some (ODict (fitted_mapping (me s) a b)) /\
    (length (mem s) <= length (mem s1))%nat /\
    forall l, l <> _mi_dict (me s) -> (l < length (mem s))%nat ->
              mem s1 !! l = mem s !! l.
Proof.
  intros Hwf E. destruct (fit_outcomes x y s Hwf)
    as [(e & more & E')|(a & b & kmax & Ex & Ey & _ & _ & _ & E')];
    rewrite E' in E; [discriminate|].
  injection E as <-. exists a, b. cbn [me mem].
  destruct Hwf as (_ & m & Em & _). pose proof (lookup_lt_Some _ _ _ Em) as Hd.
  repeat split; try assumption.
  - apply list_lookup_insert_eq. rewrite with_copies_length. lia.
  - rewrite length_insert, with_copies_length. lia.
  - intros l Hl Hlt. rewrite list_lookup_insert_ne by congruence.
    apply with_copies_lookup_lt, Hlt.
Qed.

Lemma fit_raises_unchanged (x y : loc) (s s1 : st KSGEnsembleFirstEstimator)
  (e : exn) :
  well_formed s -> fit x y s = (Raise e, s1) ->
  me s1 = me s /\ exists more, mem s1 = mem s ++ more.
Proof.
  intros Hwf E. destruct (fit_outcomes x y s Hwf)
    as [(e' & more & E')|(a & b & kmax & _ & _ & _ & _ & _ & E')];
    rewrite E' in E; [|discriminate].
  injection E as <- <-. split; [reflexivity|eauto].
Qed.

Lemma set_fitted_well_formed (s : st KSGEnsembleFirstEstimator) (h : heap)
  (m : pydict Q) :
  well_formed s ->
  h !! _mi_dict (me s) = Some (ODict m) ->
  dict_keys m = dict_keys (@dict_of_empty_lists Q (_neighborhoods (me s))) ->
  well_formed (St (set_fitted true (me s)) h).
Proof.
  intros (Hv & _) Em Hk. split; [exact Hv|]. exists m. split; assumption.
Qed.

Lemma same_me_well_formed (s : st KSGEnsembleFirstEstimator) (h : heap) :
  well_formed s ->
  h !! _mi_dict (me s) = mem s !! _mi_dict (me s) ->
  well_formed (St (me s) h).
Proof.
  intros (Hv & m & Em & Hm) E. split; [exact Hv|]. exists m.
  split; [cbn [me mem]; congruence | exact Hm].
Qed.

Lemma fit_well_formed (x y : loc) (s : st KSGEnsembleFirstEstimator) :
  well_formed s -> well_formed (snd (fit x y s)).
Proof.
  intros Hwf. destruct (fit x y s) as [[[]|e] s1] eqn:E; cbn [snd].
  - destruct (fit_returns_fitted x y s s1 Hwf E)
      as (a & b & _ & _ & Eme & Em & _).
    destruct s1 as [me1 mem1]. cbn [me mem] in *. subst me1.
    apply (set_fitted_well_formed s mem1 _ Hwf Em), fitted_mapping_keys.
  - destruct (fit_raises_unchanged x y s s1 e Hwf E) as (Eme & more & Emem).
    destruct s1 as [me1 mem1]. cbn [me mem] in *. subst.
    apply same_me_well_formed; [exact Hwf|]. destruct Hwf as (_ & m & Em & _).
    cbn [mem]. rewrite Em. apply lookup_app_l_Some, Em.
Qed.

(** *** What the methods keep from call to call *)

(** The configuration of an instance: the attributes that [__init__] sets
    from its arguments. *)
Definition same_config (e e' : KSGEnsembleFirstEstimator) : Prop :=
  _neighborhoods e' = _neighborhoods e /\
  _standardize e' = _standardize e /\
  _n_jobs e' = _n_jobs e /\
  _metric_x e' = _metric_x e /\
  _metric_y e' = _metric_y e.

Lemma same_config_refl (e : KSGEnsembleFirstEstimator) : same_config e e.
Proof. repeat split. Qed.

Lemma same_config_trans (e1 e2 e3 : KSGEnsembleFirstEstimator) :
  same_config e1 e2 -> same_config e2 e3 -> same_config e1 e3.
Proof.
  unfold same_config. intros (?&?&?&?&?) (?&?&?&?&?).
  repeat split; congruence.
Qed.

Lemma same_config_set_fitted (e : KSGEnsembleFirstEstimator) (f : bool) :
  same_config e (set_fitted f e).
Proof. repeat split. Qed.

(** The store only grows, and the instance keeps its configuration. *)
Definition grows (s s' : st KSGEnsembleFirstEstimator) : Prop :=
  same_config (me s) (me s') /\
  _mi_dict (me s') = _mi_dict (me s) /\
  (length (mem s) <= length (mem s'))%nat.

Lemma grows_refl (s : st KSGEnsembleFirstEstimator) : grows s s.
Proof. split; [apply same_config_refl | split; [reflexivity | lia]]. Qed.

Lemma grows_trans (s1 s2 s3 : st KSGEnsembleFirstEstimator) :
  grows s1 s2 -> grows s2 s3 -> grows s1 s3.
Proof.
  intros (C1 & D1 & L1) (C2 & D2 & L2).
  split; [exact (same_config_trans _ _ _ C1 C2) | split; [congruence | lia]].
Qed.

Lemma grows_same_me (s : st KSGEnsembleFirstEstimator) (h : heap) :
  (length (mem s) <= length h)%nat -> grows s (St (me s) h).
Proof.
  intros Hl. split; [apply same_config_refl | split; [reflexivity | exact Hl]].
Qed.

Lemma grows_set_fitted (s s' : st KSGEnsembleFirstEstimator) (f : bool) :
  me s' = set_fitted f (me s) -> (length (mem s) <= length (mem s'))%nat ->
  grows s s'.
Proof.
  intros Eme Hl. split; [rewrite Eme; apply same_config_set_fitted|].
  split; [rewrite Eme; reflexivity | exact Hl].
Qed.

Lemma fit_grows (x y : loc) (s : st KSGEnsembleFirstEstimator) :
  well_formed s -> grows s (snd (fit x y s)).
Proof.
  intros Hwf. destruct (fit x y s) as [[[]|e] s1] eqn:E; cbn [snd].
  - destruct (fit_returns_fitted x y s s1 Hwf E)
      as (a & b & _ & _ & Eme & _ & Hlen & _).
    exact (grows_set_fitted s s1 true Eme Hlen).
  - destruct (fit_raises_unchanged x y s s1 e Hwf E) as (Eme & more & Emem).
    destruct s1 as [me1 mem1]. cbn [me mem] in *. subst.
    apply grows_same_me. rewrite length_app. lia.
Qed.

(** Objects other than [_mi_dict] that were in the store before [fit] are
    the same after it. *)
Lemma fit_frame (x y : loc) (s : st KSGEnsembleFirstEstimator) (l : loc) :
  well_formed s -> l <> _mi_dict (me s) -> (l < length (mem s))%nat ->
  mem (snd (fit x y s)) !! l = mem s !! l.
Proof.
  intros Hwf Hl Hlt. destruct (fit x y s) as [[[]|e] s1] eqn:E; cbn [snd].
  - destruct (fit_returns_fitted x y s s1 Hwf E) as (a & b & _ & _ & _ & _ & _ & Hf).
    apply Hf; assumption.
  - destruct (fit_raises_unchanged x y s s1 e Hwf E) as (_ & more & ->).
    apply lookup_app_l, Hlt.
Qed.

Lemma get_predictions_state (s : st KSGEnsembleFirstEstimator) :
  well_formed s ->
  (_fitted (me s) = false /\
   get_predictions s = (Raise EstimatorNotFittedException, s)) \/
  (exists m, _fitted (me s) = true /\
             mem s !! _mi_dict (me s) = Some (ODict m) /\
             get_predictions s
             = (Ok (length (mem s)), St (me s) (mem s ++ [ODict m]))).
Proof.
  intros (_ & m & Em & _). destruct (_fitted (me s)) eqn:Ef.
  - right. exists m. repeat split; [exact Em|].
    apply get_predictions_fitted; assumption.
  - left. split; [reflexivity|]. apply get_predictions_unfitted, Ef.
Qed.

Lemma extend_well_formed (s : st KSGEnsembleFirstEstimator) (more : heap) :
  well_formed s -> well_formed (St (me s) (mem s ++ more)).
Proof.
  intros Hwf. apply same_me_well_formed; [exact Hwf|].
  destruct Hwf as (_ & m & Em & _). rewrite Em. apply lookup_app_l_Some, Em.
Qed.

(** [estimate] ends in the state of its [fit], with the copy that
    [get_predictions] makes added when the [fit] has returned. *)
Lemma estimate_state (x y : loc) (s : st KSGEnsembleFirstEstimator) :
  well_formed s ->
  exists more,
    snd (estimate x y s)
    = St (me (snd (fit x y s))) (mem (snd (fit x y s)) ++ more) /\
    is_ok (fst (estimate x y s)) = is_ok (fst (fit x y s)).
Proof.
  intros Hwf. pose proof (fit_well_formed x y s Hwf) as Hwf1.
  destruct (fit x y s) as [[[]|e] s1] eqn:E; cbn [snd fst] in *.
  - destruct (fit_returns_fitted x y s s1 Hwf E) as (a & b & _ & _ & Eme & Em & _).
    assert (Ef : _fitted (me s1) = true) by (rewrite Eme; reflexivity).
    assert (Em' : mem s1 !! _mi_dict (me s1)
                  = Some (ODict (fitted_mapping (me s) a b)))
      by (rewrite Eme; exact Em).
    rewrite (estimate_returns x y s s1 _ E Ef Em'). eexists. split; reflexivity.
  - rewrite (estimate_raises x y s s1 e E). exists []. rewrite app_nil_r.
    destruct s1; split; reflexivity.
Qed.

(** *** The caller's world *)

Definition world_ok (w : world) : Prop :=
  well_formed (instance w) /\
  Forall (fun l => (l < length (mem (instance w)))%nat /\
                   l <> _mi_dict (me (instance w)))
         (held w).

Lemma held_grows (s s' : st KSGEnsembleFirstEstimator) (ls : list loc) :
  grows s s' ->
  Forall (fun l => (l < length (mem s))%nat /\ l <> _mi_dict (me s)) ls ->
  Forall (fun l => (l < length (mem s'))%nat /\ l <> _mi_dict (me s')) ls.
Proof.
  intros (_ & Ed & Hlen) HF. rewrite Forall_forall in *.
  intros l Hin. destruct (HF l Hin) as [Hl Hne]. split; [lia | congruence].
Qed.

Lemma private_in_store (s : st KSGEnsembleFirstEstimator) :
  well_formed s -> (_mi_dict (me s) < length (mem s))%nat.
Proof. intros (_ & m & Em & _). exact (lookup_lt_Some _ _ _ Em). Qed.

Lemma step_ok (c : call) (w : world) :
  world_ok w ->
  world_ok (step c w) /\ grows (instance w) (instance (step c w)).
Proof.
  intros [Hwf Hheld]. pose proof (private_in_store _ Hwf) as Hd.
  destruct c as [x y| |x y|o|l o]; cbn [step].
  - pose proof (fit_grows x y _ Hwf) as Hg.
    split; [split|exact Hg]; cbn [instance held].
    + apply fit_well_formed, Hwf.
    + exact (held_grows _ _ _ Hg Hheld).
  - destruct (get_predictions_state _ Hwf) as [(_ & ->)|(m & _ & _ & ->)].
    + split; [split; assumption | apply grows_refl].
    + assert (Hg : grows (instance w)
                     (St (me (instance w)) (mem (instance w) ++ [ODict m]))).
      { apply grows_same_me. rewrite length_app. lia. }
      split; [|exact Hg]. split; cbn [instance held].
      * apply extend_well_formed, Hwf.
      * constructor; [|exact (held_grows _ _ _ Hg Hheld)].
        cbn [me mem]. rewrite length_app. simpl. lia.
  - destruct (estimate_state x y _ Hwf) as (more & -> & _).
    pose proof (fit_grows x y _ Hwf) as Hg.
    pose proof (fit_well_formed x y _ Hwf) as Hwf1.
    assert (Hg' : grows (instance w)
                    (St (me (snd (fit x y (instance w))))
                        (mem (snd (fit x y (instance w))) ++ more))).
    { destruct Hg as (Hc & Hd' & Hl). split; [exact Hc|]. cbn [me mem].
      split; [exact Hd'|]. rewrite length_app. lia. }
    split; [|exact Hg']. split; cbn [instance held].
    + apply extend_well_formed, Hwf1.
    + exact (held_grows _ _ _ Hg' Hheld).
  - assert (Hg : grows (instance w)
                   (St (me (instance w)) (mem (instance w) ++ [o]))).
    { apply grows_same_me. rewrite length_app. lia. }
    split; [|exact Hg]. split; cbn [instance held].
    + apply extend_well_formed, Hwf.
    + constructor; [|exact (held_grows _ _ _ Hg Hheld)].
      cbn [me mem]. rewrite length_app. simpl. lia.
  - destruct (bool_decide (l ∈ held w)) eqn:El;
      [|split; [split; assumption | apply grows_refl]].
    apply bool_decide_eq_true in El.
    rewrite Forall_forall in Hheld. destruct (Hheld l El) as [Hl Hne].
    assert (Hg : grows (instance w)
                   (St (me (instance w)) (<[l := o]> (mem (instance w))))).
    { apply grows_same_me. rewrite length_insert. lia. }
    split; [|exact Hg]. split; cbn [instance held].
    + apply same_me_well_formed; [exact Hwf|].
      apply list_lookup_insert_ne. exact Hne.
    + apply (held_grows _ _ _ Hg). apply Forall_forall. exact Hheld.
Qed.

Lemma run_ok (calls : list call) (w : world) :
  world_ok w ->
  world_ok (run calls w) /\ grows (instance w) (instance (run calls w)).
Proof.
  revert w. induction calls as [|c calls IH]; intros w Hw.
  - split; [exact Hw | apply grows_refl].
  - destruct (step_ok c w Hw) as [Hw1 Hg1].
    destruct (IH _ Hw1) as [Hw2 Hg2].
    split; [exact Hw2 | exact (grows_trans _ _ _ Hg1 Hg2)].
Qed.

Lemma init_well_formed (neighborhoods : list Z) (standardize : bool)
  (metric_x : _AllowedContinuousMetric)
  (metric_y : option _AllowedContinuousMetric) (n_jobs : Z) (h : heap)
  (s : st KSGEnsembleFirstEstimator) :
  __init__ neighborhoods standardize metric_x metric_y n_jobs h = Ok s ->
  well_formed s /\ _fitted (me s) = false /\
  _neighborhoods (me s) = neighborhoods /\
  _standardize (me s) = standardize /\
  _metric_x (me s) = metric_x /\
  _metric_y (me s) = match metric_y with Some m => m | None => metric_x end /\
  _mi_dict (me s) = length h /\ mem s = h ++ [ODict []].
Proof.
  unfold __init__. unfold mbind, result_bind, rbind.
  destruct (_cast_and_check_neighborhoods neighborhoods) as [checked|e] eqn:E;
    [|discriminate].
  destruct (cast_and_check_ok _ _ E) as (-> & _). intros Es.
  injection Es as <-. cbn [me mem]. repeat split; cbn [_neighborhoods]; try exact E.
  exists []. cbn [me mem _mi_dict _fitted]. split; [|reflexivity].
  rewrite lookup_app_r by lia.
  replace (length h - length h)%nat with O by lia. reflexivity.
Qed.

Lemma init_config (neighborhoods : list Z) (standardize : bool)
  (metric_x : _AllowedContinuousMetric)
  (metric_y : option _AllowedContinuousMetric) (n_jobs : Z) (h h' : heap)
  (s s' : st KSGEnsembleFirstEstimator) :
  __init__ neighborhoods standardize metric_x metric_y n_jobs h = Ok s ->
  __init__ neighborhoods standardize metric_x metric_y n_jobs h' = Ok s' ->
  same_config (me s) (me s').
Proof.
  unfold __init__. unfold mbind, result_bind, rbind.
  destruct (_cast_and_check_neighborhoods neighborhoods); [|discriminate].
  intros E E'. injection E as <-. injection E' as <-. repeat split.
Qed.

Lemma construct_ok (neighborhoods : list Z) (standardize : bool)
  (metric_x : _AllowedContinuousMetric)
  (metric_y : option _AllowedContinuousMetric) (n_jobs : Z) (h : heap)
  (w : world) :
  construct neighborhoods standardize metric_x metric_y n_jobs h = Ok w ->
  world_ok w /\ _fitted (me (instance w)) = false /\
  __init__ neighborhoods standardize metric_x metric_y n_jobs h
  = Ok (instance w).
Proof.
  unfold construct. unfold mbind at 1, result_bind at 1, rbind at 1.
  destruct (__init__ _ _ _ _ _ h) as [s|e] eqn:E; [|discriminate].
  intros Ew. injection Ew as <-. cbn [instance held].
  destruct (init_well_formed _ _ _ _ _ _ _ E) as (Hwf & Hf & _ & _ & _ & _ & Hd & Hm).
  split; [split|split]; cbn [instance held]; try assumption; [|reflexivity].
  apply Forall_forall. intros l Hl. apply list_elem_of_In, in_seq in Hl.
  rewrite Hm, Hd, length_app. simpl. lia.
Qed.

(** *** The flag [_fitted] along the calls *)

Lemma fit_fitted (x y : loc) (s : st KSGEnsembleFirstEstimator) :
  well_formed s ->
  _fitted (me (snd (fit x y s)))
  = _fitted (me s) || is_ok (fst (fit x y s)).
Proof.
  intros Hwf. destruct (fit x y s) as [[[]|e] s1] eqn:E; cbn [snd fst is_ok].
  - destruct (fit_returns_fitted x y s s1 Hwf E) as (a & b & _ & _ & -> & _).
    cbn [set_fitted _fitted]. rewrite orb_true_r. reflexivity.
  - destruct (fit_raises_unchanged x y s s1 e Hwf E) as (-> & _).
    rewrite orb_false_r. reflexivity.
Qed.

Lemma step_fitted (c : call) (w : world) :
  world_ok w ->
  _fitted (me (instance (step c w)))
  = _fitted (me (instance w))
    || match runs_fit c with
       | Some (x, y) => is_ok (fst (fit x y (instance w)))
       | None => false
       end.
Proof.
  intros [Hwf _]. destruct c as [x y| |x y|o|l o]; cbn [step runs_fit].
  - cbn [instance]. apply fit_fitted, Hwf.
  - rewrite orb_false_r.
    destruct (get_predictions_state _ Hwf) as [(_ & ->)|(m & _ & _ & ->)];
      reflexivity.
  - cbn [instance]. destruct (estimate_state x y _ Hwf) as (more & -> & _).
    cbn [me]. apply fit_fitted, Hwf.
  - rewrite orb_false_r. reflexivity.
  - rewrite orb_false_r. destruct (bool_decide (l ∈ held w)); reflexivity.
Qed.

Lemma run_fitted (calls : list call) (w : world) :
  world_ok w ->
  _fitted (me (instance (run calls w)))
  = _fitted (me (instance w)) || fit_has_succeeded calls w.
Proof.
  revert w. induction calls as [|c calls IH]; intros w Hw.
  - cbn [run fold_left fit_has_succeeded]. rewrite orb_false_r. reflexivity.
  - change (run (c :: calls) w) with (run calls (step c w)).
    rewrite IH by (apply step_ok, Hw). rewrite (step_fitted c w Hw).
    cbn [fit_has_succeeded]. rewrite orb_assoc. reflexivity.
Qed.

(** Calls that run no [fit] leave the instance's attributes and the items
    of [_mi_dict] as they are, whatever the caller overwrites. *)
Lemma step_keeps_mapping (c : call) (w : world) :
  world_ok w -> runs_fit c = None ->
  me (instance (step c w)) = me (instance w) /\
  mem (instance (step c w)) !! _mi_dict (me (instance w))
  = mem (instance w) !! _mi_dict (me (instance w)).
Proof.
  intros [Hwf Hheld] Hc. pose proof (private_in_store _ Hwf) as Hd.
  destruct c as [x y| |x y|o|l o]; cbn [runs_fit] in Hc; try discriminate;
    cbn [step].
  - destruct (get_predictions_state _ Hwf) as [(_ & ->)|(m & _ & _ & ->)];
      cbn [instance me mem]; split; try reflexivity.
    apply lookup_app_l, Hd.
  - cbn [instance me mem]. split; [reflexivity|]. apply lookup_app_l, Hd.
  - destruct (bool_decide (l ∈ held w)) eqn:El; [|split; reflexivity].
    apply bool_decide_eq_true in El. rewrite Forall_forall in Hheld.
    destruct (Hheld l El) as [_ Hne]. cbn [instance me mem].
    split; [reflexivity|]. apply list_lookup_insert_ne, Hne.
Qed.

Lemma run_keeps_mapping (calls : list call) (w : world) :
  world_ok w -> Forall (fun c => runs_fit c = None) calls ->
  me (instance (run calls w)) = me (instance w) /\
  mem (instance (run calls w)) !! _mi_dict (me (instance w))
  = mem (instance w) !! _mi_dict (me (instance w)).
Proof.
  intros Hw Hcalls. revert w Hw.
  induction Hcalls as [|c calls Hc _ IH]; intros w Hw; [split; reflexivity|].
  change (run (c :: calls) w) with (run calls (step c w)).
  destruct (step_keeps_mapping c w Hw Hc) as [Eme Emem].
  destruct (IH _ (proj1 (step_ok c w Hw))) as [Eme' Emem'].
  rewrite Eme in Eme', Emem'. split; congruence.
Qed.

(** Every state that a caller reaches from [__init__] is well formed. *)
Lemma reachable_well_formed (neighborhoods : list Z) (standardize : bool)
  (metric_x : _AllowedContinuousMetric)
  (metric_y : option _AllowedContinuousMetric) (n_jobs : Z) (h : heap)
  (w0 : world) (calls : list call) :
  construct neighborhoods standardize metric_x metric_y n_jobs h = Ok w0 ->
  well_formed (instance (run calls w0)).
Proof.
  intros Hc. destruct (construct_ok _ _ _ _ _ _ _ Hc) as (Hw0 & _).
  apply (run_ok calls w0 Hw0).
Qed.

(** *** The outcome of [fit] as a function of the configuration and of the
    two arrays *)

Definition fit_result (self : KSGEnsembleFirstEstimator) (a b : matrix)
  : result (pydict Q) :=
  if negb (length a =? length b)%nat
  then Raise (ValueError (Arrays_have_different_length (length a) (length b)))
  else match py_max (_neighborhoods self) with
       | Raise e => Raise e
       | Ok kmax =>
           if Z.of_nat (length a) <=? kmax
           then Raise (ValueError (Maximum_neighborhood_used kmax (length a)))
           else Ok (fitted_mapping self a b)
       end.

Lemma fit_result_config (e e' : KSGEnsembleFirstEstimator) (a b : matrix) :
  same_config e e' -> fit_result e' a b = fit_result e a b.
Proof.
  destruct e, e'. unfold same_config. cbn.
  intros (-> & -> & -> & -> & ->). reflexivity.
Qed.

Lemma fit_by_result (x y : loc) (a b : matrix)
  (s : st KSGEnsembleFirstEstimator) :
  well_formed s ->
  mem s !! x = Some (ONdarray a) ->
  (mem s ++ [ONdarray a]) !! y = Some (ONdarray b) ->
  match fit_result (me s) a b with
  | Ok m => exists s1, fit x y s = (Ok tt, s1) /\
                       _fitted (me s1) = true /\
                       mem s1 !! _mi_dict (me s1) = Some (ODict m)
  | Raise e => exists s1, fit x y s = (Raise e, s1)
  end.
Proof.
  intros Hwf Ex Ey. unfold fit_result.
  destruct (Nat.eqb_spec (length a) (length b)) as [Hlen|Hlen]; cbn [negb].
  2: { rewrite (fit_raises_mismatch x y a b s Ex Ey Hlen). eauto. }
  destruct (validated_max _ (proj1 Hwf)) as (kmax & Hmax & _). rewrite Hmax.
  destruct (Z.leb_spec (Z.of_nat (length a)) kmax) as [Hk|Hk].
  - rewrite (fit_raises_insufficient x y a b kmax s Ex Ey Hlen Hmax Hk). eauto.
  - rewrite (fit_returns x y a b kmax s Hwf Ex Ey Hlen Hmax Hk).
    eexists. split; [reflexivity|]. cbn [me mem set_fitted _fitted _mi_dict].
    split; [reflexivity|]. apply list_lookup_insert_eq.
    rewrite with_copies_length. pose proof (private_in_store s Hwf). lia.
Qed.




(** *** The estimate of the code and the estimate of the specification *)

Lemma dict_push_get_eq (k : Z) (v : Q) (d : pydict (list Q)) (l : list Q) :
  dict_get k d = Some l -> dict_get k (dict_push k v d) = Some (l ++ [v]).
Proof. intros E. unfold dict_push. rewrite E. apply dict_get_set_eq. Qed.

Lemma dict_push_get_ne (k k' : Z) (v : Q) (d : pydict (list Q)) :
  k <> k' -> dict_get k (dict_push k' v d) = dict_get k d.
Proof.
  intros Hne. unfold dict_push. destruct (dict_get k' d); [|reflexivity].
  apply dict_get_set_ne, Hne.
Qed.

Lemma fold_dict_push_get (f : Z -> Q) (ks : list Z) (d : pydict (list Q))
  (k : Z) (l : list Q) :
  dict_get k d = Some l ->
  dict_get k (fold_left (fun d k' => dict_push k' (f k') d) ks d)
  = Some (l ++ repeat (f k) (count_occ Z.eq_dec ks k)).
Proof.
  revert d l. induction ks as [|k' ks IH]; intros d l E.
  - simpl. rewrite app_nil_r. exact E.
  - cbn [fold_left count_occ]. destruct (Z.eq_dec k' k) as [->|Hne].
    + rewrite (IH _ (l ++ [f k])) by (apply dict_push_get_eq, E).
      rewrite <- app_assoc. reflexivity.
    + apply IH. rewrite dict_push_get_ne by congruence. exact E.
Qed.

Lemma fold_points_get (g : nat -> Z -> Q) (ks : list Z) (indices : list nat)
  (d : pydict (list Q)) (k : Z) (l : list Q) :
  dict_get k d = Some l ->
  dict_get k (fold_left
                (fun d i => fold_left (fun d k' => dict_push k' (g i k') d) ks d)
                indices d)
  = Some (l ++ flat_map (fun i => repeat (g i k) (count_occ Z.eq_dec ks k))
                        indices).
Proof.
  revert d l. induction indices as [|i indices IH]; intros d l E.
  - simpl. rewrite app_nil_r. exact E.
  - cbn [fold_left flat_map].
    rewrite (IH _ _ (fold_dict_push_get (g i) ks d k l E)).
    rewrite <- app_assoc. reflexivity.
Qed.

(** The list accumulated for [k]: for each point in turn, its term, as many
    times as [k] stands in the neighbourhoods. *)
Lemma accumulated_get (self : KSGEnsembleFirstEstimator) (x y : matrix)
  (k : Z) :
  In k (_neighborhoods self) ->
  dict_get k (accumulated self x y)
  = Some (flat_map
            (fun i => repeat (code_term self x y i k)
                             (count_occ Z.eq_dec (_neighborhoods self) k))
            (seq 0 (length x))).
Proof.
  intros Hin. unfold accumulated.
  rewrite (fold_points_get (code_term self x y) _ _ _ k [])
    by (apply dict_of_empty_lists_get, Hin).
  reflexivity.
Qed.

(** The joint distances from point [i] (line 97). *)
Definition joint_distances (self : KSGEnsembleFirstEstimator) (x y : matrix)
  (i : nat) : list Q :=
  zip_with max2 (map (metric_distance (_metric_x self) (nth i x [])) x)
                (map (metric_distance (_metric_y self) (nth i y [])) y).

(** Every point is at a positive joint distance from its k-th neighbour,
    for every configured [k]: no point has [k] other points at its own
    place. *)
Definition positive_radii (self : KSGEnsembleFirstEstimator) (x y : matrix)
  : Prop :=
  forall i k, (i < length x)%nat -> In k (_neighborhoods self) ->
              (0 < spec_radius (joint_distances self x y i) k)%Q.

Lemma self_distance_below (m : _AllowedContinuousMetric) (x : matrix)
  (i : nat) (bound : Q) :
  (i < length x)%nat -> (0 < bound)%Q ->
  Qlt_bool (nth i (map (metric_distance m (nth i x [])) x) 0%Q) bound = true.
Proof.
  intros Hi Hb.
  rewrite (nth_indep _ 0%Q (metric_distance m (nth i x []) []))
    by (rewrite length_map; exact Hi).
  rewrite map_nth. apply Qlt_bool_iff. rewrite metric_distance_self. exact Hb.
Qed.

Lemma code_term_spec (self : KSGEnsembleFirstEstimator) (x y : matrix)
  (i : nat) (k : Z) :
  length x = length y -> (i < length x)%nat ->
  (0 < spec_radius (joint_distances self x y i) k)%Q ->
  code_term self x y i k = spec_term self x y i k.
Proof.
  intros Hlen Hi Hr. unfold code_term, spec_term, digammas_per_point,
    pairwise_distances. cbv zeta. fold (joint_distances self x y i).
  rewrite (count_below_others _ i)
    by (try apply self_distance_below; try rewrite length_map; assumption).
  rewrite (count_below_others _ i)
    by (try apply self_distance_below; try rewrite length_map;
        try assumption; lia).
  reflexivity.
Qed.

Lemma self_distance_not_below (m : _AllowedContinuousMetric) (x : matrix)
  (i : nat) (bound : Q) :
  (i < length x)%nat -> (bound == 0)%Q ->
  Qlt_bool (nth i (map (metric_distance m (nth i x [])) x) 0%Q) bound = false.
Proof.
  intros Hi Hb.
  rewrite (nth_indep _ 0%Q (metric_distance m (nth i x []) []))
    by (rewrite length_map; exact Hi).
  rewrite map_nth. apply Qlt_bool_false_iff.
  rewrite metric_distance_self, Hb. apply Qle_refl.
Qed.

(** At a radius of 0 the point itself is not below the bound: the code
    takes digamma at the number of the other points below it, one less than
    the specification's [n + 1]. *)
Lemma code_term_at_zero_radius (self : KSGEnsembleFirstEstimator)
  (x y : matrix) (i : nat) (k : Z) :
  length x = length y -> (i < length x)%nat ->
  (spec_radius (joint_distances self x y i) k == 0)%Q ->
  let distances_x := map (metric_distance (_metric_x self) (nth i x [])) x in
  let distances_y := map (metric_distance (_metric_y self) (nth i y [])) y in
  let bound := spec_radius (joint_distances self x y i) k in
  code_term self x y i k
  = (_DIGAMMA (spec_count distances_x i bound - 1 + 1)
     + _DIGAMMA (spec_count distances_y i bound - 1 + 1))%Q.
Proof.
  intros Hlen Hi Hr. cbv zeta.
  unfold code_term, digammas_per_point, pairwise_distances. cbv zeta.
  fold (joint_distances self x y i).
  rewrite (count_below_self_excluded _ i)
    by (apply self_distance_not_below; assumption).
  rewrite (count_below_self_excluded _ i)
    by (apply self_distance_not_below; [lia | assumption]).
  reflexivity.
Qed.

(** On arrays of equal length, longer than the largest neighbourhood, and
    with positive radii, [fit] stores at every configured [k] the estimate
    that the specification words. *)
Lemma fit_estimates_by_specification (s : st KSGEnsembleFirstEstimator)
  (x y : loc) (a b : matrix) (kmax : Z) :
  well_formed s ->
  mem s !! x = Some (ONdarray a) -> mem s !! y = Some (ONdarray b) ->
  length a = length b ->
  py_max (_neighborhoods (me s)) = Ok kmax -> kmax < Z.of_nat (length a) ->
  positive_radii (me s) (prepared (_standardize (me s)) a)
                        (prepared (_standardize (me s)) b) ->
  exists s1 m,
    fit x y s = (Ok tt, s1) /\
    mem s1 !! _mi_dict (me s1) = Some (ODict m) /\
    forall k, In k (_neighborhoods (me s)) ->
      exists v, dict_get k m = Some v /\
                (v == spec_estimate (me s)
                        (prepared (_standardize (me s)) a)
                        (prepared (_standardize (me s)) b) k)%Q.
Proof.
  intros Hwf Ex Ey Hlen Hmax Hk Hpos.
  assert (Ey' : (mem s ++ [ONdarray a]) !! y = Some (ONdarray b))
    by (apply lookup_app_l_Some, Ey).
  rewrite (fit_returns x y a b kmax s Hwf Ex Ey' Hlen Hmax Hk).
  eexists _, (fitted_mapping (me s) a b). split; [reflexivity|]. split.
  { cbn [me mem set_fitted _mi_dict]. apply list_lookup_insert_eq.
    rewrite with_copies_length. pose proof (private_in_store s Hwf). lia. }
  intros k Hin. destruct (fitted_mapping_get (me s) a b k Hin) as (dg & Eacc & E).
  eexists. split; [exact E|].
  rewrite accumulated_get in Eacc by exact Hin. injection Eacc as <-.
  set (a' := prepared (_standardize (me s)) a) in *.
  set (b' := prepared (_standardize (me s)) b) in *.
  unfold spec_estimate, mi_estimate. apply max2_Qeq.
  rewrite np_mean_repeated.
  2: { apply (count_occ_In Z.eq_dec). exact Hin. }
  rewrite (map_ext_in (fun i => code_term (me s) a' b' i k)
                      (fun i => spec_term (me s) a' b' i k)).
  - reflexivity.
  - intros i Hi. apply in_seq in Hi. apply code_term_spec.
    + unfold a', b'. rewrite !prepared_length. exact Hlen.
    + lia.
    + apply Hpos; [lia | exact Hin].
Qed.

(** *** Points at the same place *)

Lemma Qle_bool_refl (z : Q) : Qle_bool z z = true.
Proof. apply Qle_bool_iff, Qle_refl. Qed.







(** ** Contracts of the validator and of the two estimators *)

(** C3: the validator raises [InvalidConfiguration] on an empty sequence and
    on a sequence with an element below 1; on every other sequence it
    returns the sequence itself, elements and order unchanged. *)
Theorem cast_and_check_neighborhoods_contract (neighborhoods : list Z) :
  (neighborhoods = [] ->
     exists e, _cast_and_check_neighborhoods neighborhoods = Raise e /\
               spec_error_of e = Some InvalidConfiguration) /\
  (Exists (fun k => k < 1) neighborhoods ->
     exists e, _cast_and_check_neighborhoods neighborhoods = Raise e /\
               spec_error_of e = Some InvalidConfiguration) /\
  (neighborhoods <> [] -> Forall (fun k => 1 <= k) neighborhoods ->
     _cast_and_check_neighborhoods neighborhoods = Ok neighborhoods).
Proof.
  split; [|split].
  - intros E. apply cast_and_check_invalid. now left.
  - intros E. apply cast_and_check_invalid. now right.
  - apply cast_and_check_valid.
Qed.




(** C10: the arrays passed to [fit], of either estimator, are in the store
    after the call, whether it returns or raises, with the elements they
    had before it; standardization overwrites the copies that [np.array]
    has made. *)
Theorem fit_keeps_input_arrays (x y : loc) (a b : matrix) :
  (forall s : st KSGEnsembleFirstEstimator,
     mem s !! x = Some (ONdarray a) -> mem s !! y = Some (ONdarray b) ->
     mem (snd (fit x y s)) !! x = Some (ONdarray a) /\
     mem (snd (fit x y s)) !! y = Some (ONdarray b)) /\
  (forall s : st KSGEnsembleChebyshevEstimator,
     mem s !! x = Some (ONdarray a) -> mem s !! y = Some (ONdarray b) ->
     mem (snd (cheb_fit x y s)) !! x = Some (ONdarray a) /\
     mem (snd (cheb_fit x y s)) !! y = Some (ONdarray b)).
Proof.
  split; intros s Ex Ey;
    assert (Ey' : (mem s ++ [ONdarray a]) !! y = Some (ONdarray b))
      by (apply lookup_app_l_Some, Ey).
  - assert (Hkeep : forall l c, mem s !! l = Some (ONdarray c) ->
                      mem (snd (fit x y s)) !! l = Some (ONdarray c)).
    { intros l c El. rewrite (fit_on_arrays x y a b s Ex Ey'). cbv zeta.
      destruct (negb (length a =? length b)%nat);
        [apply with_copies_old, El|].
      destruct (py_max _) as [kmax|e]; [|apply with_copies_old, El].
      destruct (Z.of_nat (length a) <=? kmax); [apply with_copies_old, El|].
      destruct (accumulate_digammas _ _ _) as [dd|e];
        [|apply with_copies_old, El].
      apply store_estimates_frame. cbn [mem]. apply with_copies_old, El. }
    split; apply Hkeep; assumption.
  - destruct (cheb_fit_store x y a b s Ex Ey') as (a' & b' & ->).
    split; apply with_copies_old; assumption.
Qed.

(** C5: [predict] of the Chebyshev estimator raises [NotImplementedError],
    the specification's [Unimplemented], when called without neighbourhoods
    and when called with a non-empty sequence of integers that are all at
    least 1, whatever the instance has been fitted on; hence [estimate]
    returns no value, and raises that error whenever its [fit] returns. *)
Theorem cheb_predict_unimplemented (s : st KSGEnsembleChebyshevEstimator) :
  fst (cheb_predict None s) = Raise NotImplementedError /\
  (forall given, given <> [] -> Forall (fun k => 1 <= k) given ->
     fst (cheb_predict (Some given) s) = Raise NotImplementedError) /\
  spec_error_of NotImplementedError = Some Unimplemented /\
  (forall x y,
     (forall v, fst (cheb_estimate x y s) <> Ok v) /\
     (is_ok (fst (cheb_fit x y s)) = true ->
      fst (cheb_estimate x y s) = Raise NotImplementedError)).
Proof.
  split; [reflexivity|]. split; [|split; [reflexivity|]].
  - intros given Hne Hall. unfold cheb_predict, mbind, Py_bind, lift, raise.
    rewrite (cast_and_check_valid given Hne Hall). reflexivity.
  - intros x y. unfold cheb_estimate, mbind, Py_bind.
    destruct (cheb_fit x y s) as [[[]|e] s1]; cbn [fst is_ok].
    + split; [discriminate | reflexivity].
    + split; [discriminate | discriminate].
Qed.

(** C4, as amended: on two arrays, [fit] of the Chebyshev estimator raises
    [MismatchedLengths] when their lengths differ, and it never raises
    [InsufficientSamples]: it does not compare the neighbourhoods with the
    number of points. *)
Theorem cheb_fit_checks_lengths_only (s : st KSGEnsembleChebyshevEstimator)
  (x y : loc) (a b : matrix) :
  mem s !! x = Some (ONdarray a) -> mem s !! y = Some (ONdarray b) ->
  (length a <> length b ->
     exists e, fst (cheb_fit x y s) = Raise e /\
               spec_error_of e = Some MismatchedLengths) /\
  (forall e, fst (cheb_fit x y s) = Raise e ->
             spec_error_of e <> Some InsufficientSamples).
Proof.
  intros Ex Ey.
  assert (Ey' : (mem s ++ [ONdarray a]) !! y = Some (ONdarray b))
    by (apply lookup_app_l_Some, Ey).
  rewrite (cheb_fit_on_arrays x y a b s Ex Ey'). cbv zeta. split.
  - intros Hne. destruct (Nat.eqb_spec (length a) (length b)); [contradiction|].
    eexists. split; reflexivity.
  - intros e. destruct (negb (length a =? length b)%nat); cbn [fst].
    { intros E. injection E as <-. discriminate. }
    unfold np_hstack.
    destruct (length (prepared _ a) =? length (prepared _ b))%nat; cbn [fst].
    + destruct (negb (bool_decide _)); cbn [fst]; intros E; [|discriminate].
      injection E as <-. discriminate.
    + intros E. injection E as <-. discriminate.
Qed.

(** C8: after any sequence of calls on a newly constructed instance,
    [get_predictions] raises [EstimatorNotFittedException] exactly when none
    of these calls ran [fit] to its normal return; when it returns, the
    dictionary it returns has the items of [_mi_dict] and is another object,
    so that whatever the caller stores in it, the next [get_predictions]
    returns the same items again; and so does [get_predictions] after any
    further calls that run no [fit], in which the caller overwrites the
    objects it holds, the returned dictionaries among them. *)
Theorem get_predictions_contract (neighborhoods : list Z) (standardize : bool)
  (metric_x : _AllowedContinuousMetric)
  (metric_y : option _AllowedContinuousMetric) (n_jobs : Z) (h : heap)
  (w0 : world) (calls : list call) :
  construct neighborhoods standardize metric_x metric_y n_jobs h = Ok w0 ->
  let w := run calls w0 in
  (fst (get_predictions (instance w)) = Raise EstimatorNotFittedException
   <-> fit_has_succeeded calls w0 = false) /\
  (forall d s1,
     get_predictions (instance w) = (Ok d, s1) ->
     exists m,
       mem (instance w) !! _mi_dict (me (instance w)) = Some (ODict m) /\
       mem s1 !! d = Some (ODict m) /\
       d <> _mi_dict (me s1) /\
       forall o,
         let s1' := St (me s1) (<[d := o]> (mem s1)) in
         mem s1' !! d = Some o /\
         exists d2 s2, get_predictions s1' = (Ok d2, s2) /\
                       mem s2 !! d2 = Some (ODict m)) /\
  (forall later d s1,
     Forall (fun c => runs_fit c = None) later ->
     get_predictions (instance w) = (Ok d, s1) ->
     exists d' s1',
       get_predictions (instance (run later w)) = (Ok d', s1') /\
       mem s1' !! d' = mem s1 !! d).
Proof.
  intros Hc w. destruct (construct_ok _ _ _ _ _ _ _ Hc) as (Hw0 & Hf0 & _).
  destruct (run_ok calls w0 Hw0) as [[Hwf Hheld] _]. fold w in Hwf, Hheld.
  assert (Hlast : forall (l : heap) (o : obj), (l ++ [o]) !! length l = Some o).
  { intros l o. rewrite lookup_app_r by lia.
    replace (length l - length l)%nat with O by lia. reflexivity. }
  split; [|split].
  - rewrite get_predictions_raises_only_unfitted. unfold w.
    rewrite (run_fitted calls w0 Hw0), Hf0. reflexivity.
  - intros d s1 E. pose proof (private_in_store _ Hwf) as Hd.
    destruct (get_predictions_state _ Hwf) as [(_ & E')|(m & Ef & Em & E')];
      rewrite E' in E; [discriminate|].
    injection E as <- <-. exists m. cbn [me mem].
    split; [exact Em|]. split; [apply Hlast|]. split; [lia|].
    intros o. cbv zeta. cbn [me mem]. split.
    + apply list_lookup_insert_eq. rewrite length_app. simpl. lia.
    + eexists _, _. split.
      * apply (get_predictions_fitted _ m); cbn [me mem]; [exact Ef|].
        rewrite list_lookup_insert_ne by lia. apply lookup_app_l_Some, Em.
      * cbn [mem]. rewrite lookup_app_r by lia.
        match goal with |- [_] !! ?i = _ => replace i with O by lia end.
        reflexivity.
  - intros later d s1 Hlater E.
    assert (Hw : world_ok w) by (split; assumption).
    destruct (run_keeps_mapping later w Hw Hlater) as [Eme Emem].
    destruct (run_ok later w Hw) as [[Hwf' _] _].
    destruct (get_predictions_state _ Hwf) as [(_ & E')|(m & Ef & Em & E')];
      rewrite E' in E; [discriminate|].
    injection E as <- <-. cbn [mem]. rewrite Hlast.
    destruct (get_predictions_state _ Hwf') as [(Ef' & _)|(m' & _ & Em' & E'')].
    { rewrite Eme in Ef'. congruence. }
    rewrite E''. eexists _, _. split; [reflexivity|]. cbn [mem].
    rewrite Hlast. rewrite Eme, Emem, Em in Em'. congruence.
Qed.



End Properties.

(** * Further properties of [ksg.py] *)

Section Further.
Context `{Numerics}.

(** ** The counts of lines 109-110 *)

(** [n_x] and [n_y] for the point [index] and the neighbourhood [k], on the
    arrays [x] and [y] the loop runs on. *)
Definition n_x_of (self : KSGEnsembleFirstEstimator) (x y : matrix)
  (index : nat) (k : Z) : Z :=
  count_below (pairwise_distances (nth index x []) x (_metric_x self))
              (spec_radius (joint_distances self x y index) k) - 1.

Definition n_y_of (self : KSGEnsembleFirstEstimator) (x y : matrix)
  (index : nat) (k : Z) : Z :=
  count_below (pairwise_distances (nth index y []) y (_metric_y self))
              (spec_radius (joint_distances self x y index) k) - 1.

Lemma code_term_counts (self : KSGEnsembleFirstEstimator) (x y : matrix)
  (index : nat) (k : Z) :
  code_term self x y index k
  = (_DIGAMMA (n_x_of self x y index k + 1)
     + _DIGAMMA (n_y_of self x y index k + 1))%Q.
Proof. reflexivity. Qed.

Lemma count_below_range (distances : list Q) (bound : Q) :
  0 <= count_below distances bound <= Z.of_nat (length distances).
Proof.
  unfold count_below.
  pose proof (length_filter (fun d => Qlt_bool d bound = true) distances). lia.
Qed.

(** X2: for a point of the arrays, [n_x] and [n_y] lie between -1 and
    [n - 1], so digamma is evaluated between 0 and [n]; they are -1 only
    when the radius is not positive, and they are at least 0, the point
    itself having been counted and taken off, when it is. *)
Theorem neighbour_counts_range (self : KSGEnsembleFirstEstimator)
  (x y : matrix) (index : nat) (k : Z) :
  length x = length y -> (index < length x)%nat ->
  let radius := spec_radius (joint_distances self x y index) k in
  -1 <= n_x_of self x y index k <= Z.of_nat (length x) - 1 /\
  -1 <= n_y_of self x y index k <= Z.of_nat (length x) - 1 /\
  ((0 < radius)%Q ->
     0 <= n_x_of self x y index k /\ 0 <= n_y_of self x y index k) /\
  ((radius == 0)%Q ->
     n_x_of self x y index k = spec_count
        (pairwise_distances (nth index x []) x (_metric_x self)) index radius - 1 /\
     n_y_of self x y index k = spec_count
        (pairwise_distances (nth index y []) y (_metric_y self)) index radius - 1).
Proof.
  intros Hlen Hi radius. unfold n_x_of, n_y_of, pairwise_distances.
  fold radius.
  pose proof (count_below_range
                (map (metric_distance (_metric_x self) (nth index x [])) x) radius) as Hx.
  pose proof (count_below_range
                (map (metric_distance (_metric_y self) (nth index y [])) y) radius) as Hy.
  rewrite length_map in Hx, Hy. rewrite <- Hlen in Hy.
  split; [lia|]. split; [lia|]. split.
  - intros Hr.
    rewrite (count_below_others _ index)
      by (try apply self_distance_below; try rewrite length_map; assumption).
    rewrite (count_below_others _ index)
      by (try apply self_distance_below; try rewrite length_map;
          try assumption; lia).
    unfold spec_count. lia.
  - intros Hr.
    rewrite (count_below_self_excluded _ index)
      by (apply self_distance_not_below; assumption).
    rewrite (count_below_self_excluded _ index)
      by (apply self_distance_not_below; [lia | assumption]).
    split; reflexivity.
Qed.

(** ** The estimate that [fit] stores, on every input *)





(** ** The distance to the k-th neighbour (lines 99-106) *)

(** Lines 99, 105 and 106 for one vector of joint distances. *)
Definition kth_distance (distances_z : list Q) (k : Z) : result Q :=
  closest_points ← sorted (seq 0 (length distances_z))
                          (fun i => getitem distances_z i);
  kth_neighbour ← list_getitem closest_points k;
  getitem distances_z kth_neighbour.

(** [(arr <= bound).sum()] *)
Definition count_at_most (arr : list Q) (bound : Q) : Z :=
  Z.of_nat (length (filter (fun d => Qle_bool d bound = true) arr)).

Inductive ascending : list (Q * nat) -> Prop :=
  | ascending_nil : ascending []
  | ascending_cons (p : Q * nat) (l : list (Q * nat)) :
      Forall (fun q => (fst p <= fst q)%Q) l -> ascending l ->
      ascending (p :: l).

Lemma insert_by_key_Forall (P : Q * nat -> Prop) (p : Q * nat)
  (l : list (Q * nat)) :
  P p -> Forall P l -> Forall P (insert_by_key p l).
Proof.
  intros Hp Hl. rewrite (insert_by_key_perm p l). constructor; assumption.
Qed.

Lemma insert_by_key_ascending (p : Q * nat) (l : list (Q * nat)) :
  ascending l -> ascending (insert_by_key p l).
Proof.
  induction 1 as [|q l Hq Hl IH]; cbn [insert_by_key].
  - repeat constructor.
  - destruct (Qle_bool (fst p) (fst q)) eqn:E.
    + apply Qle_bool_iff in E. constructor; [|constructor; assumption].
      constructor; [exact E|]. rewrite Forall_forall in *.
      intros r Hr. exact (Qle_trans _ _ _ E (Hq r Hr)).
    + constructor; [|exact IH]. apply insert_by_key_Forall; [|exact Hq].
      apply Qlt_le_weak, Qlt_bool_iff. unfold Qlt_bool. rewrite E. reflexivity.
Qed.

Lemma stable_sort_ascending (l : list (Q * nat)) : ascending (stable_sort l).
Proof.
  induction l as [|p l IH]; [constructor|].
  cbn [stable_sort fold_right]. apply insert_by_key_ascending, IH.
Qed.

(** In an ascending list, the element at rank [k] has [k] elements before
    it, none above it, and none after it is below it. *)
Lemma ascending_split (l : list (Q * nat)) (k : nat) (p : Q * nat) :
  ascending l -> l !! k = Some p ->
  exists before after,
    l = before ++ p :: after /\ length before = k /\
    Forall (fun q => (fst q <= fst p)%Q) before /\
    Forall (fun q => (fst p <= fst q)%Q) after.
Proof.
  intros Hl. revert k. induction Hl as [|q l Hq Hl IH]; intros k Ek;
    [discriminate|].
  destruct k as [|k].
  - injection Ek as <-. exists [], l. repeat split; [constructor | exact Hq].
  - cbn in Ek. destruct (IH k Ek) as (before & after & -> & Hlen & Hb & Ha).
    exists (q :: before), after. repeat split; [cbn; lia | | exact Ha].
    constructor; [|exact Hb]. rewrite Forall_forall in Hq. apply Hq.
    apply list_elem_of_In, in_or_app. right. now left.
Qed.

Lemma filter_none {A} (P : A -> Prop) `{!forall a, Decision (P a)}
  (l : list A) :
  Forall (fun a => ~ P a) l -> filter P l = [].
Proof.
  induction 1 as [|a l Ha _ IH]; [reflexivity|].
  rewrite filter_cons. destruct (decide (P a)); [contradiction|exact IH].
Qed.

Lemma filter_all {A} (P : A -> Prop) `{!forall a, Decision (P a)}
  (l : list A) :
  Forall P l -> filter P l = l.
Proof.
  induction 1 as [|a l Ha _ IH]; [reflexivity|].
  rewrite filter_cons. destruct (decide (P a)); [|contradiction].
  rewrite IH. reflexivity.
Qed.

Lemma ascending_rank (l : list (Q * nat)) (k : nat) (p : Q * nat) :
  ascending l -> l !! k = Some p ->
  (length (filter (fun q => Qlt_bool (fst q) (fst p) = true) l) <= k)%nat /\
  (k + 1 <= length (filter (fun q => Qle_bool (fst q) (fst p) = true) l))%nat.
Proof.
  intros Hl Ek.
  destruct (ascending_split l k p Hl Ek) as (before & after & -> & Hlen & Hb & Ha).
  split.
  - rewrite filter_app.
    rewrite (filter_none _ (p :: after)).
    + rewrite app_nil_r, <- Hlen. apply length_filter.
    + assert (Hpa : Forall (fun q => (fst p <= fst q)%Q) (p :: after))
        by (constructor; [apply Qle_refl | exact Ha]).
      rewrite Forall_forall in *. intros q Hq E.
      apply Qlt_bool_iff in E. exact (Qlt_not_le _ _ E (Hpa q Hq)).
  - rewrite filter_app, filter_cons.
    destruct (decide (Qle_bool (fst p) (fst p) = true)) as [_|Hn];
      [|exfalso; apply Hn, Qle_bool_refl].
    rewrite (filter_all _ before).
    + rewrite length_app. cbn [length]. lia.
    + rewrite Forall_forall in *. intros q Hq. apply Qle_bool_iff, Hb, Hq.
Qed.

Lemma filter_fst_combine (f : Q -> bool) (keys : list Q) (indices : list nat) :
  length keys = length indices ->
  length (filter (fun p : Q * nat => f (fst p) = true) (combine keys indices))
  = length (filter (fun q => f q = true) keys).
Proof.
  revert indices. induction keys as [|q keys IH]; intros [|i indices] Hlen;
    try discriminate; [reflexivity|].
  cbn [combine]. rewrite !filter_cons. cbn [fst].
  injection Hlen as Hlen. destruct (decide (f q = true)); cbn [length];
    rewrite (IH indices Hlen); reflexivity.
Qed.

Lemma filter_fst_sorted (f : Q -> bool) (keys : list Q) :
  length (filter (fun p : Q * nat => f (fst p) = true)
                 (stable_sort (combine keys (seq 0 (length keys)))))
  = length (filter (fun q => f q = true) keys).
Proof.
  rewrite <- (filter_fst_combine f keys (seq 0 (length keys)))
    by (rewrite length_seq; reflexivity).
  apply Permutation_length, filter_Permutation, stable_sort_perm.
Qed.

Lemma combine_seq_keys (pre keys : list Q) :
  Forall (fun p : Q * nat => nth (snd p) (pre ++ keys) 0%Q = fst p)
         (combine keys (seq (length pre) (length keys))).
Proof.
  revert pre. induction keys as [|q keys IH]; intros pre; [constructor|].
  cbn [length seq combine]. constructor.
  - cbn [fst snd]. rewrite app_nth2 by lia.
    replace (length pre - length pre)%nat with O by lia. reflexivity.
  - specialize (IH (pre ++ [q])). rewrite <- app_assoc, length_app in IH.
    cbn [app length] in IH.
    replace (length pre + 1)%nat with (S (length pre)) in IH by lia. exact IH.
Qed.

(** The pair at rank [k] of the sorted pairs carries the radius. *)
Lemma spec_radius_rank (distances_z : list Q) (k : nat) :
  (k < length distances_z)%nat ->
  exists p,
    stable_sort (combine distances_z (seq 0 (length distances_z))) !! k = Some p /\
    spec_radius distances_z (Z.of_nat k) = fst p.
Proof.
  intros Hk.
  set (pairs := stable_sort (combine distances_z (seq 0 (length distances_z)))).
  assert (Hlen : length pairs = length distances_z).
  { unfold pairs. rewrite (Permutation_length (stable_sort_perm _)).
    rewrite length_combine, length_seq. lia. }
  destruct (lookup_lt_is_Some_2 pairs k) as [p Ep]; [lia|].
  exists p. split; [exact Ep|].
  assert (Hp : nth (snd p) distances_z 0%Q = fst p).
  { pose proof (combine_seq_keys [] distances_z) as Hall. cbn [app length] in Hall.
    rewrite <- (stable_sort_perm _) in Hall. fold pairs in Hall.
    rewrite Forall_forall in Hall. apply Hall.
    exact (list_elem_of_lookup_2 _ _ _ Ep). }
  unfold spec_radius, spec_ordering. fold pairs. rewrite Nat2Z.id.
  rewrite (nth_indep _ O (snd (0%Q, O))) by (rewrite length_map; lia).
  rewrite (map_nth snd pairs (0%Q, O)), (nth_lookup_Some _ _ _ _ Ep). exact Hp.
Qed.

(** X3: for a rank [k] within the vector, lines 99-106 return a joint
    distance of the vector that has at most [k] entries strictly below it
    and at least [k + 1] entries at most equal to it: the [(k+1)]-th
    smallest, however ties are ordered; for [k] beyond the vector
    [closest_points[k]] raises [IndexError]. *)
Theorem kth_distance_order_statistic (distances_z : list Q) (k : Z) :
  (0 <= k < Z.of_nat (length distances_z) ->
   exists distance,
     kth_distance distances_z k = Ok distance /\
     In distance distances_z /\
     count_below distances_z distance <= k /\
     k + 1 <= count_at_most distances_z distance) /\
  (Z.of_nat (length distances_z) <= k ->
   kth_distance distances_z k = Raise IndexError).
Proof.
  unfold kth_distance. rewrite sorted_indices.
  unfold mbind at 1, result_bind at 1, rbind at 1. split.
  - intros Hk.
    rewrite (list_getitem_in_range _ k O)
      by (rewrite spec_ordering_length; exact Hk).
    unfold mbind, result_bind, rbind.
    assert (Hj : (nth (Z.to_nat k) (spec_ordering distances_z) O
                  < length distances_z)%nat).
    { destruct (nth_lookup_or_length (spec_ordering distances_z) (Z.to_nat k) O)
        as [E|E].
      - exact (spec_ordering_bound _ _ _ E).
      - rewrite spec_ordering_length in E. lia. }
    rewrite (getitem_in_range _ _ 0%Q Hj).
    fold (spec_radius distances_z k). eexists. split; [reflexivity|].
    split; [apply nth_In, Hj|].
    destruct (spec_radius_rank distances_z (Z.to_nat k) ltac:(lia)) as (p & Ep & Er).
    rewrite Z2Nat.id in Er by lia. rewrite Er.
    destruct (ascending_rank _ _ _ (stable_sort_ascending _) Ep) as [Hlt Hle].
    pose proof (filter_fst_sorted (fun q => Qlt_bool q (fst p)) distances_z)
      as Elt.
    pose proof (filter_fst_sorted (fun q => Qle_bool q (fst p)) distances_z)
      as Ele.
    cbv beta in Elt, Ele. unfold count_below, count_at_most. lia.
  - intros Hk. unfold list_getitem. cbv zeta.
    destruct (Z.ltb_spec k 0) as [?|_]; [lia|].
    destruct (Z.ltb_spec k 0) as [?|_]; [lia|].
    unfold mbind, result_bind, rbind.
    rewrite lookup_ge_None_2; [reflexivity|].
    rewrite spec_ordering_length. lia.
Qed.

(** ** Each neighbourhood on its own *)



(** ** The keys of the fitted mapping *)

Lemma dict_of_empty_lists_keys_NoDup {V} (keys : list Z) (d : pydict (list V)) :
  List.NoDup (dict_keys d ++ keys) ->
  dict_keys (fold_left (fun d k => dict_set k [] d) keys d)
  = dict_keys d ++ keys.
Proof.
  revert d. induction keys as [|k keys IH]; intros d Hnd.
  - cbn. rewrite app_nil_r. reflexivity.
  - cbn [fold_left].
    assert (Hk : ~ In k (dict_keys d)).
    { intros Hin. apply NoDup_remove_2 in Hnd. apply Hnd, in_or_app. now left. }
    rewrite IH; rewrite dict_keys_set_absent by exact Hk;
      rewrite <- app_assoc; [reflexivity | exact Hnd].
Qed.

(** X5: the mapping that [fit] leaves, and that [get_predictions] then
    returns, has each configured neighbourhood as a key, once, and no other
    key; when the configured neighbourhoods are distinct its keys are
    these, in the configured order. *)
Theorem fitted_keys (s s1 : st KSGEnsembleFirstEstimator) (x y : loc) :
  well_formed s -> fit x y s = (Ok tt, s1) ->
  exists d s2 m,
    get_predictions s1 = (Ok d, s2) /\
    mem s2 !! d = Some (ODict m) /\
    mem s1 !! _mi_dict (me s1) = Some (ODict m) /\
    List.NoDup (dict_keys m) /\
    (forall k, In k (dict_keys m) <-> In k (_neighborhoods (me s))) /\
    (List.NoDup (_neighborhoods (me s)) ->
     dict_keys m = _neighborhoods (me s)).
Proof.
  intros Hwf E.
  destruct (fit_returns_fitted x y s s1 Hwf E) as (a & b & _ & _ & Eme & Em & _).
  assert (Ef : _fitted (me s1) = true) by (rewrite Eme; reflexivity).
  assert (Em' : mem s1 !! _mi_dict (me s1)
                = Some (ODict (fitted_mapping (me s) a b)))
    by (rewrite Eme; exact Em).
  exists (length (mem s1)), (St (me s1) (mem s1 ++ [ODict (fitted_mapping (me s) a b)])),
         (fitted_mapping (me s) a b).
  split; [apply get_predictions_fitted; assumption|].
  split.
  { cbn [mem]. rewrite lookup_app_r by lia.
    replace (length (mem s1) - length (mem s1))%nat with O by lia. reflexivity. }
  split; [exact Em'|]. rewrite fitted_mapping_keys. split; [|split].
  - apply dict_of_empty_lists_NoDup.
  - intros k. apply dict_of_empty_lists_keys.
  - intros Hnd. unfold dict_of_empty_lists.
    rewrite dict_of_empty_lists_keys_NoDup by exact Hnd. reflexivity.
Qed.

(** ** [fit] after [fit] *)

Lemma fit_result_of_return (x y : loc) (a b : matrix)
  (s s1 : st KSGEnsembleFirstEstimator) :
  well_formed s ->
  mem s !! x = Some (ONdarray a) ->
  (mem s ++ [ONdarray a]) !! y = Some (ONdarray b) ->
  fit x y s = (Ok tt, s1) ->
  fit_result (me s) a b = Ok (fitted_mapping (me s) a b).
Proof.
  intros Hwf Ex Ey E. pose proof (fit_by_result x y a b s Hwf Ex Ey) as Hr.
  unfold fit_result in *.
  destruct (negb (length a =? length b)%nat).
  { destruct Hr as (? & Hr). congruence. }
  destruct (py_max _) as [kmax|e]; [|destruct Hr as (? & Hr); congruence].
  destruct (Z.of_nat (length a) <=? kmax); [|reflexivity].
  destruct Hr as (? & Hr). congruence.
Qed.

(** X6: in any state that a caller has reached, a [fit] on arrays it holds
    that returns leaves in [_mi_dict] the mapping that a new instance with
    the same arguments gets from the same arrays, whatever was fitted
    before; the arrays are as before, and a second [fit] on them returns
    and leaves the same mapping again. *)
Theorem fit_replaces_mapping (neighborhoods : list Z) (standardize : bool)
  (metric_x : _AllowedContinuousMetric)
  (metric_y : option _AllowedContinuousMetric) (n_jobs : Z) (h : heap)
  (w0 : world) (calls : list call) (x y : loc)
  (s1 : st KSGEnsembleFirstEstimator) :
  construct neighborhoods standardize metric_x metric_y n_jobs h = Ok w0 ->
  let w := run calls w0 in
  x ∈ held w -> y ∈ held w ->
  fit x y (instance w) = (Ok tt, s1) ->
  exists m,
    mem s1 !! _mi_dict (me s1) = Some (ODict m) /\
    mem s1 !! x = mem (instance w) !! x /\
    mem s1 !! y = mem (instance w) !! y /\
    (exists s2, fit x y s1 = (Ok tt, s2) /\
                mem s2 !! _mi_dict (me s2) = Some (ODict m)) /\
    (forall s_new,
       __init__ neighborhoods standardize metric_x metric_y n_jobs
                (mem (instance w)) = Ok s_new ->
       exists s_new1,
         fit x y s_new = (Ok tt, s_new1) /\
         mem s_new1 !! _mi_dict (me s_new1) = Some (ODict m)).
Proof.
  intros Hc w Hx Hy E. destruct (construct_ok _ _ _ _ _ _ _ Hc) as (Hw0 & _ & Hi0).
  destruct (run_ok calls w0 Hw0) as [[Hwf Hheld] (Hcfg & _)].
  fold w in Hwf, Hheld, Hcfg. rewrite Forall_forall in Hheld.
  destruct (Hheld x Hx) as [Hxl Hxp]. destruct (Hheld y Hy) as [Hyl Hyp].
  destruct (fit_returns_fitted x y _ s1 Hwf E)
    as (a & b & Ex & Ey & Eme & Em & Hlen & Hframe).
  assert (Ey0 : mem (instance w) !! y = Some (ONdarray b))
    by (rewrite lookup_app_l in Ey by exact Hyl; exact Ey).
  pose proof (fit_result_of_return x y a b _ s1 Hwf Ex Ey E) as Er.
  exists (fitted_mapping (me (instance w)) a b).
  assert (Ed1 : _mi_dict (me s1) = _mi_dict (me (instance w)))
    by (rewrite Eme; reflexivity).
  split; [rewrite Ed1; exact Em|].
  split; [apply Hframe; assumption|]. split; [apply Hframe; assumption|].
  split.
  - pose proof (fit_well_formed x y _ Hwf) as Hwf1. rewrite E in Hwf1.
    cbn [snd] in Hwf1.
    assert (Ex1 : mem s1 !! x = Some (ONdarray a))
      by (rewrite Hframe by assumption; exact Ex).
    assert (Ey1 : (mem s1 ++ [ONdarray a]) !! y = Some (ONdarray b)).
    { apply lookup_app_l_Some. rewrite Hframe by assumption. exact Ey0. }
    pose proof (fit_by_result x y a b s1 Hwf1 Ex1 Ey1) as Hr.
    rewrite (fit_result_config (me (instance w)) (me s1) a b) in Hr
      by (rewrite Eme; apply same_config_set_fitted).
    rewrite Er in Hr. destruct Hr as (s2 & E2 & _ & Em2). eauto.
  - intros s_new Hnew.
    destruct (init_well_formed _ _ _ _ _ _ _ Hnew)
      as (Hwfn & _ & _ & _ & _ & _ & _ & Ememn).
    assert (Hsame : same_config (me (instance w)) (me s_new)).
    { apply (same_config_trans _ (me (instance w0))).
      - destruct Hcfg as (H1 & H2 & H3 & H4 & H5). repeat split; congruence.
      - exact (init_config _ _ _ _ _ _ _ _ _ Hi0 Hnew). }
    assert (Exn : mem s_new !! x = Some (ONdarray a))
      by (rewrite Ememn; apply lookup_app_l_Some, Ex).
    assert (Eyn : (mem s_new ++ [ONdarray a]) !! y = Some (ONdarray b)).
    { rewrite Ememn. do 2 apply lookup_app_l_Some. exact Ey0. }
    pose proof (fit_by_result x y a b s_new Hwfn Exn Eyn) as Hr.
    rewrite (fit_result_config _ _ a b Hsame), Er in Hr.
    destruct Hr as (sn1 & En1 & _ & Emn1). eauto.
Qed.

(** ** What the methods leave alone *)

(** The calls that a caller can make without overwriting the object at [l]. *)
Definition spares (l : loc) (c : call) : Prop :=
  match c with
  | Caller_overwrites l' _ => l' <> l
  | _ => True
  end.

Lemma step_frame (c : call) (w : world) (l : loc) :
  world_ok w -> (l < length (mem (instance w)))%nat ->
  l <> _mi_dict (me (instance w)) -> spares l c ->
  mem (instance (step c w)) !! l = mem (instance w) !! l.
Proof.
  intros [Hwf Hheld] Hl Hne Hc. destruct c as [x y| |x y|o|l' o]; cbn [step].
  - cbn [instance]. apply fit_frame; assumption.
  - destruct (get_predictions_state _ Hwf) as [(_ & ->)|(m & _ & _ & ->)];
      cbn [instance mem]; [reflexivity|]. apply lookup_app_l, Hl.
  - cbn [instance]. destruct (estimate_state x y _ Hwf) as (more & -> & _).
    cbn [mem]. pose proof (fit_grows x y _ Hwf) as (_ & _ & Hg).
    rewrite lookup_app_l by lia. apply fit_frame; assumption.
  - cbn [instance mem]. apply lookup_app_l, Hl.
  - destruct (bool_decide (l' ∈ held w)); [|reflexivity].
    cbn [instance mem]. apply list_lookup_insert_ne. exact Hc.
Qed.

Lemma run_frame (calls : list call) (w : world) (l : loc) :
  world_ok w -> (l < length (mem (instance w)))%nat ->
  l <> _mi_dict (me (instance w)) -> Forall (spares l) calls ->
  mem (instance (run calls w)) !! l = mem (instance w) !! l.
Proof.
  intros Hw Hl Hne Hcalls. revert w Hw Hl Hne.
  induction Hcalls as [|c calls Hc _ IH]; intros w Hw Hl Hne; [reflexivity|].
  change (run (c :: calls) w) with (run calls (step c w)).
  destruct (step_ok c w Hw) as [Hw1 (_ & Ed & Hlen)].
  rewrite IH; [apply step_frame; assumption | exact Hw1 | lia | congruence].
Qed.

(** X7: a dictionary that [get_predictions] has returned is a snapshot: no
    later [fit], [estimate] or [get_predictions], on whatever arguments,
    changes it; it changes only when the caller overwrites it. *)
Theorem predictions_are_snapshots (neighborhoods : list Z) (standardize : bool)
  (metric_x : _AllowedContinuousMetric)
  (metric_y : option _AllowedContinuousMetric) (n_jobs : Z) (h : heap)
  (w0 : world) (calls later : list call) (d : loc)
  (s1 : st KSGEnsembleFirstEstimator) :
  construct neighborhoods standardize metric_x metric_y n_jobs h = Ok w0 ->
  let w := run calls w0 in
  get_predictions (instance w) = (Ok d, s1) ->
  Forall (spares d) later ->
  step Call_get_predictions w = World s1 (d :: held w) /\
  mem (instance (run later (step Call_get_predictions w))) !! d = mem s1 !! d.
Proof.
  intros Hc w E Hlater. destruct (construct_ok _ _ _ _ _ _ _ Hc) as (Hw0 & _).
  destruct (run_ok calls w0 Hw0) as [Hw _]. fold w in Hw.
  assert (Es : step Call_get_predictions w = World s1 (d :: held w))
    by (cbn [step]; rewrite E; reflexivity).
  split; [exact Es|].
  destruct (step_ok Call_get_predictions w Hw) as [Hw1 _].
  rewrite Es in Hw1 |- *.
  destruct (get_predictions_state _ (proj1 Hw)) as [(_ & E')|(m & _ & _ & E')];
    rewrite E' in E; [discriminate|].
  injection E as <- <-.
  pose proof (private_in_store _ (proj1 Hw)) as Hd.
  apply run_frame; cbn [instance me mem]; try assumption.
  - rewrite length_app. simpl. lia.
  - lia.
Qed.

(** X11: two instances constructed one after the other have two
    dictionaries: whatever the second is fitted on, the first instance's
    [_mi_dict] stays empty and its [get_predictions] still raises
    [EstimatorNotFittedException]. *)
Theorem instances_do_not_share (neighborhoods neighborhoods' : list Z)
  (standardize standardize' : bool)
  (metric_x metric_x' : _AllowedContinuousMetric)
  (metric_y metric_y' : option _AllowedContinuousMetric) (n_jobs n_jobs' : Z)
  (h : heap) (first second : st KSGEnsembleFirstEstimator) (x y : loc) :
  __init__ neighborhoods standardize metric_x metric_y n_jobs h = Ok first ->
  __init__ neighborhoods' standardize' metric_x' metric_y' n_jobs' (mem first)
    = Ok second ->
  let after := mem (snd (fit x y second)) in
  _mi_dict (me second) <> _mi_dict (me first) /\
  after !! _mi_dict (me first) = Some (ODict []) /\
  fst (get_predictions (St (me first) after))
  = Raise EstimatorNotFittedException.
Proof.
  intros E1 E2 after.
  destruct (init_well_formed _ _ _ _ _ _ _ E1)
    as (Hwf1 & Hf1 & _ & _ & _ & _ & Hd1 & Hm1).
  destruct (init_well_formed _ _ _ _ _ _ _ E2)
    as (Hwf2 & _ & _ & _ & _ & _ & Hd2 & Hm2).
  pose proof (private_in_store _ Hwf1) as Hp1.
  assert (Hne : _mi_dict (me second) <> _mi_dict (me first)) by lia.
  split; [exact Hne|]. split.
  - unfold after. rewrite fit_frame; [| exact Hwf2 | congruence |].
    + rewrite Hm2. apply lookup_app_l_Some. rewrite Hm1, Hd1.
      rewrite lookup_app_r by lia.
      replace (length h - length h)%nat with O by lia. reflexivity.
    + rewrite Hm2, length_app. lia.
  - apply get_predictions_raises_only_unfitted. exact Hf1.
Qed.

(** ** [estimate] *)

Lemma Qsum_nonneg (l : list Q) :
  Forall (fun v => 0 <= v)%Q l -> (0 <= Qsum l)%Q.
Proof.
  induction 1 as [|v l Hv _ IH]; [unfold Qsum; simpl; apply Qle_refl|].
  rewrite Qsum_cons.
  replace 0%Q with (0 + 0)%Q by reflexivity. apply Qplus_le_compat; assumption.
Qed.

Lemma np_mean_nonneg (l : list Q) :
  Forall (fun v => 0 <= v)%Q l -> (0 <= np_mean l)%Q.
Proof.
  intros Hl. unfold np_mean.
  destruct l as [|v l]; [unfold Qsum, Qdiv; simpl; apply Qle_refl|].
  apply Qle_shift_div_l.
  - unfold Qlt, inject_Z. cbn [Qnum Qden length]. lia.
  - rewrite Qmult_0_l. apply Qsum_nonneg, Hl.
Qed.

Lemma fitted_mapping_values_nonneg (self : KSGEnsembleFirstEstimator)
  (a b : matrix) :
  Forall (fun v => 0 <= v)%Q (dict_values (fitted_mapping self a b)).
Proof.
  unfold fitted_mapping, dict_values. cbv zeta. rewrite map_map.
  apply Forall_forall. intros v Hv. apply list_elem_of_In, in_map_iff in Hv.
  destruct Hv as (entry & <- & _). apply max2_nonneg.
Qed.

(** X8: [estimate] raises exactly the exception that its [fit] raises;
    when it returns, its value is at least 0, the instance is fitted, and
    [get_predictions] then returns a mapping whose values have that value
    as their mean. *)
Theorem estimate_contract (s : st KSGEnsembleFirstEstimator) (x y : loc) :
  well_formed s ->
  (forall e, fst (estimate x y s) = Raise e <-> fst (fit x y s) = Raise e) /\
  (forall v s2, estimate x y s = (Ok v, s2) ->
     (0 <= v)%Q /\ _fitted (me s2) = true /\
     exists d s3 m, get_predictions s2 = (Ok d, s3) /\
                    mem s3 !! d = Some (ODict m) /\
                    v = np_mean (dict_values m)).
Proof.
  intros Hwf. destruct (fit x y s) as [[[]|e0] s1] eqn:E.
  - destruct (fit_returns_fitted x y s s1 Hwf E) as (a & b & _ & _ & Eme & Em & _).
    assert (Ef : _fitted (me s1) = true) by (rewrite Eme; reflexivity).
    assert (Em' : mem s1 !! _mi_dict (me s1)
                  = Some (ODict (fitted_mapping (me s) a b)))
      by (rewrite Eme; exact Em).
    rewrite (estimate_returns x y s s1 _ E Ef Em'). cbn [fst]. split.
    + intros e. split; discriminate.
    + intros v s2 Ev. injection Ev as <- <-. cbn [me mem].
      split; [apply np_mean_nonneg, fitted_mapping_values_nonneg|].
      split; [exact Ef|].
      eexists _, _, (fitted_mapping (me s) a b).
      split; [|split; [|reflexivity]].
      * apply (get_predictions_fitted _ (fitted_mapping (me s) a b));
          cbn [me mem]; [exact Ef|]. apply lookup_app_l_Some, Em'.
      * cbn [mem]. rewrite lookup_app_r by lia.
        match goal with |- [_] !! ?i = _ => replace i with O by lia end.
        reflexivity.
  - rewrite (estimate_raises x y s s1 e0 E). cbn [fst]. split.
    + intros e. split; intros Ee; injection Ee as <-; reflexivity.
    + intros v s2 Ev. discriminate.
Qed.

(** ** The Chebyshev estimator *)



(** X10: [predict] of the Chebyshev estimator validates neighbourhoods given
    to it before anything else: on an empty sequence, or one with an
    element below 1, it raises the validator's [ValueError]
    ([InvalidConfiguration]) and not [NotImplementedError]; and no call of
    [predict] changes the instance or the store. *)
Theorem cheb_predict_validates_first (s : st KSGEnsembleChebyshevEstimator) :
  (forall given, given = [] \/ Exists (fun k => k < 1) given ->
     exists e, fst (cheb_predict (Some given) s) = Raise e /\
               spec_error_of e = Some InvalidConfiguration /\
               e <> NotImplementedError) /\
  (forall neighborhoods, snd (cheb_predict neighborhoods s) = s).
Proof.
  split.
  - intros given Hbad.
    destruct (cast_and_check_invalid given Hbad) as (e & E & He).
    exists e. unfold cheb_predict, mbind, Py_bind, lift. rewrite E.
    cbn [fst]. repeat split; [exact He|]. intros ->. discriminate.
  - intros [given|]; unfold cheb_predict, mbind, Py_bind, lift, attr, raise.
    + destruct (_cast_and_check_neighborhoods given); reflexivity.
    + reflexivity.
Qed.

(** ** Exchanging the two clouds *)



















(** ** The constructors *)

Lemma at_least_1_or_not (l : list Z) :
  Forall (fun k => 1 <= k) l \/ Exists (fun k => k < 1) l.
Proof.
  induction l as [|k l [IH|IH]].
  - left. constructor.
  - destruct (Z_lt_le_dec k 1) as [Hk|Hk].
    + right. apply Exists_cons_hd, Hk.
    + left. constructor; assumption.
  - right. apply Exists_cons_tl, IH.
Qed.

Lemma cast_and_check_raises (l : list Z) (e : exn) :
  _cast_and_check_neighborhoods l = Raise e ->
  (l = [] \/ Exists (fun k => k < 1) l) /\
  spec_error_of e = Some InvalidConfiguration.
Proof.
  intros E.
  assert (Hbad : l = [] \/ Exists (fun k => k < 1) l).
  { destruct l as [|k l]; [now left|]. right.
    destruct (at_least_1_or_not (k :: l)) as [Hall|Hex]; [|exact Hex].
    rewrite cast_and_check_valid in E by (discriminate || exact Hall).
    discriminate. }
  split; [exact Hbad|].
  destruct (cast_and_check_invalid l Hbad) as (e' & E' & He').
  congruence.
Qed.

(** X13: both constructors fail exactly on the sequences that the validator
    rejects, with its [InvalidConfiguration]. A constructed brute-force
    instance keeps the neighbourhoods as given, is not fitted, owns a new
    empty dictionary that is the only object added to the store, and its
    [get_predictions] raises [EstimatorNotFittedException]; a constructed
    Chebyshev instance has a Chebyshev index fitted on nothing and adds
    nothing to the store. Leaving [metric_y] out is giving [metric_x] for
    it. *)
Theorem constructors_contract (neighborhoods : list Z) (standardize : bool)
  (metric_x : _AllowedContinuousMetric)
  (metric_y : option _AllowedContinuousMetric) (n_jobs : Z) (h : heap) :
  match __init__ neighborhoods standardize metric_x metric_y n_jobs h with
  | Ok s =>
      neighborhoods <> [] /\ Forall (fun k => 1 <= k) neighborhoods /\
      _neighborhoods (me s) = neighborhoods /\ _fitted (me s) = false /\
      _mi_dict (me s) = length h /\ mem s = h ++ [ODict []] /\
      fst (get_predictions s) = Raise EstimatorNotFittedException
  | Raise e =>
      (neighborhoods = [] \/ Exists (fun k => k < 1) neighborhoods) /\
      spec_error_of e = Some InvalidConfiguration
  end /\
  match cheb___init__ neighborhoods standardize n_jobs h with
  | Ok s =>
      neighborhoods <> [] /\ Forall (fun k => 1 <= k) neighborhoods /\
      cheb_neighborhoods (me s) = neighborhoods /\
      nn_metric (cheb_nearest_neighbors (me s)) = chebyshev /\
      nn_fit_X (cheb_nearest_neighbors (me s)) = None /\ mem s = h
  | Raise e =>
      (neighborhoods = [] \/ Exists (fun k => k < 1) neighborhoods) /\
      spec_error_of e = Some InvalidConfiguration
  end /\
  __init__ neighborhoods standardize metric_x None n_jobs h
  = __init__ neighborhoods standardize metric_x (Some metric_x) n_jobs h.
Proof.
  split; [|split; [|reflexivity]].
  - destruct (__init__ _ _ _ _ _ h) as [s|e] eqn:E.
    + destruct (init_well_formed _ _ _ _ _ _ _ E)
        as (Hwf & Hf & En & _ & _ & _ & Ed & Em).
      destruct Hwf as [Hv _]. rewrite En in Hv.
      destruct (cast_and_check_ok _ _ Hv) as (_ & Hne & Hall).
      repeat split; try assumption.
      apply get_predictions_raises_only_unfitted, Hf.
    + unfold __init__, mbind, result_bind, rbind in E.
      destruct (_cast_and_check_neighborhoods neighborhoods) eqn:Ec;
        [discriminate|].
      injection E as <-. exact (cast_and_check_raises _ _ Ec).
  - unfold cheb___init__, mbind, result_bind, rbind.
    destruct (_cast_and_check_neighborhoods neighborhoods) as [checked|e] eqn:Ec.
    + destruct (cast_and_check_ok _ _ Ec) as (-> & Hne & Hall).
      cbn. repeat split; assumption.
    + exact (cast_and_check_raises _ _ Ec).
Qed.

End Further.

(** * The multinormal sampler: [bmi/samplers/splitmultinormal.py]

    Arrays are values here: the classes copy or slice what they are given
    and never write to it. A one-dimensional array is a list of rationals;
    a two-dimensional one is a list of rows of one length, with [shape] as
    before, and floats are exact rationals as before.
    [np.log], [np.pi], [np.linalg.det] on a square matrix and jax's
    [random.multivariate_normal] are the fields of [SamplerNumerics], with
    the laws used below: the logarithm of 1, the determinants of matrices
    of one and of two rows, and the shape of a sample. The two members
    that [SplitMultinormal] inherits from [BaseSampler], which is not in
    this file, are parameters of the section. *)

Module Samplers.

Inductive sampler_exn : Type :=
  | Covariance_has_shape (found : nat * nat) (dim : nat)
  | Mean_vector_has_wrong_shape (found : nat) (n : Z)
  | Covariance_matrix_has_wrong_shape (found : nat * nat) (n : Z)
  | LinAlgError_last_2_dimensions_must_be_square
  | Raised_by_validate_dimensions (e : exn).

Inductive outcome (A : Type) : Type :=
  | Returns (a : A)
  | Raises (e : sampler_exn).
Arguments Returns {A} a.
Arguments Raises {A} e.

(** [a[:i]] and [a[i:]] for a Python integer [i]: a negative [i] counts
    from the end, and both are clipped to the sequence. *)
Definition slice_bound {A} (a : list A) (i : Z) : nat :=
  let n := Z.of_nat (length a) in
  Z.to_nat (Z.min n (Z.max 0 (if i <? 0 then n + i else i))).

Definition slice_to {A} (a : list A) (i : Z) : list A :=
  take (slice_bound a i) a.

Definition slice_from {A} (a : list A) (i : Z) : list A :=
  drop (slice_bound a i) a.

(** [m[:i, :i]] and [m[i:, i:]] *)
Definition block_to (m : matrix) (i : Z) : matrix :=
  map (fun r => slice_to r i) (slice_to m i).

Definition block_from (m : matrix) (i : Z) : matrix :=
  map (fun r => slice_from r i) (slice_from m i).

Class SamplerNumerics : Type := {
  np_log : Q -> Q;
  np_pi : Q;
  determinant : matrix -> Q;
  multivariate_normal : Z -> list Q -> matrix -> Z -> matrix;
  np_log_proper : forall a b, (a == b)%Q -> (np_log a == np_log b)%Q;
  np_log_one : (np_log 1 == 0)%Q;
  determinant_one_row : forall a, (determinant [[a]] == a)%Q;
  determinant_two_rows : forall a b c d,
    (determinant [[a; b]; [c; d]] == a * d - b * c)%Q;
  multivariate_normal_shape : forall key mean cov n_samples,
    0 <= n_samples ->
    length (multivariate_normal key mean cov n_samples) = Z.to_nat n_samples /\
    Forall (fun r => length r = length mean)
           (multivariate_normal key mean cov n_samples)
}.

Section Multinormal.
Context `{SamplerNumerics}.

(** [BaseSampler._validate_dimensions] and [BaseSampler.dim_total]. *)
Variable _validate_dimensions : Z -> Z -> option exn.
Variable dim_total : Z -> Z -> Z.

(** [np.linalg.det]: [LinAlgError] on a matrix that is not square. *)
Definition np_linalg_det (m : matrix) : outcome Q :=
  if (fst (shape m) =? snd (shape m))%nat
  then Returns (determinant m)
  else Raises LinAlgError_last_2_dimensions_must_be_square.

(** *** [class _Multinormal] (lines 8-55) *)

Record _Multinormal : Type := {
  _mean : list Q;
  _covariance : matrix;
  _det_covariance : Q;
  _dim : nat
}.

Definition Multinormal_init (mean : list Q) (covariance : matrix)
  : outcome _Multinormal :=
  match np_linalg_det covariance with
  | Raises e => Raises e
  | Returns det_covariance =>
      let dim := length mean in
      if negb (bool_decide (shape covariance = (dim, dim)))
      then Raises (Covariance_has_shape (shape covariance) dim)
      else Returns {| _mean := mean;
                      _covariance := covariance;
                      _det_covariance := det_covariance;
                      _dim := dim |}
  end.

Definition Multinormal_sample (self : _Multinormal) (n_samples : Z) (key : Z)
  : matrix :=
  multivariate_normal key (_mean self) (_covariance self) n_samples.

Definition dim (self : _Multinormal) : nat := _dim self.

Definition entropy (self : _Multinormal) : Q :=
  ((1 # 2) * (np_log (_det_covariance self)
              + inject_Z (Z.of_nat (dim self)) * (1 + np_log (2 * np_pi))))%Q.

(** *** [class SplitMultinormal] (lines 58-138) *)

Record SplitMultinormal : Type := {
  _dim_x : Z;
  _dim_y : Z;
  split_mean : list Q;
  split_covariance : matrix;
  _joint_distribution : _Multinormal;
  _x_distribution : _Multinormal;
  _y_distribution : _Multinormal
}.

(** [_validate_shapes], on the attributes set by then. *)
Definition _validate_shapes (dim_x dim_y : Z) (mean : list Q)
  (covariance : matrix) : outcome unit :=
  let n := dim_total dim_x dim_y in
  if negb (Z.of_nat (length mean) =? n)
  then Raises (Mean_vector_has_wrong_shape (length mean) n)
  else if negb ((Z.of_nat (fst (shape covariance)) =? n)
                && (Z.of_nat (snd (shape covariance)) =? n))
  then Raises (Covariance_matrix_has_wrong_shape (shape covariance) n)
  else Returns tt.

Definition SplitMultinormal_init (dim_x dim_y : Z) (mean : list Q)
  (covariance : matrix) : outcome SplitMultinormal :=
  match _validate_dimensions dim_x dim_y with
  | Some e => Raises (Raised_by_validate_dimensions e)
  | None =>
  match _validate_shapes dim_x dim_y mean covariance with
  | Raises e => Raises e
  | Returns _ =>
  match Multinormal_init mean covariance with
  | Raises e => Raises e
  | Returns joint =>
  match Multinormal_init (slice_to mean dim_x) (block_to covariance dim_x) with
  | Raises e => Raises e
  | Returns x_distribution =>
  match Multinormal_init (slice_from mean dim_x) (block_from covariance dim_x) with
  | Raises e => Raises e
  | Returns y_distribution =>
      Returns {| _dim_x := dim_x;
                 _dim_y := dim_y;
                 split_mean := mean;
                 split_covariance := covariance;
                 _joint_distribution := joint;
                 _x_distribution := x_distribution;
                 _y_distribution := y_distribution |}
  end end end end end.

Definition dim_x (self : SplitMultinormal) : Z := _dim_x self.
Definition dim_y (self : SplitMultinormal) : Z := _dim_y self.

Definition sample (self : SplitMultinormal) (n_points : Z) (rng : Z)
  : matrix * matrix :=
  let xy := Multinormal_sample (_joint_distribution self) n_points rng in
  (map (fun r => slice_to r (_dim_x self)) xy,
   map (fun r => slice_from r (dim_x self)) xy).

Definition mutual_information (self : SplitMultinormal) : Q :=
  let h_x := entropy (_x_distribution self) in
  let h_y := entropy (_y_distribution self) in
  let h_xy := entropy (_joint_distribution self) in
  let mi := (h_x + h_y - h_xy)%Q in
  max2 0 mi.

(** ** Properties of the sampler *)

Lemma slice_bound_le {A} (a : list A) (i : Z) :
  (slice_bound a i <= length a)%nat.
Proof. unfold slice_bound. cbv zeta. lia. Qed.

Lemma slice_bound_in_range {A} (a : list A) (i : Z) :
  0 <= i <= Z.of_nat (length a) -> slice_bound a i = Z.to_nat i.
Proof.
  intros Hi. unfold slice_bound. cbv zeta.
  destruct (Z.ltb_spec i 0); lia.
Qed.

Lemma slice_bound_same_length {A B} (a : list A) (b : list B) (i : Z) :
  length a = length b -> slice_bound a i = slice_bound b i.
Proof. intros E. unfold slice_bound. rewrite E. reflexivity. Qed.

Lemma slice_to_from {A} (a : list A) (i : Z) :
  slice_to a i ++ slice_from a i = a.
Proof. apply take_drop. Qed.

Lemma slice_to_length {A} (a : list A) (i : Z) :
  length (slice_to a i) = slice_bound a i.
Proof.
  unfold slice_to. rewrite length_take. pose proof (slice_bound_le a i). lia.
Qed.

Lemma slice_from_length {A} (a : list A) (i : Z) :
  length (slice_from a i) = (length a - slice_bound a i)%nat.
Proof. unfold slice_from. apply length_drop. Qed.

(** A square array of [n] rows. *)
Definition square (n : nat) (m : matrix) : Prop :=
  length m = n /\ Forall (fun r => length r = n) m.

Lemma square_shape (n : nat) (m : matrix) : square n m -> shape m = (n, n).
Proof.
  intros [Hlen Hrows]. unfold shape. rewrite Hlen. f_equal.
  destruct m as [|r m]; [exact Hlen|]. inversion Hrows; assumption.
Qed.

Lemma block_to_square (n : nat) (m : matrix) (i : Z) :
  square n m -> square (slice_bound m i) (block_to m i).
Proof.
  intros [Hlen Hrows]. unfold block_to. split.
  - rewrite length_map. apply slice_to_length.
  - apply List.Forall_map.
    change (slice_to m i) with (take (slice_bound m i) m).
    apply (Forall_take _ (slice_bound m i)) in Hrows.
    rewrite Forall_forall in *. intros r Hr. rewrite slice_to_length.
    apply slice_bound_same_length. rewrite Hlen. apply Hrows, Hr.
Qed.

Lemma block_from_square (n : nat) (m : matrix) (i : Z) :
  square n m -> square (n - slice_bound m i) (block_from m i).
Proof.
  intros [Hlen Hrows]. unfold block_from. split.
  - rewrite length_map, slice_from_length, Hlen. reflexivity.
  - apply List.Forall_map.
    change (slice_from m i) with (drop (slice_bound m i) m).
    apply (Forall_drop _ (slice_bound m i)) in Hrows.
    rewrite Forall_forall in *. intros r Hr. rewrite slice_from_length.
    rewrite (Hrows r Hr). f_equal. apply slice_bound_same_length.
    rewrite Hlen. apply Hrows, Hr.
Qed.

Lemma Multinormal_init_returns (mean : list Q) (covariance : matrix) :
  shape covariance = (length mean, length mean) ->
  Multinormal_init mean covariance
  = Returns {| _mean := mean; _covariance := covariance;
               _det_covariance := determinant covariance;
               _dim := length mean |}.
Proof.
  intros E. unfold Multinormal_init, np_linalg_det. rewrite E. cbn [fst snd].
  rewrite Nat.eqb_refl. cbv zeta.
  rewrite bool_decide_eq_true_2 by reflexivity. reflexivity.
Qed.

Lemma Multinormal_init_fields (mean : list Q) (covariance : matrix)
  (d : _Multinormal) :
  Multinormal_init mean covariance = Returns d ->
  _mean d = mean /\ _covariance d = covariance /\
  _det_covariance d = determinant covariance /\ dim d = length mean.
Proof.
  intros E. unfold Multinormal_init, np_linalg_det in E.
  destruct (fst (shape covariance) =? snd (shape covariance))%nat;
    [|discriminate].
  cbv zeta in E. destruct (negb (bool_decide _)); [discriminate|].
  injection E as <-. repeat split.
Qed.

(** X14: [_Multinormal] is constructed exactly when the covariance has as
    many rows and columns as the mean has entries; it then keeps both, the
    determinant and the dimension. On a covariance that is not square the
    determinant raises [LinAlgError] before the shape is looked at; the
    [ValueError] of line 30 is raised on a square covariance of another
    size. *)
Theorem Multinormal_init_contract (mean : list Q) (covariance : matrix) :
  ((exists d, Multinormal_init mean covariance = Returns d)
   <-> shape covariance = (length mean, length mean)) /\
  (forall d, Multinormal_init mean covariance = Returns d ->
     _mean d = mean /\ _covariance d = covariance /\
     _det_covariance d = determinant covariance /\ dim d = length mean) /\
  (fst (shape covariance) <> snd (shape covariance) ->
     Multinormal_init mean covariance
     = Raises LinAlgError_last_2_dimensions_must_be_square) /\
  (fst (shape covariance) = snd (shape covariance) ->
   fst (shape covariance) <> length mean ->
     Multinormal_init mean covariance
     = Raises (Covariance_has_shape (shape covariance) (length mean))).
Proof.
  split; [|split; [|split]].
  - split.
    + intros (d & E). unfold Multinormal_init in E.
      destruct (np_linalg_det covariance); [|discriminate]. cbv zeta in E.
      destruct (decide (shape covariance = (length mean, length mean)))
        as [Es|Es]; [exact Es|].
      rewrite bool_decide_eq_false_2 in E by exact Es. discriminate.
    + intros Es. rewrite (Multinormal_init_returns mean covariance Es). eauto.
  - intros d E. exact (Multinormal_init_fields mean covariance d E).
  - intros Hne. unfold Multinormal_init, np_linalg_det.
    destruct (Nat.eqb_spec (fst (shape covariance)) (snd (shape covariance)));
      [contradiction|reflexivity].
  - intros Hsq Hne. unfold Multinormal_init, np_linalg_det.
    rewrite Hsq, Nat.eqb_refl. cbv zeta.
    rewrite bool_decide_eq_false_2; [reflexivity|].
    intros Es. apply Hne. rewrite Es. reflexivity.
Qed.

Lemma SplitMultinormal_init_parts (dx dy : Z) (mean : list Q)
  (covariance : matrix) (self : SplitMultinormal) :
  SplitMultinormal_init dx dy mean covariance = Returns self ->
  _dim_x self = dx /\ _dim_y self = dy /\
  Multinormal_init mean covariance = Returns (_joint_distribution self) /\
  Multinormal_init (slice_to mean dx) (block_to covariance dx)
  = Returns (_x_distribution self) /\
  Multinormal_init (slice_from mean dx) (block_from covariance dx)
  = Returns (_y_distribution self).
Proof.
  unfold SplitMultinormal_init.
  destruct (_validate_dimensions dx dy); [discriminate|].
  destruct (_validate_shapes dx dy mean covariance); [|discriminate].
  destruct (Multinormal_init mean covariance) as [j|]; [|discriminate].
  destruct (Multinormal_init (slice_to mean dx) _) as [xd|]; [|discriminate].
  destruct (Multinormal_init (slice_from mean dx) _) as [yd|]; [|discriminate].
  intros E. injection E as <-. repeat split.
Qed.

(** The dimensions of the two marginals add up to that of the joint
    distribution, whatever [dim_x] is. *)
Lemma split_dimensions (dx dy : Z) (mean : list Q) (covariance : matrix)
  (self : SplitMultinormal) :
  SplitMultinormal_init dx dy mean covariance = Returns self ->
  dim (_joint_distribution self) = length mean /\
  dim (_x_distribution self) = slice_bound mean dx /\
  dim (_y_distribution self) = (length mean - slice_bound mean dx)%nat.
Proof.
  intros E. destruct (SplitMultinormal_init_parts _ _ _ _ _ E)
    as (_ & _ & Ej & Ex & Ey).
  pose proof (Multinormal_init_fields mean covariance) as Hj.
  pose proof (Multinormal_init_fields (slice_to mean dx) (block_to covariance dx))
    as Hx.
  pose proof (Multinormal_init_fields (slice_from mean dx)
                (block_from covariance dx)) as Hy.
  destruct (Hj _ Ej) as (_ & _ & _ & ->). destruct (Hx _ Ex) as (_ & _ & _ & ->).
  destruct (Hy _ Ey) as (_ & _ & _ & ->).
  rewrite slice_to_length, slice_from_length. repeat split.
Qed.

Lemma SplitMultinormal_init_returns (dx dy : Z) (mean : list Q)
  (covariance : matrix) :
  _validate_dimensions dx dy = None ->
  Z.of_nat (length mean) = dim_total dx dy ->
  square (length mean) covariance ->
  exists self, SplitMultinormal_init dx dy mean covariance = Returns self.
Proof.
  intros Hv Hn Hsq.
  unfold SplitMultinormal_init, _validate_shapes. rewrite Hv. cbv zeta.
  rewrite (square_shape _ _ Hsq). cbn [fst snd].
  rewrite Hn, Z.eqb_refl. cbn [negb andb].
  rewrite (Multinormal_init_returns mean covariance (square_shape _ _ Hsq)).
  rewrite (Multinormal_init_returns (slice_to mean dx))
    by (rewrite slice_to_length,
          (slice_bound_same_length mean covariance dx)
            by (symmetry; apply Hsq);
        apply square_shape, (block_to_square _ _ _ Hsq)).
  rewrite (Multinormal_init_returns (slice_from mean dx))
    by (rewrite slice_from_length,
          (slice_bound_same_length mean covariance dx)
            by (symmetry; apply Hsq);
        apply square_shape, (block_from_square _ _ _ Hsq)).
  eauto.
Qed.

(** X15: once the dimensions and the shapes are validated, constructing the
    three distributions cannot fail: on a mean of [n = dim_total] entries
    and a square covariance of [n] rows, [SplitMultinormal] is constructed,
    the dimensions of its two marginals add up to [n], and the X marginal
    has [dim_x] dimensions when [0 <= dim_x <= n]. A mean of another
    length raises the [ValueError] of line 105. *)
Theorem SplitMultinormal_init_contract (dx dy : Z) (mean : list Q)
  (covariance : matrix) :
  _validate_dimensions dx dy = None ->
  (Z.of_nat (length mean) = dim_total dx dy ->
   square (length mean) covariance ->
   exists self,
     SplitMultinormal_init dx dy mean covariance = Returns self /\
     (dim (_x_distribution self) + dim (_y_distribution self))%nat
     = dim (_joint_distribution self) /\
     dim (_joint_distribution self) = length mean /\
     (0 <= dx <= Z.of_nat (length mean) ->
      Z.of_nat (dim (_x_distribution self)) = dx)) /\
  (Z.of_nat (length mean) <> dim_total dx dy ->
   SplitMultinormal_init dx dy mean covariance
   = Raises (Mean_vector_has_wrong_shape (length mean) (dim_total dx dy))).
Proof.
  intros Hv. split.
  - intros Hn Hsq.
    destruct (SplitMultinormal_init_returns dx dy mean covariance Hv Hn Hsq)
      as (self & E).
    exists self. split; [exact E|].
    destruct (split_dimensions _ _ _ _ _ E) as (-> & -> & ->).
    pose proof (slice_bound_le mean dx).
    split; [lia|]. split; [reflexivity|].
    intros Hdx. rewrite slice_bound_in_range by exact Hdx. lia.
  - intros Hn. unfold SplitMultinormal_init, _validate_shapes. rewrite Hv.
    cbv zeta. destruct (Z.eqb_spec (Z.of_nat (length mean)) (dim_total dx dy));
      [contradiction|reflexivity].
Qed.

(** The entropies of the three distributions, with the dimensions
    cancelled. *)
Lemma entropies_combined (dx dy : Z) (mean : list Q) (covariance : matrix)
  (self : SplitMultinormal) :
  SplitMultinormal_init dx dy mean covariance = Returns self ->
  (entropy (_x_distribution self) + entropy (_y_distribution self)
   - entropy (_joint_distribution self)
   == (1 # 2) * (np_log (determinant (block_to covariance dx))
                 + np_log (determinant (block_from covariance dx))
                 - np_log (determinant covariance)))%Q.
Proof.
  intros E.
  destruct (split_dimensions _ _ _ _ _ E) as (Ej & Ex & Ey).
  destruct (SplitMultinormal_init_parts _ _ _ _ _ E) as (_ & _ & Ij & Ix & Iy).
  destruct (Multinormal_init_fields _ _ _ Ij) as (_ & _ & Dj & _).
  destruct (Multinormal_init_fields _ _ _ Ix) as (_ & _ & Dx & _).
  destruct (Multinormal_init_fields _ _ _ Iy) as (_ & _ & Dy & _).
  unfold entropy. rewrite Dj, Dx, Dy, Ej, Ex, Ey.
  pose proof (slice_bound_le mean dx) as Hle.
  replace (Z.of_nat (length mean))
    with (Z.of_nat (slice_bound mean dx)
          + Z.of_nat (length mean - slice_bound mean dx)) by lia.
  rewrite inject_Z_plus. ring.
Qed.

(** X16: the mutual information of a constructed [SplitMultinormal] is never
    negative, and the dimensions cancel in it: it is half of
    [log det Cov[XX] + log det Cov[YY] - log det Cov], floored at 0, the
    formula of the docstring, whatever [dim_x] slices. *)
Theorem mutual_information_formula (dx dy : Z) (mean : list Q)
  (covariance : matrix) (self : SplitMultinormal) :
  SplitMultinormal_init dx dy mean covariance = Returns self ->
  (0 <= mutual_information self)%Q /\
  (mutual_information self
   == max2 0 ((1 # 2) * (np_log (determinant (block_to covariance dx))
                         + np_log (determinant (block_from covariance dx))
                         - np_log (determinant covariance))))%Q.
Proof.
  intros E. split; [apply max2_nonneg|].
  unfold mutual_information. cbv zeta. apply max2_Qeq.
  exact (entropies_combined dx dy mean covariance self E).
Qed.

(** X17: [sample] splits the joint sample and loses nothing: for a number
    of points that is not negative, both arrays have that many rows, the
    rows of the second put after those of the first give the joint sample
    back, and for [0 <= dim_x <= n] the first array has [dim_x] columns and
    the second the other [n - dim_x]. *)
Theorem sample_splits_joint_sample (dx dy : Z) (mean : list Q)
  (covariance : matrix) (self : SplitMultinormal) (n_points rng : Z) :
  SplitMultinormal_init dx dy mean covariance = Returns self ->
  0 <= n_points ->
  let xy := Multinormal_sample (_joint_distribution self) n_points rng in
  let '(x, y) := sample self n_points rng in
  length x = Z.to_nat n_points /\ length y = Z.to_nat n_points /\
  np_hstack x y = Ok xy /\
  (0 <= dx <= Z.of_nat (length mean) ->
   Forall (fun r => Z.of_nat (length r) = dx) x /\
   Forall (fun r => Z.of_nat (length r) = Z.of_nat (length mean) - dx) y).
Proof.
  intros E Hn xy. unfold sample, dim_x. fold xy.
  destruct (SplitMultinormal_init_parts _ _ _ _ _ E) as (Edx & _ & Ij & _).
  destruct (Multinormal_init_fields mean covariance _ Ij) as (Em & _).
  rewrite Edx.
  destruct (multivariate_normal_shape rng (_mean (_joint_distribution self))
              (_covariance (_joint_distribution self)) n_points Hn)
    as [Hrows Hcols].
  fold (Multinormal_sample (_joint_distribution self) n_points rng) in Hrows, Hcols.
  fold xy in Hrows, Hcols. rewrite Em in Hcols.
  split; [rewrite length_map; exact Hrows|].
  split; [rewrite length_map; exact Hrows|]. split.
  - unfold np_hstack. rewrite !length_map, Nat.eqb_refl. f_equal.
    clear. induction xy as [|r xy IH]; [reflexivity|].
    cbn [map zip_with]. rewrite slice_to_from, IH. reflexivity.
  - intros Hdx. split; apply List.Forall_map; rewrite Forall_forall in *;
      intros r Hr; specialize (Hcols r Hr).
    + rewrite slice_to_length, slice_bound_in_range by (rewrite Hcols; exact Hdx).
      lia.
    + rewrite slice_from_length, slice_bound_in_range by (rewrite Hcols; exact Hdx).
      rewrite Hcols. lia.
Qed.

(** X18: for two variables of one dimension each with unit variances and
    covariance [rho], the distribution the tests sample from, the mutual
    information is [-log(1 - rho^2) / 2], floored at 0. *)
Theorem bivariate_mutual_information (rho : Q) (mean : list Q) :
  _validate_dimensions 1 1 = None -> dim_total 1 1 = 2 -> length mean = 2%nat ->
  exists self,
    SplitMultinormal_init 1 1 mean [[1; rho]; [rho; 1]]%Q = Returns self /\
    (mutual_information self
     == max2 0 (- ((1 # 2) * np_log (1 - rho * rho))))%Q.
Proof.
  intros Hv Hn Hlen.
  destruct (SplitMultinormal_init_returns 1 1 mean [[1; rho]; [rho; 1]]%Q Hv)
    as (self & E).
  { rewrite Hlen, Hn. reflexivity. }
  { rewrite Hlen. split; [reflexivity | repeat constructor]. }
  exists self. split; [exact E|].
  unfold mutual_information. cbv zeta. apply max2_Qeq.
  rewrite (entropies_combined _ _ _ _ _ E).
  assert (Ex : block_to [[1; rho]; [rho; 1]]%Q 1 = [[1%Q]]) by reflexivity.
  assert (Ey : block_from [[1; rho]; [rho; 1]]%Q 1 = [[1%Q]]) by reflexivity.
  rewrite Ex, Ey.
  rewrite (np_log_proper _ _ (determinant_one_row 1)), np_log_one.
  rewrite (np_log_proper _ _ (determinant_two_rows 1 rho rho 1)).
  rewrite (np_log_proper (1 * 1 - rho * rho) (1 - rho * rho)) by ring.
  ring.
Qed.

End Multinormal.
End Samplers.

(** ** The contracts on a sample

    Four paired observations on the line, and an instance with the
    neighbourhoods 1 and 2, evaluated with the sample routines. *)

#[local] Existing Instance sample_numerics.

Definition sample_x : matrix := [[0%Q]; [1%Q]; [3%Q]; [7%Q]].
Definition sample_y : matrix := [[0%Q]; [2%Q]; [3%Q]; [9%Q]].
Definition sample_heap : heap := [ONdarray sample_x; ONdarray sample_y].

Definition sample_state : st KSGEnsembleFirstEstimator :=
  St {| _neighborhoods := [1; 2];
        _standardize := true;
        _n_jobs := 1;
        _metric_x := manhattan;
        _metric_y := manhattan;
        _fitted := false;
        _mi_dict := 2 |}
     (sample_heap ++ [ODict []]).

Definition sample_world : world := World sample_state [O; 1%nat].

Definition sample_calls : list call :=
  [Call_get_predictions; Call_fit 0 1; Call_get_predictions;
   Caller_overwrites 5 (ODict [(1, 0%Q)]); Call_estimate 1 0].

Definition sample_cheb_state : st KSGEnsembleChebyshevEstimator :=
  St {| cheb_neighborhoods := [5; 10];
        cheb_nearest_neighbors :=
          {| nn_metric := chebyshev; nn_n_jobs := 1; nn_fit_X := None |};
        cheb_standardize := true |}
     sample_heap.

Example sample_state_constructed :
  __init__ [1; 2] true manhattan None 1 sample_heap = Ok sample_state.
Proof. reflexivity. Qed.

Example sample_world_constructed :
  construct [1; 2] true manhattan None 1 sample_heap = Ok sample_world.
Proof. reflexivity. Qed.

Example sample_cheb_state_constructed :
  cheb___init__ [5; 10] true 1 sample_heap = Ok sample_cheb_state.
Proof. reflexivity. Qed.

Lemma sample_state_well_formed : well_formed sample_state.
Proof. split; [reflexivity|]. exists []. split; reflexivity. Defined.

(** Without standardization, the estimates of the sample are 7/12 at
    [k = 1] and 17/24 at [k = 2], and [estimate] returns their mean. *)
Example sample_estimates :
  let s := St (set_fitted false
                 {| _neighborhoods := [1; 2]; _standardize := false;
                    _n_jobs := 1; _metric_x := manhattan;
                    _metric_y := manhattan; _fitted := false;
                    _mi_dict := 2 |})
              (sample_heap ++ [ODict []]) in
  (mem (snd (fit 0 1 s)) !! 2%nat)
  = Some (ODict [(1, 14 # 24); (2, 34 # 48)]) /\
  match fst (estimate 0 1 s) with
  | Ok v => Qred v = 31 # 48
  | Raise _ => False
  end.
Proof. vm_compute. split; reflexivity. Qed.

(** The copy that [get_predictions] returned is overwritten by the caller
    in [sample_calls]; the instance's own dictionary is not. *)
Example sample_calls_overwrite_copy :
  let w := run [Call_get_predictions; Call_fit 0 1; Call_get_predictions;
                Caller_overwrites 5 (ODict [(1, 0%Q)])] sample_world in
  mem (instance w) !! 5%nat = Some (ODict [(1, 0%Q)]) /\
  mem (instance w) !! 2%nat = mem (snd (fit 0 1 sample_state)) !! 2%nat /\
  held w = [5%nat; O; 1%nat].
Proof. vm_compute. repeat split; reflexivity. Qed.

(** *** The contracts applied to the sample *)

Lemma cast_and_check_neighborhoods_contract_witness :
  (exists e, _cast_and_check_neighborhoods [] = Raise e /\
             spec_error_of e = Some InvalidConfiguration) /\
  (exists e, _cast_and_check_neighborhoods [5; 0] = Raise e /\
             spec_error_of e = Some InvalidConfiguration) /\
  _cast_and_check_neighborhoods [5; 10] = Ok [5; 10].
Proof.
  split; [|split].
  - apply (proj1 (cast_and_check_neighborhoods_contract [])). reflexivity.
  - apply (proj1 (proj2 (cast_and_check_neighborhoods_contract [5; 0]))).
    apply Exists_cons_tl, Exists_cons_hd. lia.
  - apply (proj2 (proj2 (cast_and_check_neighborhoods_contract [5; 10]))).
    + discriminate.
    + repeat constructor; lia.
Defined.




Lemma fit_keeps_input_arrays_witness :
  (mem (snd (fit 0 1 sample_state)) !! O = Some (ONdarray sample_x) /\
   mem (snd (fit 0 1 sample_state)) !! 1%nat = Some (ONdarray sample_y)) /\
  (mem (snd (cheb_fit 0 1 sample_cheb_state)) !! O = Some (ONdarray sample_x) /\
   mem (snd (cheb_fit 0 1 sample_cheb_state)) !! 1%nat
   = Some (ONdarray sample_y)).
Proof.
  split.
  - apply (proj1 (fit_keeps_input_arrays 0 1 sample_x sample_y) sample_state);
      reflexivity.
  - apply (proj2 (fit_keeps_input_arrays 0 1 sample_x sample_y)
             sample_cheb_state); reflexivity.
Defined.

Lemma cheb_predict_unimplemented_witness :
  fst (cheb_predict (Some [3; 4]) sample_cheb_state) = Raise NotImplementedError /\
  fst (cheb_estimate 0 1 sample_cheb_state) = Raise NotImplementedError.
Proof.
  destruct (cheb_predict_unimplemented sample_cheb_state)
    as (_ & Hgiven & _ & Hest).
  split.
  - apply Hgiven; [discriminate | repeat constructor; lia].
  - apply (proj2 (Hest O 1%nat)). vm_compute. reflexivity.
Defined.

Lemma cheb_fit_checks_lengths_only_witness :
  (length sample_x <> length (sample_y ++ [[1%Q]]) ->
     exists e,
       fst (cheb_fit 0 1 (St (me sample_cheb_state)
                             [ONdarray sample_x;
                              ONdarray (sample_y ++ [[1%Q]])])) = Raise e /\
       spec_error_of e = Some MismatchedLengths) /\
  (forall e,
     fst (cheb_fit 0 1 (St (me sample_cheb_state)
                           [ONdarray sample_x;
                            ONdarray (sample_y ++ [[1%Q]])])) = Raise e ->
     spec_error_of e <> Some InsufficientSamples).
Proof.
  apply (cheb_fit_checks_lengths_only
           (St (me sample_cheb_state)
               [ONdarray sample_x; ONdarray (sample_y ++ [[1%Q]])])
           0 1 sample_x (sample_y ++ [[1%Q]])); reflexivity.
Defined.

Lemma get_predictions_contract_witness :
  let w := run sample_calls sample_world in
  (fst (get_predictions (instance w)) = Raise EstimatorNotFittedException
   <-> fit_has_succeeded sample_calls sample_world = false) /\
  (forall d s1,
     get_predictions (instance w) = (Ok d, s1) ->
     exists m,
       mem (instance w) !! _mi_dict (me (instance w)) = Some (ODict m) /\
       mem s1 !! d = Some (ODict m) /\
       d <> _mi_dict (me s1) /\
       forall o,
         let s1' := St (me s1) (<[d := o]> (mem s1)) in
         mem s1' !! d = Some o /\
         exists d2 s2, get_predictions s1' = (Ok d2, s2) /\
                       mem s2 !! d2 = Some (ODict m)) /\
  (forall later d s1,
     Forall (fun c => runs_fit c = None) later ->
     get_predictions (instance w) = (Ok d, s1) ->
     exists d' s1',
       get_predictions (instance (run later w)) = (Ok d', s1') /\
       mem s1' !! d' = mem s1 !! d).
Proof.
  apply (get_predictions_contract [1; 2] true manhattan None 1 sample_heap
           sample_world sample_calls).
  reflexivity.
Defined.


(** C4, as the specification states it, fails: with four points and the
    neighbourhoods 5 and 10, [fit] of the Chebyshev estimator returns. *)
Lemma cheb_fit_without_enough_samples :
  ~ (forall (s : st KSGEnsembleChebyshevEstimator) (x y : loc) (a b : matrix)
            (kmax : Z),
       mem s !! x = Some (ONdarray a) -> mem s !! y = Some (ONdarray b) ->
       py_max (cheb_neighborhoods (me s)) = Ok kmax ->
       Z.of_nat (length a) <= kmax ->
       exists e, fst (cheb_fit x y s) = Raise e /\
                 spec_error_of e = Some InsufficientSamples).
Proof.
  intros Hclaim.
  destruct (Hclaim sample_cheb_state O 1%nat sample_x sample_y 10
              eq_refl eq_refl eq_refl ltac:(simpl; lia)) as (e & E & _).
  vm_compute in E. discriminate.
Qed.

(** *** The further properties applied to the sample *)

Lemma neighbour_counts_range_witness :
  let radius := spec_radius (joint_distances (me sample_state) sample_x sample_y 1) 2 in
  -1 <= n_x_of (me sample_state) sample_x sample_y 1 2 <= Z.of_nat (length sample_x) - 1 /\
  -1 <= n_y_of (me sample_state) sample_x sample_y 1 2 <= Z.of_nat (length sample_x) - 1 /\
  ((0 < radius)%Q ->
     0 <= n_x_of (me sample_state) sample_x sample_y 1 2 /\
     0 <= n_y_of (me sample_state) sample_x sample_y 1 2) /\
  ((radius == 0)%Q ->
     n_x_of (me sample_state) sample_x sample_y 1 2
     = spec_count (pairwise_distances (nth 1 sample_x []) sample_x
                     (_metric_x (me sample_state))) 1 radius - 1 /\
     n_y_of (me sample_state) sample_x sample_y 1 2
     = spec_count (pairwise_distances (nth 1 sample_y []) sample_y
                     (_metric_y (me sample_state))) 1 radius - 1).
Proof.
  apply (neighbour_counts_range (me sample_state) sample_x sample_y 1 2).
  - reflexivity.
  - simpl. lia.
Defined.






(** A second instance, constructed in the store of [sample_state]. *)
Definition sample_second : st KSGEnsembleFirstEstimator :=
  St {| _neighborhoods := [1];
        _standardize := false;
        _n_jobs := 1;
        _metric_x := euclidean;
        _metric_y := chebyshev;
        _fitted := false;
        _mi_dict := 3 |}
     (sample_heap ++ [ODict []; ODict []]).

Lemma kth_distance_order_statistic_witness :
  (exists distance,
     kth_distance [3; 1; 2; 1]%Q 2 = Ok distance /\
     In distance [3; 1; 2; 1]%Q /\
     count_below [3; 1; 2; 1]%Q distance <= 2 /\
     2 + 1 <= count_at_most [3; 1; 2; 1]%Q distance) /\
  kth_distance [3; 1; 2; 1]%Q 4 = Raise IndexError.
Proof.
  split.
  - apply (proj1 (kth_distance_order_statistic [3; 1; 2; 1]%Q 2)). simpl. lia.
  - apply (proj2 (kth_distance_order_statistic [3; 1; 2; 1]%Q 4)). simpl. lia.
Defined.


Lemma fitted_keys_witness :
  exists d s2 m,
    get_predictions (snd (fit 0 1 sample_state)) = (Ok d, s2) /\
    mem s2 !! d = Some (ODict m) /\
    mem (snd (fit 0 1 sample_state))
      !! _mi_dict (me (snd (fit 0 1 sample_state))) = Some (ODict m) /\
    List.NoDup (dict_keys m) /\
    (forall k, In k (dict_keys m) <-> In k (_neighborhoods (me sample_state))) /\
    (List.NoDup (_neighborhoods (me sample_state)) ->
     dict_keys m = _neighborhoods (me sample_state)).
Proof.
  apply (fitted_keys sample_state (snd (fit 0 1 sample_state)) 0 1).
  - exact sample_state_well_formed.
  - vm_compute. reflexivity.
Defined.

Lemma fit_replaces_mapping_witness :
  let w := run sample_calls sample_world in
  let s1 := snd (fit 0 1 (instance w)) in
  exists m,
    mem s1 !! _mi_dict (me s1) = Some (ODict m) /\
    mem s1 !! O = mem (instance w) !! O /\
    mem s1 !! 1%nat = mem (instance w) !! 1%nat /\
    (exists s2, fit 0 1 s1 = (Ok tt, s2) /\
                mem s2 !! _mi_dict (me s2) = Some (ODict m)) /\
    (forall s_new,
       __init__ [1; 2] true manhattan None 1 (mem (instance w)) = Ok s_new ->
       exists s_new1,
         fit 0 1 s_new = (Ok tt, s_new1) /\
         mem s_new1 !! _mi_dict (me s_new1) = Some (ODict m)).
Proof.
  apply (fit_replaces_mapping [1; 2] true manhattan None 1 sample_heap
           sample_world sample_calls 0 1).
  - reflexivity.
  - vm_compute. repeat constructor.
  - vm_compute. repeat constructor.
  - vm_compute. reflexivity.
Defined.

Lemma predictions_are_snapshots_witness :
  let w := run [Call_fit 0 1] sample_world in
  let s1 := snd (get_predictions (instance w)) in
  let later := [Call_fit 1 0; Call_get_predictions;
                Caller_overwrites 0 (ONdarray sample_y); Call_estimate 0 1] in
  step Call_get_predictions w = World s1 (5%nat :: held w) /\
  mem (instance (run later (step Call_get_predictions w))) !! 5%nat
  = mem s1 !! 5%nat.
Proof.
  apply (predictions_are_snapshots [1; 2] true manhattan None 1 sample_heap
           sample_world [Call_fit 0 1]
           [Call_fit 1 0; Call_get_predictions;
            Caller_overwrites 0 (ONdarray sample_y); Call_estimate 0 1] 5).
  - reflexivity.
  - vm_compute. reflexivity.
  - repeat constructor. simpl. lia.
Defined.

Lemma instances_do_not_share_witness :
  let after := mem (snd (fit 0 1 sample_second)) in
  _mi_dict (me sample_second) <> _mi_dict (me sample_state) /\
  after !! _mi_dict (me sample_state) = Some (ODict []) /\
  fst (get_predictions (St (me sample_state) after))
  = Raise EstimatorNotFittedException.
Proof.
  apply (instances_do_not_share [1; 2] [1] true false manhattan euclidean
           None (Some chebyshev) 1 1 sample_heap sample_state sample_second 0 1).
  - reflexivity.
  - reflexivity.
Defined.

Lemma estimate_contract_witness :
  (forall e, fst (estimate 0 1 sample_state) = Raise e
             <-> fst (fit 0 1 sample_state) = Raise e) /\
  (forall v s2, estimate 0 1 sample_state = (Ok v, s2) ->
     (0 <= v)%Q /\ _fitted (me s2) = true /\
     exists d s3 m, get_predictions s2 = (Ok d, s3) /\
                    mem s3 !! d = Some (ODict m) /\
                    v = np_mean (dict_values m)).
Proof.
  apply (estimate_contract sample_state 0 1). exact sample_state_well_formed.
Defined.


Lemma cheb_predict_validates_first_witness :
  (exists e, fst (cheb_predict (Some [3; 0]) sample_cheb_state) = Raise e /\
             spec_error_of e = Some InvalidConfiguration /\
             e <> NotImplementedError) /\
  snd (cheb_predict None sample_cheb_state) = sample_cheb_state.
Proof.
  split.
  - apply (proj1 (cheb_predict_validates_first sample_cheb_state) [3; 0]).
    right. apply Exists_cons_tl, Exists_cons_hd. lia.
  - apply (proj2 (cheb_predict_validates_first sample_cheb_state) None).
Defined.


(** *** The sampler's properties applied to a sample

    Sample routines for the sampler: [q - 1] for the logarithm of [q],
    22/7 for pi, the expansion of the determinant along the first row, and
    a sample that repeats the mean; a base class whose validation accepts
    the dimensions and whose [dim_total] is their sum. *)

Fixpoint cofactor_expansion (n : nat) (m : matrix) : Q :=
  match n, m with
  | S n', r :: rest =>
      Qsum (imap (fun j v =>
                    ((if Nat.even j then 1 else -1) * v
                     * cofactor_expansion n' (map (fun r' => delete j r') rest))%Q)
                 r)
  | _, _ => 1%Q
  end.

Definition sample_determinant (m : matrix) : Q :=
  cofactor_expansion (length m) m.

Definition sample_log (q : Q) : Q := (q - 1)%Q.

Definition sample_multivariate_normal (key : Z) (mean : list Q) (cov : matrix)
  (n_samples : Z) : matrix :=
  replicate (Z.to_nat n_samples) mean.

Lemma sample_log_proper (a b : Q) :
  (a == b)%Q -> (sample_log a == sample_log b)%Q.
Proof. intros E. unfold sample_log. rewrite E. reflexivity. Qed.

Lemma sample_log_one : (sample_log 1 == 0)%Q.
Proof. reflexivity. Qed.

Lemma sample_determinant_one_row (a : Q) : (sample_determinant [[a]] == a)%Q.
Proof. unfold sample_determinant. cbn. ring. Qed.

Lemma sample_determinant_two_rows (a b c d : Q) :
  (sample_determinant [[a; b]; [c; d]] == a * d - b * c)%Q.
Proof. unfold sample_determinant. cbn. ring. Qed.

Lemma sample_multivariate_normal_shape (key : Z) (mean : list Q) (cov : matrix)
  (n_samples : Z) :
  0 <= n_samples ->
  length (sample_multivariate_normal key mean cov n_samples)
  = Z.to_nat n_samples /\
  Forall (fun r => length r = length mean)
         (sample_multivariate_normal key mean cov n_samples).
Proof.
  intros _. unfold sample_multivariate_normal. split.
  - apply length_replicate.
  - apply Forall_replicate. reflexivity.
Qed.

Definition sample_sampler_numerics : Samplers.SamplerNumerics := {|
  Samplers.np_log := sample_log;
  Samplers.np_pi := 22 # 7;
  Samplers.determinant := sample_determinant;
  Samplers.multivariate_normal := sample_multivariate_normal;
  Samplers.np_log_proper := sample_log_proper;
  Samplers.np_log_one := sample_log_one;
  Samplers.determinant_one_row := sample_determinant_one_row;
  Samplers.determinant_two_rows := sample_determinant_two_rows;
  Samplers.multivariate_normal_shape := sample_multivariate_normal_shape
|}.

#[local] Existing Instance sample_sampler_numerics.

Definition sample_validate_dimensions (dim_x dim_y : Z) : option exn := None.

Definition sample_mean : list Q := [0; 0]%Q.
Definition sample_covariance : matrix := [[1; 1 # 2]; [1 # 2; 1]]%Q.

Definition sample_split : Samplers.SplitMultinormal :=
  {| Samplers._dim_x := 1;
     Samplers._dim_y := 1;
     Samplers.split_mean := sample_mean;
     Samplers.split_covariance := sample_covariance;
     Samplers._joint_distribution :=
       {| Samplers._mean := sample_mean;
          Samplers._covariance := sample_covariance;
          Samplers._det_covariance := sample_determinant sample_covariance;
          Samplers._dim := 2 |};
     Samplers._x_distribution :=
       {| Samplers._mean := [0%Q];
          Samplers._covariance := [[1%Q]];
          Samplers._det_covariance := sample_determinant [[1%Q]];
          Samplers._dim := 1 |};
     Samplers._y_distribution :=
       {| Samplers._mean := [0%Q];
          Samplers._covariance := [[1%Q]];
          Samplers._det_covariance := sample_determinant [[1%Q]];
          Samplers._dim := 1 |} |}.

Example sample_split_constructed :
  Samplers.SplitMultinormal_init sample_validate_dimensions Z.add 1 1
    sample_mean sample_covariance = Samplers.Returns sample_split.
Proof. reflexivity. Qed.

Lemma Multinormal_init_contract_witness :
  (exists d, Samplers.Multinormal_init sample_mean sample_covariance
             = Samplers.Returns d) /\
  Samplers.Multinormal_init sample_mean [[1; 2]]%Q
  = Samplers.Raises Samplers.LinAlgError_last_2_dimensions_must_be_square /\
  Samplers.Multinormal_init sample_mean [[1]]%Q
  = Samplers.Raises (Samplers.Covariance_has_shape (shape [[1]]%Q)
                       (length sample_mean)).
Proof.
  split; [|split].
  - apply (proj1 (Samplers.Multinormal_init_contract sample_mean
                    sample_covariance)).
    reflexivity.
  - apply (proj1 (proj2 (proj2 (Samplers.Multinormal_init_contract sample_mean
                                  [[1; 2]]%Q)))).
    simpl. lia.
  - apply (proj2 (proj2 (proj2 (Samplers.Multinormal_init_contract sample_mean
                                  [[1]]%Q)))).
    + reflexivity.
    + simpl. lia.
Defined.

Lemma SplitMultinormal_init_contract_witness :
  (exists self,
     Samplers.SplitMultinormal_init sample_validate_dimensions Z.add 1 1
       sample_mean sample_covariance = Samplers.Returns self /\
     (Samplers.dim (Samplers._x_distribution self)
      + Samplers.dim (Samplers._y_distribution self))%nat
     = Samplers.dim (Samplers._joint_distribution self) /\
     Samplers.dim (Samplers._joint_distribution self) = length sample_mean /\
     (0 <= 1 <= Z.of_nat (length sample_mean) ->
      Z.of_nat (Samplers.dim (Samplers._x_distribution self)) = 1)) /\
  Samplers.SplitMultinormal_init sample_validate_dimensions Z.add 1 1
    [0%Q] sample_covariance
  = Samplers.Raises (Samplers.Mean_vector_has_wrong_shape 1 2).
Proof.
  split.
  - apply (proj1 (Samplers.SplitMultinormal_init_contract
                    sample_validate_dimensions Z.add 1 1 sample_mean
                    sample_covariance eq_refl)).
    + reflexivity.
    + split; [reflexivity|]. repeat constructor.
  - apply (proj2 (Samplers.SplitMultinormal_init_contract
                    sample_validate_dimensions Z.add 1 1 [0%Q]
                    sample_covariance eq_refl)).
    simpl. lia.
Defined.

Lemma mutual_information_formula_witness :
  (0 <= Samplers.mutual_information sample_split)%Q /\
  (Samplers.mutual_information sample_split
   == max2 0 ((1 # 2)
              * (Samplers.np_log
                   (Samplers.determinant (Samplers.block_to sample_covariance 1))
                 + Samplers.np_log
                     (Samplers.determinant (Samplers.block_from sample_covariance 1))
                 - Samplers.np_log (Samplers.determinant sample_covariance))))%Q.
Proof.
  apply (Samplers.mutual_information_formula sample_validate_dimensions Z.add
           1 1 sample_mean sample_covariance sample_split).
  reflexivity.
Defined.

Lemma sample_splits_joint_sample_witness :
  let xy := Samplers.Multinormal_sample
              (Samplers._joint_distribution sample_split) 3 0 in
  let '(x, y) := Samplers.sample sample_split 3 0 in
  length x = Z.to_nat 3 /\ length y = Z.to_nat 3 /\
  np_hstack x y = Ok xy /\
  (0 <= 1 <= Z.of_nat (length sample_mean) ->
   Forall (fun r => Z.of_nat (length r) = 1) x /\
   Forall (fun r => Z.of_nat (length r) = Z.of_nat (length sample_mean) - 1) y).
Proof.
  apply (Samplers.sample_splits_joint_sample sample_validate_dimensions Z.add
           1 1 sample_mean sample_covariance sample_split 3 0).
  - reflexivity.
  - lia.
Defined.

Lemma bivariate_mutual_information_witness :
  exists self,
    Samplers.SplitMultinormal_init sample_validate_dimensions Z.add 1 1
      sample_mean [[1; 1 # 2]; [1 # 2; 1]]%Q = Samplers.Returns self /\
    (Samplers.mutual_information self
     == max2 0 (- ((1 # 2) * Samplers.np_log (1 - (1 # 2) * (1 # 2)))))%Q.
Proof.
  apply (Samplers.bivariate_mutual_information sample_validate_dimensions
           Z.add (1 # 2) sample_mean).
  - reflexivity.
  - reflexivity.
  - reflexivity.
Defined.
